(** * The channel collection of the container runtime

    A shallow embedding of the class [ChannelCollection] of the container
    runtime and of [detectOutboundReferences], together with the properties
    its specification states about the attach protocol, the alias protocol,
    the GC interface and the id allocator.

    Conventions of the embedding.
    - The private tables of the class are the fields of [State]; JS [Map]s are
      [gmap]s and JS [Set]s are [gset]s (no property below depends on iteration
      order, and the GC data is a graph).
    - Every call the class makes on a collaborator (parent runtime, telemetry
      logger, a data store context, a promise resolver) is appended to the
      [trace] of the state, in program order.
    - A method is a computation in the monad [M]: it runs on a state and either
      returns a value or throws, and the state it leaves behind is kept in both
      cases, since a JS exception does not undo earlier writes.
    - What the parent context and the helpers of other packages provide is
      gathered in [Env]. *)

From Stdlib Require Import ZArith Lia Ascii String.
From stdpp Require Import gmap strings list fin_maps pretty.

Open Scope string_scope.
Open Scope list_scope.

(** ** Data *)

(** [AttachState] of @fluidframework/container-definitions. *)
Inductive AttachState := Detached | Attaching | Attached.

#[global] Instance AttachState_eq_dec : EqDecision AttachState.
Proof. solve_decision. Defined.

(** JSON-shaped op contents.  An object is the list of its own enumerable
    properties in the order [Object.entries] yields them.  Numbers are kept to
    the integers; nothing below computes with them. *)
#[warnings="-register-all"]
Inductive Json :=
| JNull
| JBool (b : bool)
| JNum (n : Z)
| JStr (s : string)
| JArr (items : list Json)
| JObj (fields : list (string * Json)).

(** A summary tree in [ITree] form, as carried by an attach message. *)
#[warnings="-register-all"]
Inductive ITreeEntry :=
| BlobEntry (path : string) (contents : string)
| TreeEntry (path : string) (entries : list ITreeEntry)
| AttachmentEntry (path : string) (id : string).

Record ITree := { entries : list ITreeEntry; groupId : option string }.

(** [IAttachMessage] / [InboundAttachMessage]: [{id, type, snapshot?}]. *)
Record AttachMessage := {
  am_id : string;
  am_type : string;
  am_snapshot : option ITree;
}.

(** [IEnvelope] around a [FluidDataStoreMessage]. *)
Record Envelope := {
  address : string;
  inner_type : string;
  inner_content : Json;
}.

(** [message.type] with [message.contents] of a sequenced container message. *)
Inductive ContainerMessage :=
| Attach (m : AttachMessage)
| Alias (contents : Json)
| FluidDataStoreOp (envelope : Envelope)
| OtherMessage (type : string).

(** The document storage service seen by a context; the parent's service is
    opaque, [StorageServiceWithAttachBlobs] is a wrapper around another one. *)
Inductive Storage :=
| ParentStorage
| StorageServiceWithAttachBlobs (inner : Storage) (attachBlobs : gmap string string).

Inductive ContextKind :=
| LocalFluidDataStoreContext
| LocalDetachedFluidDataStoreContext
| RemoteFluidDataStoreContext.

(** What the collection observes of a [FluidDataStoreContext]; [root] is what
    [isRoot()] resolves to. *)
Record Context := {
  kind : ContextKind;
  attachState : AttachState;
  packagePath : list string;
  root : bool;
  isLoaded : bool;
  storage : Storage;
}.

(** Handles passed to [addedGCOutboundReference]. *)
Inductive Handle :=
| ContainerRuntimeHandle
| DataStoreHandle (id : string)
| AbsolutePath (path : string).

(** A telemetry event, with the properties the collection sets. *)
Record Event := {
  eventName : string;
  category : string;
  subject : option string;
  callSite : option string;
  flags : list (string * bool);
}.

Definition PendingAliasResolve := nat.

Inductive AliasResult := Success | Conflict | AlreadyAliased.

(** [Promise<AliasResult>]: settled with a value, or still pending. *)
Inductive AliasPromise :=
| Resolved (r : AliasResult)
| Pending (ticket : nat).

(** Calls made on collaborators. *)
Inductive Effect :=
| SubmitMessage (m : ContainerMessage)
| AddedGCOutboundReference (src dst : Handle)
| SendEvent (e : Event)
| DeleteChildSummarizerNode (id : string)
| ContextDelete (id : string)
| ContextProcess (id : string) (type : string) (contents : Json) (local : bool)
| ContextRollback (id : string) (type : string) (contents : Json)
| GcNodeUpdated (nodePath : string) (reason : string)
| AddedOutboundReference (fromNodePath toNodePath : string)
| ResolveAlias (resolve : PendingAliasResolve) (success : bool).

Inductive Error :=
| AssertionError (code : string)
| DataCorruptionError (message : string)
| DataProcessingError (message : string)
| TypeError (message : string).

(** The fields of [ChannelCollection] (with those of its [DataStoreContexts]). *)
Record State := {
  contexts : gmap string Context;
  notBoundContexts : gset string;
  aliasMap : gmap string string;
  pendingAttach : gmap string AttachMessage;
  attachOpFiredForDataStore : gset string;
  dataStoresSinceLastGC : list string;
  shouldSendAttachLog : bool;
  pendingAliasMap : gmap string AliasPromise;
  trace : list Effect;
}.

(** The parent context and the helpers imported from other packages. *)
Record Env := {
  (** [parentContext.attachState] *)
  parentAttachState : AttachState;
  (** the [isDataStoreDeleted] callback given to the constructor *)
  isDataStoreDeleted : string -> bool;
  (** [encodeCompactIdToString] of runtime-utils *)
  encodeCompactIdToString : Z -> string;
  (** what [containerRuntime.generateDocumentUniqueId()] returns next *)
  generateDocumentUniqueId : Z + string;
  (** [mc.config.getBoolean(detectOutboundRoutesViaDDSKey)] *)
  detectOutboundRoutesViaDDSKey : option bool;
  (** [processAttachMessageGCData]: the (nodeId, toPath) pairs it reports to
      its callback, [None] when the snapshot carries no GC data *)
  processAttachMessageGCData : option ITree -> option (list (string * string));
  (** the blobs [buildSnapshotTree] puts into the map it is given *)
  buildSnapshotTree : list ITreeEntry -> gmap string string;
  (** the attach state the [LocalFluidDataStoreContext] constructor gives a
      context built from a snapshot, from the parent's attach state *)
  existingLocalAttachState : AttachState -> AttachState;
  (** [isRootDataStore] of the initial snapshot details of a remote context *)
  snapshotIsRoot : option ITree -> bool;
  (** the attach summary [context.getAttachData(true)] yields, converted by
      [convertSummaryTreeToITree] *)
  getAttachData : string -> ITree;
  (** the [gcNodes] that [context.getGCData(fullGC)] resolves to *)
  contextGCNodes : string -> bool -> gmap string (list string);
}.

(** ** Field updates *)

Definition set_contexts (f : gmap string Context -> gmap string Context) (s : State) : State :=
  {| contexts := f (contexts s);
     notBoundContexts := notBoundContexts s;
     aliasMap := aliasMap s;
     pendingAttach := pendingAttach s;
     attachOpFiredForDataStore := attachOpFiredForDataStore s;
     dataStoresSinceLastGC := dataStoresSinceLastGC s;
     shouldSendAttachLog := shouldSendAttachLog s;
     pendingAliasMap := pendingAliasMap s;
     trace := trace s |}.

Definition set_notBoundContexts (f : gset string -> gset string) (s : State) : State :=
  {| contexts := contexts s;
     notBoundContexts := f (notBoundContexts s);
     aliasMap := aliasMap s;
     pendingAttach := pendingAttach s;
     attachOpFiredForDataStore := attachOpFiredForDataStore s;
     dataStoresSinceLastGC := dataStoresSinceLastGC s;
     shouldSendAttachLog := shouldSendAttachLog s;
     pendingAliasMap := pendingAliasMap s;
     trace := trace s |}.

Definition set_aliasMap (f : gmap string string -> gmap string string) (s : State) : State :=
  {| contexts := contexts s;
     notBoundContexts := notBoundContexts s;
     aliasMap := f (aliasMap s);
     pendingAttach := pendingAttach s;
     attachOpFiredForDataStore := attachOpFiredForDataStore s;
     dataStoresSinceLastGC := dataStoresSinceLastGC s;
     shouldSendAttachLog := shouldSendAttachLog s;
     pendingAliasMap := pendingAliasMap s;
     trace := trace s |}.

Definition set_pendingAttach
    (f : gmap string AttachMessage -> gmap string AttachMessage) (s : State) : State :=
  {| contexts := contexts s;
     notBoundContexts := notBoundContexts s;
     aliasMap := aliasMap s;
     pendingAttach := f (pendingAttach s);
     attachOpFiredForDataStore := attachOpFiredForDataStore s;
     dataStoresSinceLastGC := dataStoresSinceLastGC s;
     shouldSendAttachLog := shouldSendAttachLog s;
     pendingAliasMap := pendingAliasMap s;
     trace := trace s |}.

Definition set_attachOpFiredForDataStore (f : gset string -> gset string) (s : State) : State :=
  {| contexts := contexts s;
     notBoundContexts := notBoundContexts s;
     aliasMap := aliasMap s;
     pendingAttach := pendingAttach s;
     attachOpFiredForDataStore := f (attachOpFiredForDataStore s);
     dataStoresSinceLastGC := dataStoresSinceLastGC s;
     shouldSendAttachLog := shouldSendAttachLog s;
     pendingAliasMap := pendingAliasMap s;
     trace := trace s |}.

Definition set_dataStoresSinceLastGC (f : list string -> list string) (s : State) : State :=
  {| contexts := contexts s;
     notBoundContexts := notBoundContexts s;
     aliasMap := aliasMap s;
     pendingAttach := pendingAttach s;
     attachOpFiredForDataStore := attachOpFiredForDataStore s;
     dataStoresSinceLastGC := f (dataStoresSinceLastGC s);
     shouldSendAttachLog := shouldSendAttachLog s;
     pendingAliasMap := pendingAliasMap s;
     trace := trace s |}.

Definition set_shouldSendAttachLog (b : bool) (s : State) : State :=
  {| contexts := contexts s;
     notBoundContexts := notBoundContexts s;
     aliasMap := aliasMap s;
     pendingAttach := pendingAttach s;
     attachOpFiredForDataStore := attachOpFiredForDataStore s;
     dataStoresSinceLastGC := dataStoresSinceLastGC s;
     shouldSendAttachLog := b;
     pendingAliasMap := pendingAliasMap s;
     trace := trace s |}.

Definition set_trace (f : list Effect -> list Effect) (s : State) : State :=
  {| contexts := contexts s;
     notBoundContexts := notBoundContexts s;
     aliasMap := aliasMap s;
     pendingAttach := pendingAttach s;
     attachOpFiredForDataStore := attachOpFiredForDataStore s;
     dataStoresSinceLastGC := dataStoresSinceLastGC s;
     shouldSendAttachLog := shouldSendAttachLog s;
     pendingAliasMap := pendingAliasMap s;
     trace := f (trace s) |}.

Definition set_attachState (a : AttachState) (c : Context) : Context :=
  {| kind := kind c;
     attachState := a;
     packagePath := packagePath c;
     root := root c;
     isLoaded := isLoaded c;
     storage := storage c |}.

Definition set_root (b : bool) (c : Context) : Context :=
  {| kind := kind c;
     attachState := attachState c;
     packagePath := packagePath c;
     root := b;
     isLoaded := isLoaded c;
     storage := storage c |}.

(** ** The monad of methods *)

Inductive Outcome (A : Type) :=
| Returned (a : A)
| Thrown (e : Error).

Arguments Returned {A} a.
Arguments Thrown {A} e.

Definition M (A : Type) : Type := State -> Outcome A * State.

Definition ret {A} (a : A) : M A := fun s => (Returned a, s).

Definition bind {A B} (c : M A) (k : A -> M B) : M B :=
  fun s =>
    match c s with
    | (Returned a, s') => k a s'
    | (Thrown e, s') => (Thrown e, s')
    end.

Definition throw {A} (e : Error) : M A := fun s => (Thrown e, s).

Definition getState : M State := fun s => (Returned s, s).

Definition modify (f : State -> State) : M unit := fun s => (Returned tt, f s).

Definition emit (e : Effect) : M unit := modify (set_trace (fun t => t ++ [e])).

(** [assert(cond, code)] of core-utils. *)
Definition assert (cond : bool) (code : string) : M unit :=
  if cond then ret tt else throw (AssertionError code).

Notation "'let*' x ':=' c 'in' k" := (bind c (fun x => k))
  (at level 10, x name, c at level 100, k at level 200, only parsing).
Notation "c '>>' k" := (bind c (fun _ => k))
  (at level 100, k at level 200, right associativity, only parsing).

(** [for (const x of xs) body(x)] *)
Fixpoint forEach {A} (body : A -> M unit) (xs : list A) : M unit :=
  match xs with
  | [] => ret tt
  | x :: rest => body x >> forEach body rest
  end.

Definition is_defined {A} (o : option A) : bool :=
  match o with Some _ => true | None => false end.

(** ** The context table *)

Module DataStoreContexts.

(** Modelled from the spec: dataStoreContexts.ts is not among the sources.
    [get(id)] of the ContextTable looks the id up in the whole table. *)
Definition get (id : string) : M (option Context) :=
  fun s => (Returned (contexts s !! id), s).

(** Modelled from the spec: [get_unbound(id)], the context when the id is in
    the unbound partition. *)
Definition getUnbound (id : string) : M (option Context) :=
  fun s =>
    (Returned (if bool_decide (id ∈ notBoundContexts s) then contexts s !! id else None), s).

(** Modelled from the spec: [add_unbound]. An id appears in at most one
    partition, so adding an id the table already holds is refused. *)
Definition addUnbound (id : string) (c : Context) : M unit :=
  let* s := getState in
  assert (negb (is_defined (contexts s !! id))) "0x158" >>
  modify (set_contexts (insert id c)) >>
  modify (set_notBoundContexts (fun u => {[id]} ∪ u)).

(** Modelled from the spec: [add_bound_or_remoted], likewise. *)
Definition addBoundOrRemoted (id : string) (c : Context) : M unit :=
  let* s := getState in
  assert (negb (is_defined (contexts s !! id))) "0x15d" >>
  modify (set_contexts (insert id c)).

(** Modelled from the spec: [bind(id)] moves the id out of the unbound
    partition, where it has to be. *)
Definition bind (id : string) : M unit :=
  let* s := getState in
  assert (bool_decide (id ∈ notBoundContexts s)) "0x159" >>
  modify (set_notBoundContexts (fun u => u ∖ {[id]})).

(** Modelled from the spec: [delete(id)] removes the context from the table. *)
Definition delete (id : string) : M unit :=
  modify (set_notBoundContexts (fun u => u ∖ {[id]})) >>
  modify (set_contexts (base.delete id)).

(** Modelled from the spec: [size], the number of contexts of the table. *)
Definition size (s : State) : nat := base.size (contexts s).

End DataStoreContexts.

(** ** Methods of a context, on the context the table holds under [id] *)

Module FluidDataStoreContext.

(** Position of an attach state in Detached, Attaching, Attached. *)
Definition rank (a : AttachState) : nat :=
  match a with Detached => 0 | Attaching => 1 | Attached => 2 end.

(** Modelled from the spec: dataStoreContext.ts is not among the sources.
    [set_attach_state(new_state)] is monotone along Detached, Attaching,
    Attached, with no reverse: a call that would go back is refused. *)
Definition setAttachState (id : string) (a : AttachState) : M unit :=
  let* s := getState in
  match contexts s !! id with
  | None => ret tt
  | Some c =>
      assert (rank (attachState c) <=? rank a)%nat "setAttachState" >>
      modify (set_contexts (insert id (set_attachState a c)))
  end.

(** Modelled from the spec: [set_in_memory_root()]; [root] goes to true. *)
Definition setInMemoryRoot (id : string) : M unit :=
  modify (set_contexts (alter (set_root true) id)).

End FluidDataStoreContext.

(** ** ChannelCollection *)

(** [v?.key]: the value of an own property of an object; arrays, strings and
    the other values have none of the properties looked up below. *)
Definition getProperty (key : string) (v : Json) : option Json :=
  match v with
  | JObj fields => snd <$> List.find (fun kv => bool_decide (fst kv = key)) fields
  | _ => None
  end.

(** Modelled from the spec: [isDataStoreAliasMessage] of dataStore.ts is not
    among the sources. The alias message is [{type: "Alias", internalId,
    alias}] with both a string. *)
Definition isDataStoreAliasMessage (v : Json) : option (string * string) :=
  match getProperty "internalId" v, getProperty "alias" v with
  | Some (JStr internalId), Some (JStr alias) => Some (internalId, alias)
  | _, _ => None
  end.

Definition sendErrorEvent (e : Event) : M unit := emit (SendEvent e).
Definition sendTelemetryEvent (e : Event) : M unit := emit (SendEvent e).

Definition waitIfPendingAlias (maybeAlias : string) (s : State) : AliasPromise :=
  let pendingAliasPromise := pendingAliasMap s !! maybeAlias in
  default (Resolved Success) pendingAliasPromise.

Definition alreadyProcessed (id : string) : M bool :=
  let* s := getState in
  ret (is_defined (aliasMap s !! id) || is_defined (contexts s !! id)).

Definition checkAndLogIfDeleted (env : Env) (id : string) (context : option Context)
    (deletedLogSuffix callSite : string) : M bool :=
  let dataStoreNodePath := "/" +:+ id in
  if negb (isDataStoreDeleted env dataStoreNodePath) then ret false
  else
    sendErrorEvent {| eventName := "GC_Deleted_DataStore_" +:+ deletedLogSuffix;
                      category := "error";
                      subject := Some id;
                      callSite := Some callSite;
                      flags := [("exists", is_defined context)] |} >>
    ret true.

Definition processAliasMessageCore (env : Env) (internalId alias : string) : M bool :=
  let* processed := alreadyProcessed alias in
  if processed then ret false
  else
    let* context := DataStoreContexts.get internalId in
    let* deleted := checkAndLogIfDeleted env internalId context "Changed" "processAliasMessageCore" in
    if deleted then ret false
    else
      match context with
      | None =>
          sendErrorEvent {| eventName := "AliasFluidDataStoreNotFound";
                            category := "error";
                            subject := Some internalId;
                            callSite := None;
                            flags := [] |} >>
          ret false
      | Some _ =>
          emit (AddedGCOutboundReference ContainerRuntimeHandle (DataStoreHandle internalId)) >>
          modify (set_aliasMap (insert alias internalId)) >>
          FluidDataStoreContext.setInMemoryRoot internalId >>
          ret true
      end.

Definition processAliasMessage (env : Env) (contents : Json)
    (localOpMetadata : option PendingAliasResolve) (local : bool) : M unit :=
  match isDataStoreAliasMessage contents with
  | None => throw (DataCorruptionError "malformedDataStoreAliasMessage")
  | Some (internalId, alias) =>
      let* aliasResult := processAliasMessageCore env internalId alias in
      if local then
        match localOpMetadata with
        | Some resolve => emit (ResolveAlias resolve aliasResult)
        | None => throw (TypeError "resolve is not a function")
        end
      else ret tt
  end.

(** [packagePath[packagePath.length - 1]]; the declared type is [string], and a
    package path is never empty. *)
Definition generateAttachMessage (env : Env) (id : string) (localContext : Context)
    : AttachMessage :=
  {| am_id := id;
     am_snapshot := Some (getAttachData env id);
     am_type := List.last (packagePath localContext) "" |}.

Definition submitAttachChannelOp (env : Env) (id : string) (localContext : Context) : M unit :=
  let message := generateAttachMessage env id localContext in
  modify (set_pendingAttach (insert id message)) >>
  emit (SubmitMessage (Attach message)) >>
  modify (set_attachOpFiredForDataStore (fun f => {[id]} ∪ f)).

Definition makeDataStoreLocallyVisible (env : Env) (id : string) : M unit :=
  let* localContext := DataStoreContexts.getUnbound id in
  match localContext with
  | None => throw (AssertionError "0x15f")
  | Some c =>
      (if bool_decide (parentAttachState env ≠ Detached) then
         FluidDataStoreContext.setAttachState id Attaching >>
         submitAttachChannelOp env id c
       else ret tt) >>
      DataStoreContexts.bind id
  end.

(** Modelled from the spec: the context constructors are in
    dataStoreContext.ts, which is not among the sources. A remote store is
    created directly Bound+Attached; its [root] comes from its snapshot. *)
Definition newRemoteContext (env : Env) (pkg : list string) (snapshot : option ITree)
    (st : Storage) : Context :=
  {| kind := RemoteFluidDataStoreContext;
     attachState := Attached;
     packagePath := pkg;
     root := snapshotIsRoot env snapshot;
     isLoaded := false;
     storage := st |}.

(** Modelled from the spec: a local new store is created Unbound+Detached. *)
Definition newLocalContext (k : ContextKind) (pkg : list string) : Context :=
  {| kind := k;
     attachState := Detached;
     packagePath := pkg;
     root := false;
     isLoaded := false;
     storage := ParentStorage |}.

(** A local context built from the snapshot of a stashed attach op and then
    realized (the awaits of [realize] and of the entry point are not
    modelled); the constructor decides its attach state (see [Env]). *)
Definition newStashedContext (env : Env) (st : Storage) : Context :=
  {| kind := LocalFluidDataStoreContext;
     attachState := existingLocalAttachState env (parentAttachState env);
     packagePath := [];
     root := false;
     isLoaded := true;
     storage := st |}.

(** Modelled from the spec: storageServiceWithAttachBlobs.ts is not among the
    sources. The wrapper serves the blobs inlined in the attach snapshot and
    passes every other read to the storage it wraps. *)
Fixpoint readBlob (parent : string -> option string) (st : Storage) (id : string)
    : option string :=
  match st with
  | ParentStorage => parent id
  | StorageServiceWithAttachBlobs inner attachBlobs =>
      match attachBlobs !! id with
      | Some blob => Some blob
      | None => readBlob parent inner id
      end
  end.

Definition processAttachMessage (env : Env) (attachMessage : AttachMessage) (local : bool)
    : M unit :=
  let id := am_id attachMessage in
  modify (set_dataStoresSinceLastGC (fun l => l ++ [id])) >>
  let foundGCData := processAttachMessageGCData env (am_snapshot attachMessage) in
  forEach
    (fun edge : string * string =>
       let nodeId := fst edge in
       let fromPath := "/" +:+ id +:+ (if bool_decide (nodeId = "/") then "" else nodeId) in
       emit (AddedGCOutboundReference (AbsolutePath fromPath) (AbsolutePath (snd edge))))
    (default [] foundGCData) >>
  let* s := getState in
  (if shouldSendAttachLog s then
     modify (set_shouldSendAttachLog false) >>
     sendTelemetryEvent {| eventName := "dataStoreAttachMessage_sampled";
                           category := "generic";
                           subject := Some id;
                           callSite := None;
                           flags := [("local", local);
                                     ("snapshot", is_defined (am_snapshot attachMessage));
                                     ("foundGCData", is_defined foundGCData)] |}
   else ret tt) >>
  if local then
    let* s := getState in
    assert (is_defined (pendingAttach s !! id)) "0x15e" >>
    FluidDataStoreContext.setAttachState id Attached >>
    modify (set_pendingAttach (delete id))
  else
    let* known := alreadyProcessed id in
    if known then throw (DataCorruptionError "Duplicate DataStore created with existing id")
    else
      let flatAttachBlobs :=
        match am_snapshot attachMessage with
        | Some snapshot => buildSnapshotTree env (entries snapshot)
        | None => ∅
        end in
      let pkg := [am_type attachMessage] in
      let remoteFluidDataStoreContext :=
        newRemoteContext env pkg (am_snapshot attachMessage)
          (StorageServiceWithAttachBlobs ParentStorage flatAttachBlobs) in
      DataStoreContexts.addBoundOrRemoted id remoteFluidDataStoreContext.

(** Ids are integers; the arithmetic is that of JS numbers on safe integers. *)
Definition createDataStoreId (env : Env) : M string :=
  if bool_decide (parentAttachState env = Detached) then
    let* s := getState in
    ret (encodeCompactIdToString env (2 * Z.of_nat (DataStoreContexts.size s)))
  else
    match generateDocumentUniqueId env with
    | inl id => ret (encodeCompactIdToString env (2 * id + 1))
    | inr id => ret id
    end.

Definition createContext (id : string) (pkg : list string) (contextCtor : ContextKind)
    : M string :=
  DataStoreContexts.addUnbound id (newLocalContext contextCtor pkg) >>
  ret id.

Definition createDetachedDataStore (env : Env) (pkg : list string) : M string :=
  let* id := createDataStoreId env in
  createContext id pkg LocalDetachedFluidDataStoreContext.

Definition createDataStoreContext (env : Env) (pkg : list string) : M string :=
  let* id := createDataStoreId env in
  createContext id pkg LocalFluidDataStoreContext.

Definition rollback (env : Env) (message : ContainerMessage) : M unit :=
  match message with
  | FluidDataStoreOp envelope =>
      let* context := DataStoreContexts.get (address envelope) in
      let* deleted :=
        checkAndLogIfDeleted env (address envelope) context "Changed" "rollbackDataStoreOp" in
      if deleted then throw (DataCorruptionError "Context is deleted!")
      else
        assert (is_defined context) "0x2e8" >>
        emit (ContextRollback (address envelope) (inner_type envelope) (inner_content envelope))
  | _ => throw (AssertionError "0x8e8")
  end.

Definition applyStashedAttachOp (env : Env) (message : AttachMessage) : M unit :=
  let id := am_id message in
  match am_snapshot message with
  | None => throw (TypeError "snapshot is undefined")
  | Some snapshot =>
      let flatAttachBlobs := buildSnapshotTree env (entries snapshot) in
      let st := StorageServiceWithAttachBlobs ParentStorage flatAttachBlobs in
      let dataStoreContext := newStashedContext env st in
      DataStoreContexts.addBoundOrRemoted id dataStoreContext >>
      if bool_decide (parentAttachState env ≠ Detached) then
        modify (set_pendingAttach (insert id message))
      else ret tt
  end.

(** ** GC interface *)

(** [s.split(sep)] for a one-character separator. *)
Fixpoint split (sep : ascii) (s : string) : list string :=
  match s with
  | EmptyString => [""]
  | String c rest =>
      if bool_decide (c = sep) then "" :: split sep rest
      else
        match split sep rest with
        | first :: others => String c first :: others
        | [] => [String c ""]
        end
  end.

Definition deleteChild (dataStoreId : string) : M unit :=
  let* dataStoreContext := DataStoreContexts.get dataStoreId in
  assert (is_defined dataStoreContext) "0x2d7" >>
  emit (ContextDelete dataStoreId) >>
  DataStoreContexts.delete dataStoreId >>
  emit (DeleteChildSummarizerNode dataStoreId).

(** The body of the loop of [deleteSweepReadyNodes]. [pathParts[1]] is
    undefined for a route without a slash; no context is stored under
    undefined, and a template string prints it as "undefined". *)
Definition sweepRoute (env : Env) (route : string) : M unit :=
  let pathParts := split "/"%char route in
  let dataStoreId := pathParts !! 1%nat in
  if (2 <? length pathParts)%nat then ret tt
  else
    let* dataStoreContext :=
      match dataStoreId with
      | Some id => DataStoreContexts.get id
      | None => ret None
      end in
    match dataStoreId, dataStoreContext with
    | Some id, Some _ => deleteChild id
    | _, _ =>
        let alreadyDeleted :=
          isDataStoreDeleted env ("/" +:+ default "undefined" dataStoreId) in
        sendTelemetryEvent {| eventName := "DeletedDataStoreNotFound";
                              category := if alreadyDeleted then "generic" else "error";
                              subject := dataStoreId;
                              callSite := None;
                              flags := [("alreadyDeleted", alreadyDeleted)] |}
    end.

Definition deleteSweepReadyNodes (env : Env) (sweepReadyDataStoreRoutes : list string)
    : M (list string) :=
  forEach (sweepRoute env) sweepReadyDataStoreRoutes >>
  ret sweepReadyDataStoreRoutes.

Module GCDataBuilder.

(** Modelled from the spec: [GCDataBuilder] of runtime-utils is not among the
    sources. GC data is a graph: a node id with its set of outbound routes. *)
Definition addNode (id : string) (outboundRoutes : list string)
    (b : gmap string (gset string)) : gmap string (gset string) :=
  <[id := list_to_set outboundRoutes]> b.

(** Modelled from the spec: each node id of a child is prefixed with
    [/{contextId}], so that it becomes an absolute path from the root. *)
Definition prefixAndAddNodes (prefixId : string) (nodes : gmap string (list string))
    (b : gmap string (gset string)) : gmap string (gset string) :=
  foldl (fun acc node => addNode ("/" +:+ prefixId +:+ fst node) (snd node) acc)
        b (map_to_list nodes).

End GCDataBuilder.

Definition getOutboundRoutes : M (list string) :=
  let* s := getState in
  ret (omap (fun entry : string * Context =>
               if root (snd entry) then Some ("/" +:+ fst entry) else None)
            (map_to_list (contexts s))).

(** The filter callback of [getGCData], run over all the contexts before any
    child is asked for its GC data. *)
Definition attachedContexts (message : string) (cs : list (string * Context))
    : M (list (string * Context)) :=
  if existsb (fun entry => bool_decide (attachState (snd entry) = Attaching)) cs then
    throw (DataProcessingError message)
  else
    ret (List.filter (fun entry => bool_decide (attachState (snd entry) = Attached)) cs).

Definition getGCData (env : Env) (fullGC : bool) : M (gmap string (gset string)) :=
  let* s := getState in
  let* attached :=
    attachedContexts "Local data store detected in attaching state while running GC"
      (map_to_list (contexts s)) in
  let builder :=
    foldl (fun b entry =>
             GCDataBuilder.prefixAndAddNodes (fst entry) (contextGCNodes env (fst entry) fullGC) b)
          ∅ attached in
  let* outboundRoutes := getOutboundRoutes in
  ret (GCDataBuilder.addNode "/" outboundRoutes builder).

(** ** Outbound references in op contents *)

(** Modelled from the spec: [isSerializedHandle] of runtime-utils is not among
    the sources. The serialized-handle shape is
    [{type: "__fluid_handle__", url: string}]; the result is the [url]. *)
Definition isSerializedHandle (value : Json) : option string :=
  match getProperty "type" value, getProperty "url" value with
  | Some (JStr "__fluid_handle__"), Some (JStr url) => Some url
  | _, _ => None
  end.

(** The two variables [recursivelyFindHandles] closes over. *)
Record Found := {
  outboundPaths : list string;
  ddsAddress : option Json;
}.

(** The body of the loop over [Object.entries(obj)], before the recursive call. *)
Definition visitEntry (key : string) (value : Json) (f : Found) : Found :=
  let f1 :=
    match isSerializedHandle value with
    | Some url => {| outboundPaths := outboundPaths f ++ [url]; ddsAddress := ddsAddress f |}
    | None => f
    end in
  if bool_decide (key = "address") && negb (is_defined (ddsAddress f1)) then
    {| outboundPaths := outboundPaths f1; ddsAddress := Some value |}
  else f1.

(** [Object.entries] of an array pairs each element with its index, printed in
    decimal. *)
Fixpoint recursivelyFindHandles (obj : Json) (f : Found) : Found :=
  match obj with
  | JObj fields =>
      (fix loop (l : list (string * Json)) (f : Found) : Found :=
         match l with
         | [] => f
         | (key, value) :: rest => loop rest (recursivelyFindHandles value (visitEntry key value f))
         end) fields f
  | JArr items =>
      (fix loop (i : nat) (l : list Json) (f : Found) : Found :=
         match l with
         | [] => f
         | value :: rest =>
             loop (S i) rest (recursivelyFindHandles value (visitEntry (pretty i) value f))
         end) 0%nat items f
  | _ => f
  end.

(** [String(v)] for a JSON value, as [Array.prototype.join] applies it. *)
Fixpoint toString (v : Json) : string :=
  match v with
  | JNull => "null"
  | JBool b => if b then "true" else "false"
  | JNum n => pretty n
  | JStr s => s
  | JArr items =>
      (fix join (l : list Json) : string :=
         match l with
         | [] => ""
         | [x] => match x with JNull => "" | _ => toString x end
         | x :: rest => (match x with JNull => "" | _ => toString x end) +:+ "," +:+ join rest
         end) items
  | JObj _ => "[object Object]"
  end.

(** An element of [Array.prototype.join]: undefined and null print as "". *)
Definition joinElement (v : option Json) : string :=
  match v with
  | None | Some JNull => ""
  | Some x => toString x
  end.

(** The calls [detectOutboundReferences] makes on [addedOutboundReference], in
    order, as (fromNodePath, toNodePath) pairs. *)
Definition detectOutboundReferences (address : string) (contents : Json)
    : list (string * string) :=
  let found := recursivelyFindHandles contents {| outboundPaths := []; ddsAddress := None |} in
  let fromPath := "" +:+ "/" +:+ address +:+ "/" +:+ joinElement (ddsAddress found) in
  (fun toPath => (fromPath, toPath)) <$> outboundPaths found.

(** ** Processing of sequenced messages *)

Definition processChannelOp (env : Env) (address type : string) (contents : Json)
    (local : bool) : M unit :=
  let* context := DataStoreContexts.get address in
  let* deleted := checkAndLogIfDeleted env address context "Changed" "processFluidDataStoreOp" in
  if deleted then ret tt
  else
    match context with
    | None => throw (DataProcessingError "No context for op")
    | Some _ =>
        emit (ContextProcess address type contents local) >>
        emit (GcNodeUpdated ("/" +:+ address) "Changed")
    end.

(** [addedOutboundReference] tells whether the optional callback was passed; its
    calls are recorded in the trace. *)
Definition process (env : Env) (message : ContainerMessage) (local : bool)
    (localMessageMetadata : option PendingAliasResolve) (addedOutboundReference : bool)
    : M unit :=
  match message with
  | Attach attachMessage => processAttachMessage env attachMessage local
  | Alias contents => processAliasMessage env contents localMessageMetadata local
  | FluidDataStoreOp envelope =>
      processChannelOp env (address envelope) (inner_type envelope) (inner_content envelope)
        local >>
      if negb (bool_decide (detectOutboundRoutesViaDDSKey env = Some true))
         && addedOutboundReference then
        forEach (fun r => emit (AddedOutboundReference (fst r) (snd r)))
          (detectOutboundReferences (address envelope) (inner_content envelope))
      else ret tt
  | OtherMessage _ => throw (AssertionError "0x8e9")
  end.

(** ** Notions the properties are stated with *)

(** [Object.entries] of a value the traversal enters. *)
Fixpoint indexed (i : nat) (items : list Json) : list (string * Json) :=
  match items with
  | [] => []
  | value :: rest => (pretty i, value) :: indexed (S i) rest
  end.

Definition entriesOf (v : Json) : list (string * Json) :=
  match v with
  | JObj fields => fields
  | JArr items => indexed 0 items
  | _ => []
  end.

(** Every property of a payload, at any depth, in traversal order: a
    property comes before the properties of its value and before its later
    siblings. The values of this list are the sub-objects of the payload. *)
Fixpoint properties (v : Json) : list (string * Json) :=
  match v with
  | JObj fields =>
      (fix go (l : list (string * Json)) : list (string * Json) :=
         match l with
         | [] => []
         | (key, value) :: rest => (key, value) :: properties value ++ go rest
         end) fields
  | JArr items =>
      (fix go (i : nat) (l : list Json) : list (string * Json) :=
         match l with
         | [] => []
         | value :: rest => (pretty i, value) :: properties value ++ go (S i) rest
         end) 0%nat items
  | _ => []
  end.

(** The [url]s of the sub-objects of serialized-handle shape, in traversal order. *)
Definition handleUrls (contents : Json) : list string :=
  omap (fun p => isSerializedHandle (snd p)) (properties contents).

(** The value of the first property named "address" met by the traversal. *)
Definition firstAddress (contents : Json) : option Json :=
  snd <$> List.find (fun p => bool_decide (fst p = "address")) (properties contents).

(** The op envelope of scenario S4 of the specification. *)
Definition s4_content : Json :=
  JObj [("handle", JObj [("type", JStr "__fluid_handle__"); ("url", JStr "/2/dds1")]);
        ("address", JStr "dds0")].

Definition s4_envelope : Envelope :=
  {| address := "1"; inner_type := "op"; inner_content := s4_content |}.

(** ** Sample environments and states for the examples *)

Definition emptyTree : ITree := {| entries := []; groupId := None |}.

(** A parent whose GC has deleted the stores listed in [deleted] and whose
    container is in attach state [a]. *)
Definition sampleEnv (a : AttachState) (deleted : list string) : Env :=
  {| parentAttachState := a;
     isDataStoreDeleted := fun nodePath => bool_decide (nodePath ∈ deleted);
     encodeCompactIdToString := pretty;
     generateDocumentUniqueId := inl 0%Z;
     detectOutboundRoutesViaDDSKey := None;
     processAttachMessageGCData := fun _ => None;
     buildSnapshotTree := fun _ => ∅;
     existingLocalAttachState := fun parent => parent;
     snapshotIsRoot := fun _ => true;
     getAttachData := fun _ => emptyTree;
     contextGCNodes := fun _ _ => ∅ |}.

(** A collection right after construction without a base snapshot. *)
Definition emptyState : State :=
  {| contexts := ∅;
     notBoundContexts := ∅;
     aliasMap := ∅;
     pendingAttach := ∅;
     attachOpFiredForDataStore := ∅;
     dataStoresSinceLastGC := [];
     shouldSendAttachLog := true;
     pendingAliasMap := ∅;
     trace := [] |}.

(** Running the callback over the references found appends them to the trace. *)
Definition reported (refs : list (string * string)) (s : State) : State :=
  set_trace (fun t => t ++ ((fun r => AddedOutboundReference (fst r) (snd r)) <$> refs)) s.

(** The loop body of the traversal run over a list of properties. *)
Definition visitAll (f : Found) (ps : list (string * Json)) : Found :=
  foldl (fun f p => visitEntry (fst p) (snd p) f) f ps.

(** The state after one more call on a collaborator. *)
Definition logged (e : Effect) (s : State) : State :=
  set_trace (fun t => t ++ [e]) s.

(** A well-formed alias message. *)
Definition aliasMessage (internalId alias : string) : Json :=
  JObj [("type", JStr "Alias"); ("internalId", JStr internalId); ("alias", JStr alias)].

(** A collection holding one bound, attached store "1". *)
Definition oneStore : State :=
  set_contexts
    (insert "1" (newRemoteContext (sampleEnv Attached []) ["pkg"] None ParentStorage))
    emptyState.

(** The part of [processAttachMessage] after the GC data and the sampled log. *)
Definition attachCommit (env : Env) (attachMessage : AttachMessage) (local : bool) : M unit :=
  let id := am_id attachMessage in
  if local then
    let* s := getState in
    assert (is_defined (pendingAttach s !! id)) "0x15e" >>
    FluidDataStoreContext.setAttachState id Attached >>
    modify (set_pendingAttach (delete id))
  else
    let* known := alreadyProcessed id in
    if known then throw (DataCorruptionError "Duplicate DataStore created with existing id")
    else
      DataStoreContexts.addBoundOrRemoted id
        (newRemoteContext env [am_type attachMessage] (am_snapshot attachMessage)
           (StorageServiceWithAttachBlobs ParentStorage
              match am_snapshot attachMessage with
              | Some snapshot => buildSnapshotTree env (entries snapshot)
              | None => ∅
              end)).

(** Two states with the same tables: they differ at most in the bookkeeping
    for GC and telemetry and in the calls recorded. *)
Definition sameTables (s s' : State) : Prop :=
  contexts s' = contexts s
  /\ notBoundContexts s' = notBoundContexts s
  /\ aliasMap s' = aliasMap s
  /\ pendingAttach s' = pendingAttach s
  /\ attachOpFiredForDataStore s' = attachOpFiredForDataStore s
  /\ pendingAliasMap s' = pendingAliasMap s.

(** A collection of an attached container holding one store "1" that was
    created locally and not yet made visible. *)
Definition oneUnboundStore : State :=
  set_notBoundContexts (fun _ => {["1"]})
    (set_contexts (insert "1" (newLocalContext LocalFluidDataStoreContext ["pkg"])) emptyState).

(** Invariant 1 of the specification: the keys of the pending-attach map are
    the ids of the contexts in Attaching state while the container is not
    detached. *)
Definition pendingAttachInvariant (env : Env) (s : State) : Prop :=
  forall id,
    is_Some (pendingAttach s !! id) <->
    exists c, contexts s !! id = Some c
              /\ attachState c = Attaching
              /\ parentAttachState env <> Detached.

(** Whether a character occurs in a string. *)
Fixpoint contains (c : ascii) (s : string) : bool :=
  match s with
  | EmptyString => false
  | String c' rest => bool_decide (c' = c) || contains c rest
  end.

(** The event [deleteSweepReadyNodes] logs for a route without a context. *)
Definition deletedDataStoreNotFound (env : Env) (dataStoreId : option string) : Event :=
  let alreadyDeleted := isDataStoreDeleted env ("/" +:+ default "undefined" dataStoreId) in
  {| eventName := "DeletedDataStoreNotFound";
     category := if alreadyDeleted then "generic" else "error";
     subject := dataStoreId;
     callSite := None;
     flags := [("alreadyDeleted", alreadyDeleted)] |}.

(** The tables after the deletion of the store [id]. *)
Definition afterDeleteChild (id : string) (s : State) : State :=
  logged (DeleteChildSummarizerNode id)
    (set_contexts (delete id)
       (set_notBoundContexts (fun u => u ∖ {[id]}) (logged (ContextDelete id) s))).

(** A collection of an attached container whose store "1" was made visible and
    waits for its attach op to come back. *)
Definition oneAttachingStore : State :=
  snd (makeDataStoreLocallyVisible (sampleEnv Attached []) "1" oneUnboundStore).

(** A collection holding one bound, attached store "3". *)
Definition storeThree : State :=
  set_contexts
    (insert "3" (newRemoteContext (sampleEnv Attached []) ["pkg"] None ParentStorage))
    emptyState.

(** As [sampleEnv], with every store reporting one GC node "/dds" that
    references "/2". *)
Definition sampleEnvWithGC (a : AttachState) : Env :=
  {| parentAttachState := a;
     isDataStoreDeleted := fun _ => false;
     encodeCompactIdToString := pretty;
     generateDocumentUniqueId := inl 0%Z;
     detectOutboundRoutesViaDDSKey := None;
     processAttachMessageGCData := fun _ => None;
     buildSnapshotTree := fun _ => ∅;
     existingLocalAttachState := fun parent => parent;
     snapshotIsRoot := fun _ => true;
     getAttachData := fun _ => emptyTree;
     contextGCNodes := fun _ _ => {["/dds" := ["/2"]]} |}.

(** As [sampleEnv Attached []], with the runtime handing out a UUID. *)
Definition sampleEnvWithUuid (uuid : string) : Env :=
  {| parentAttachState := Attached;
     isDataStoreDeleted := fun _ => false;
     encodeCompactIdToString := pretty;
     generateDocumentUniqueId := inr uuid;
     detectOutboundRoutesViaDDSKey := None;
     processAttachMessageGCData := fun _ => None;
     buildSnapshotTree := fun _ => ∅;
     existingLocalAttachState := fun parent => parent;
     snapshotIsRoot := fun _ => true;
     getAttachData := fun _ => emptyTree;
     contextGCNodes := fun _ _ => ∅ |}.

(** A collection with a local alias op for "root" in flight. *)
Definition onePendingAlias : State :=
  {| contexts := contexts oneStore;
     notBoundContexts := ∅;
     aliasMap := ∅;
     pendingAttach := ∅;
     attachOpFiredForDataStore := ∅;
     dataStoresSinceLastGC := [];
     shouldSendAttachLog := true;
     pendingAliasMap := {["root" := Pending 0]};
     trace := [] |}.

(** ** Further methods of ChannelCollection *)

(** [submitMessage] of the context [wrapContextForInnerChannel(id, _)] hands
    to an inner channel: the message goes to the parent in an envelope
    addressed to [id]. *)
Definition wrapContextForInnerChannel_submitMessage (id type : string) (content : Json)
    : M unit :=
  let envelope := {| address := id; inner_type := type; inner_content := content |} in
  emit (SubmitMessage (FluidDataStoreOp envelope)).

(** [IEnvelope] of a signal: the contents are not a data store message. *)
Record SignalEnvelope := {
  signal_address : string;
  signal_contents : Json;
}.

(** The call on a context that a method ends with; the method's result below
    is the call it makes, or nothing when it makes none. *)
Inductive ContextCall :=
| ContextReSubmit (id type : string) (content : Json)
| ContextApplyStashedOp (id type : string) (content : Json)
| ContextProcessSignal (id : string) (content : Json) (local : bool).

Definition reSubmitChannelOp (env : Env) (envelope : Envelope) : M ContextCall :=
  let* context := DataStoreContexts.get (address envelope) in
  let* deleted :=
    checkAndLogIfDeleted env (address envelope) context "Changed" "resubmitDataStoreOp" in
  if deleted then throw (DataCorruptionError "Context is deleted!")
  else
    assert (is_defined context) "0x160" >>
    ret (ContextReSubmit (address envelope) (inner_type envelope) (inner_content envelope)).

Definition reSubmit (env : Env) (message : ContainerMessage) : M (option ContextCall) :=
  match message with
  | Attach _ | Alias _ => emit (SubmitMessage message) >> ret None
  | FluidDataStoreOp envelope =>
      let* call := reSubmitChannelOp env envelope in
      ret (Some call)
  | OtherMessage _ => throw (AssertionError "0x907")
  end.

Definition applyStashedChannelChannelOp (env : Env) (envelope : Envelope)
    : M (option ContextCall) :=
  let* context := DataStoreContexts.get (address envelope) in
  let* deleted := checkAndLogIfDeleted env (address envelope) context "Changed" "applyStashedOp" in
  if deleted then ret None
  else
    assert (is_defined context) "0x161" >>
    ret (Some (ContextApplyStashedOp (address envelope) (inner_type envelope)
                 (inner_content envelope))).

Definition applyStashedOp (env : Env) (opContents : ContainerMessage)
    : M (option ContextCall) :=
  match opContents with
  | Attach contents => applyStashedAttachOp env contents >> ret None
  | Alias _ => ret None
  | FluidDataStoreOp contents => applyStashedChannelChannelOp env contents
  | OtherMessage _ => throw (AssertionError "0x908")
  end.

Definition processSignal (env : Env) (envelope : SignalEnvelope) (local : bool)
    : M (option ContextCall) :=
  let fluidDataStoreId := signal_address envelope in
  let* context := DataStoreContexts.get fluidDataStoreId in
  let* deleted := checkAndLogIfDeleted env fluidDataStoreId context "Changed" "processSignal" in
  if deleted then ret None
  else
    match context with
    | None =>
        assert (negb local) "0x163" >>
        sendTelemetryEvent {| eventName := "SignalFluidDataStoreNotFound";
                              category := "generic";
                              subject := Some fluidDataStoreId;
                              callSite := None;
                              flags := [] |} >>
        ret None
    | Some _ => ret (Some (ContextProcessSignal fluidDataStoreId (signal_contents envelope) local))
    end.

(** The event [checkAndLogIfDeleted] logs. *)
Definition deletedDataStoreEvent (id callSite : string) (exists_ : bool) : Event :=
  {| eventName := "GC_Deleted_DataStore_Changed";
     category := "error";
     subject := Some id;
     callSite := Some callSite;
     flags := [("exists", exists_)] |}.

(** The body of the loop of [updateStateBeforeGC]. *)
Definition notifyIfRoot (id : string) : M unit :=
  let* context := DataStoreContexts.get id in
  assert (is_defined context) "0x2b6" >>
  match context with
  | Some c =>
      if root c then
        emit (AddedGCOutboundReference ContainerRuntimeHandle (DataStoreHandle id))
      else ret tt
  | None => ret tt
  end.

(** The awaits of [isRoot] are not modelled as suspension points. *)
Definition updateStateBeforeGC : M unit :=
  let* s := getState in
  forEach notifyIfRoot (dataStoresSinceLastGC s) >>
  modify (set_dataStoresSinceLastGC (fun _ => [])).

(** [for (const x of xs) acc = body(acc, x)], for a loop that fills a local. *)
Fixpoint forEachInto {A B} (body : B -> A -> M B) (acc : B) (xs : list A) : M B :=
  match xs with
  | [] => ret acc
  | x :: rest =>
      let* acc' := body acc x in
      forEachInto body acc' rest
  end.

(** The body of the first loop of [updateTombstonedRoutes]; [contexts.has] of
    an undefined id is false. *)
Definition collectTombstoned (tombstonedDataStoresSet : gset string) (route : string)
    : M (gset string) :=
  let pathParts := split "/"%char route in
  if (2 <? length pathParts)%nat then ret tombstonedDataStoresSet
  else
    let* s := getState in
    match pathParts !! 1%nat with
    | Some dataStoreId =>
        assert (is_defined (contexts s !! dataStoreId)) "0x510" >>
        ret ({[dataStoreId]} ∪ tombstonedDataStoresSet)
    | None => throw (AssertionError "0x510")
    end.

(** The result is the argument each context receives in its [setTombstone]
    call, by context id. *)
Definition updateTombstonedRoutes (tombstonedRoutes : list string) : M (gmap string bool) :=
  let* tombstonedDataStoresSet := forEachInto collectTombstoned ∅ tombstonedRoutes in
  let* s := getState in
  ret (map_imap (fun contextId _ => Some (bool_decide (contextId ∈ tombstonedDataStoresSet)))
         (contexts s)).

(** [GCNodeType] of the gc package, as far as the collection returns it. *)
Inductive GCNodeType := DataStore | SubDataStore.

Definition getGCNodeType (nodePath : string) (s : State) : option GCNodeType :=
  let pathParts := split "/"%char nodePath in
  match pathParts !! 1%nat with
  | Some id =>
      if negb (is_defined (contexts s !! id)) then None
      else if (length pathParts =? 2)%nat then Some DataStore
      else Some SubDataStore
  | None => None
  end.

Definition internalId (maybeAlias : string) (s : State) : string :=
  default maybeAlias (aliasMap s !! maybeAlias).

(** A route that names a data store directly: at most two path parts, the
    second being the id. *)
Definition namesDataStore (route id : string) : Prop :=
  (length (split "/"%char route) <= 2)%nat /\ split "/"%char route !! 1%nat = Some id.

(** Every alias leads to a store that has a context, and no alias is itself
    the id of a context. *)
Definition aliasesResolve (s : State) : Prop :=
  forall alias id, aliasMap s !! alias = Some id ->
    is_Some (contexts s !! id) /\ contexts s !! alias = None.

(** Modelled from the spec: [SummaryTreeBuilder] of runtime-utils is not among
    the sources. The summaries of the children are composed into a tree keyed
    by internal id. [contextSummarize] is what [context.summarize] resolves
    to, by context id. *)
Definition summarize {Summary : Type} (contextSummarize : string -> bool -> bool -> Summary)
    (fullTree trackState : bool) : M (gmap string Summary) :=
  let* s := getState in
  let* attached :=
    attachedContexts "Local data store detected in attaching state during summarize"
      (map_to_list (contexts s)) in
  ret (foldl (fun builder entry =>
                <[fst entry := contextSummarize (fst entry) fullTree trackState]> builder)
             ∅ attached).

(** [setAttachState] of the collection. [order] is the order in which the
    loop visits the ids of the context table (the insertion order of the Map,
    which the state does not record). *)
Definition setAttachState (order : list string) (attachState : AttachState) : M unit :=
  forEach
    (fun id =>
       let* s := getState in
       if negb (bool_decide (id ∈ notBoundContexts s)) then
         FluidDataStoreContext.setAttachState id attachState
       else ret tt)
    order.

(** ** Construction from a base snapshot *)

(** [ISnapshotTree] of protocol-definitions. *)
#[warnings="-register-all"]
Inductive ISnapshotTree :=
| SnapshotTree (blobs : gmap string string) (trees : gmap string ISnapshotTree)
    (unreferenced : bool) (groupId : option string).

Definition snapshotTrees (t : ISnapshotTree) : gmap string ISnapshotTree :=
  match t with SnapshotTree _ trees _ _ => trees end.

Definition snapshotUnreferenced (t : ISnapshotTree) : bool :=
  match t with SnapshotTree _ _ unreferenced _ => unreferenced end.

(** [containerLoadStats] *)
Record ContainerLoadStats := {
  containerLoadDataStoreCount : nat;
  referencedDataStoreCount : nat;
}.

(** The context the constructor creates for a store of the base snapshot: a
    remote context when the container is not detached, a local context built
    from the snapshot otherwise. The constructor of the collection sets no
    attach state itself; the constructors of the context classes do, in
    dataStoreContext.ts, which is not among the sources:
    [remoteAttachState] is the attach state the [RemoteFluidDataStoreContext]
    constructor gives its context, from the attach state of the parent (for
    the local context see [existingLocalAttachState] of [Env]). [isRoot] is
    what the attributes of the snapshot say. *)
Definition snapshotContext (env : Env) (remoteAttachState : AttachState -> AttachState)
    (isRoot : ISnapshotTree -> bool) (value : ISnapshotTree) : Context :=
  if bool_decide (parentAttachState env ≠ Detached) then
    {| kind := RemoteFluidDataStoreContext;
       attachState := remoteAttachState (parentAttachState env);
       packagePath := [];
       root := isRoot value;
       isLoaded := false;
       storage := ParentStorage |}
  else
    {| kind := LocalFluidDataStoreContext;
       attachState := existingLocalAttachState env (parentAttachState env);
       packagePath := [];
       root := isRoot value;
       isLoaded := false;
       storage := ParentStorage |}.

(** The state the field initializers of the class give, with the alias map
    passed to the constructor. *)
Definition initialState (aliases : gmap string string) : State :=
  {| contexts := ∅;
     notBoundContexts := ∅;
     aliasMap := aliases;
     pendingAttach := ∅;
     attachOpFiredForDataStore := ∅;
     dataStoresSinceLastGC := [];
     shouldSendAttachLog := true;
     pendingAliasMap := ∅;
     trace := [] |}.

(** The constructor of [ChannelCollection], run on the initial state. The
    values of the snapshot are trees, so the check of [typeof value] cannot
    fail. *)
Definition construct (env : Env) (remoteAttachState : AttachState -> AttachState)
    (isRoot : ISnapshotTree -> bool) (baseSnapshot : option ISnapshotTree)
    : M ContainerLoadStats :=
  let fluidDataStores :=
    match baseSnapshot with
    | Some snapshot => map_to_list (snapshotTrees snapshot)
    | None => []
    end in
  forEach (fun entry : string * ISnapshotTree =>
             DataStoreContexts.addBoundOrRemoted (fst entry)
               (snapshotContext env remoteAttachState isRoot (snd entry)))
          fluidDataStores >>
  let unreferencedDataStoreCount :=
    length (List.filter (fun entry => snapshotUnreferenced (snd entry)) fluidDataStores) in
  ret {| containerLoadDataStoreCount := length fluidDataStores;
         referencedDataStoreCount := length fluidDataStores - unreferencedDataStoreCount |}.

(** [getSummaryForDatastores]; [channelsTreeName] and [nonDataStorePaths] are
    the constants of runtime-definitions and of the summary package, and
    [isolated] is [rootHasIsolatedChannels(metadata)]. *)
Definition getSummaryForDatastores (channelsTreeName : string)
    (nonDataStorePaths : list string) (snapshot : option ISnapshotTree) (isolated : bool)
    : Outcome (option ISnapshotTree) :=
  match snapshot with
  | None => Returned None
  | Some (SnapshotTree blobs trees unreferenced groupId) =>
      if isolated then
        match trees !! channelsTreeName with
        | Some datastoresSnapshot => Returned (Some datastoresSnapshot)
        | None => Thrown (AssertionError "0x168")
        end
      else
        let datastoresTrees :=
          filter (fun entry : string * ISnapshotTree => fst entry ∉ nonDataStorePaths) trees in
        Returned (Some (SnapshotTree blobs datastoresTrees unreferenced groupId))
  end.

(** Every id of the table is the compact encoding of an even number below
    twice the number of contexts: the ids a detached container hands out. *)
Definition detachedIds (env : Env) (s : State) : Prop :=
  forall id, is_Some (contexts s !! id) ->
    exists i : nat, (i < size (contexts s))%nat
                    /\ id = encodeCompactIdToString env (2 * Z.of_nat i).

(** * Loadable object classes of a container schema

    [isDataObjectClass], [isSharedObjectKind] and
    [parseDataObjectsFromSharedObjects]. Objects are compared by reference in
    the JS [Set]s; a reference is a number here. *)

(** What the property [IFluidDataStoreFactory] of a factory holds: nothing,
    the factory itself, or some other object. *)
Inductive FactoryProvider := ProvidesNothing | ProvidesItself | ProvidesOther.

Record DataStoreFactory := {
  IFluidDataStoreFactory : FactoryProvider;
  factoryType : string;
}.

(** A [LoadableObjectClass], seen as untyped JS: its reference, its [factory]
    member if any, and the channel factory (a reference) its [getFactory]
    member returns, if it has that member. *)
Record LoadableObjectClass := {
  objectRef : nat;
  factory : option DataStoreFactory;
  getFactory : option nat;
}.

Inductive SchemaError :=
| UsageError (message : string)
| PlainError (message : string)
| SchemaTypeError (message : string).

Inductive Checked (A : Type) :=
| Ok (a : A)
| Failed (e : SchemaError).

Arguments Ok {A} a.
Arguments Failed {A} e.

Definition isDataObjectClass (obj : LoadableObjectClass) : Checked bool :=
  let isDataObject :=
    match factory obj with
    | Some f =>
        match IFluidDataStoreFactory f with
        | ProvidesItself => true
        | ProvidesNothing | ProvidesOther => false
        end
    | None => false
    end in
  if Bool.eqb isDataObject (is_defined (getFactory obj)) then
    Failed (UsageError "Invalid LoadableObjectClass")
  else Ok isDataObject.

Definition isSharedObjectKind (obj : LoadableObjectClass) : Checked bool :=
  match isDataObjectClass obj with
  | Ok b => Ok (negb b)
  | Failed e => Failed e
  end.

(** The two sets [parseDataObjectsFromSharedObjects] fills: the registry
    entries (fresh arrays, never equal to one another) with the type of their
    factory, and the channel factories, without repetition. *)
Record Parsed := {
  registryEntries : list string;
  sharedObjects : list nat;
}.

(** [set.add(x)] on a Set kept in insertion order. *)
Definition setAdd (x : nat) (set : list nat) : list nat :=
  if bool_decide (x ∈ set) then set else set ++ [x].

Definition tryAddObject (obj : LoadableObjectClass) (acc : Parsed) : Checked Parsed :=
  match isSharedObjectKind obj with
  | Failed e => Failed e
  | Ok true =>
      match getFactory obj with
      | Some channelFactory =>
          Ok {| registryEntries := registryEntries acc;
                sharedObjects := setAdd channelFactory (sharedObjects acc) |}
      | None => Failed (SchemaTypeError "obj.getFactory is not a function")
      end
  | Ok false =>
      match isDataObjectClass obj with
      | Failed e => Failed e
      | Ok true =>
          match factory obj with
          | Some f =>
              Ok {| registryEntries := registryEntries acc ++ [factoryType f];
                    sharedObjects := sharedObjects acc |}
          | None => Failed (SchemaTypeError "Cannot read properties of undefined")
          end
      | Ok false => Failed (PlainError "Entry is neither a DataObject or a SharedObject")
      end
  end.

(** [new Set(objects)]: the objects without repetition of a reference, in the
    order of their first occurrence. *)
Fixpoint dedupe (seen : list nat) (objects : list LoadableObjectClass)
    : list LoadableObjectClass :=
  match objects with
  | [] => []
  | obj :: rest =>
      if bool_decide (objectRef obj ∈ seen) then dedupe seen rest
      else obj :: dedupe (objectRef obj :: seen) rest
  end.

Fixpoint tryAddAll (objects : list LoadableObjectClass) (acc : Parsed) : Checked Parsed :=
  match objects with
  | [] => Ok acc
  | obj :: rest =>
      match tryAddObject obj acc with
      | Ok acc' => tryAddAll rest acc'
      | Failed e => Failed e
      end
  end.

(** [initialObjects] are the values of [schema.initialObjects],
    [dynamicObjectTypes] is [schema.dynamicObjectTypes ?? []]. *)
Definition parseDataObjectsFromSharedObjects
    (initialObjects dynamicObjectTypes : list LoadableObjectClass) : Checked Parsed :=
  let dedupedObjects := dedupe [] (initialObjects ++ dynamicObjectTypes) in
  match tryAddAll dedupedObjects {| registryEntries := []; sharedObjects := [] |} with
  | Failed e => Failed e
  | Ok parsed =>
      if (length (registryEntries parsed) =? 0)%nat && (length (sharedObjects parsed) =? 0)%nat
      then Failed (PlainError "Container cannot be initialized without any DataTypes")
      else Ok parsed
  end.

(** The two kinds of well-formed classes. *)
Definition isDataObject (obj : LoadableObjectClass) : Prop :=
  (exists f, factory obj = Some f /\ IFluidDataStoreFactory f = ProvidesItself)
  /\ getFactory obj = None.

Definition isSharedObject (obj : LoadableObjectClass) : Prop :=
  (forall f, factory obj = Some f -> IFluidDataStoreFactory f <> ProvidesItself)
  /\ is_Some (getFactory obj).

Definition wellFormed (obj : LoadableObjectClass) : Prop :=
  isDataObject obj \/ isSharedObject obj.

(** The types of the factories of the data object classes of a list, and the
    channel factories of its shared object kinds, in the order of the list. *)
Definition dataObjectTypes (objects : list LoadableObjectClass) : list string :=
  omap (fun obj => match isDataObjectClass obj with
                   | Ok true => factoryType <$> factory obj
                   | _ => None
                   end) objects.

Definition channelFactories (objects : list LoadableObjectClass) : list nat :=
  omap (fun obj => match isDataObjectClass obj with
                   | Ok false => getFactory obj
                   | _ => None
                   end) objects.

(** References identify objects. *)
Definition sameReferenceSameObject (objects : list LoadableObjectClass) : Prop :=
  forall o1 o2, o1 ∈ objects -> o2 ∈ objects -> objectRef o1 = objectRef o2 -> o1 = o2.

Definition sampleDataObject : LoadableObjectClass :=
  {| objectRef := 1;
     factory := Some {| IFluidDataStoreFactory := ProvidesItself; factoryType := "todo-list" |};
     getFactory := None |}.

Definition sampleSharedObject : LoadableObjectClass :=
  {| objectRef := 2; factory := None; getFactory := Some 7%nat |}.

Definition sampleInvalidObject : LoadableObjectClass :=
  {| objectRef := 3; factory := None; getFactory := None |}.

(** * Properties *)

Section Json_induction.
Variable P : Json -> Prop.
Hypothesis Hnull : P JNull.
Hypothesis Hbool : forall b, P (JBool b).
Hypothesis Hnum : forall n, P (JNum n).
Hypothesis Hstr : forall s, P (JStr s).
Hypothesis Harr : forall items, Forall P items -> P (JArr items).
Hypothesis Hobj : forall fields, Forall (fun p => P (snd p)) fields -> P (JObj fields).

Lemma Json_nested_ind : forall v, P v.
Proof.
  fix IH 1. intros [| b | n | s | items | fields].
  - exact Hnull.
  - apply Hbool.
  - apply Hnum.
  - apply Hstr.
  - apply Harr. induction items as [| x items IHitems]; constructor.
    + apply IH.
    + exact IHitems.
  - apply Hobj. induction fields as [| [k x] fields IHfields]; constructor.
    + apply IH.
    + exact IHfields.
Qed.
End Json_induction.


Lemma properties_entries v :
  properties v = flat_map (fun p => p :: properties (snd p)) (entriesOf v).
Proof.
  destruct v as [| | | | items | fields]; try reflexivity.
  - simpl. generalize 0%nat. induction items as [| x items IH]; intros i; simpl; [done |].
    by rewrite IH.
  - simpl. induction fields as [| [k x] fields IH]; simpl; [done |]. by rewrite IH.
Qed.

Lemma recursivelyFindHandles_entries v f :
  recursivelyFindHandles v f =
  foldl (fun f p => recursivelyFindHandles (snd p) (visitEntry (fst p) (snd p) f)) f (entriesOf v).
Proof.
  destruct v as [| | | | items | fields]; try reflexivity.
  - simpl. generalize 0%nat. revert f. induction items as [| x items IH]; intros f i; simpl; [done |].
    by rewrite IH.
  - simpl. revert f. induction fields as [| [k x] fields IH]; intros f; simpl; [done |]. by rewrite IH.
Qed.

Lemma entriesOf_Forall (P : Json -> Prop) v :
  match v with
  | JArr items => Forall P items
  | JObj fields => Forall (fun p => P (snd p)) fields
  | _ => True
  end -> Forall (fun p => P (snd p)) (entriesOf v).
Proof.
  destruct v as [| | | | items | fields]; simpl; try (intros; constructor); [| done].
  generalize 0%nat. induction items as [| x items IH]; intros i; simpl; inversion 1; subst; constructor; auto.
Qed.

Lemma recursivelyFindHandles_visitAll v :
  forall f, recursivelyFindHandles v f = visitAll f (properties v).
Proof.
  induction v as [| | | | items IH | fields IH] using Json_nested_ind; try reflexivity; intros f.
  - rewrite recursivelyFindHandles_entries, properties_entries.
    pose proof (entriesOf_Forall
                  (fun v => forall f, recursivelyFindHandles v f = visitAll f (properties v))
                  (JArr items) IH) as H. revert f.
    induction H as [| p ps Hp Hps IHps]; intros f; simpl; [done |].
    rewrite Hp, IHps. unfold visitAll. by rewrite foldl_app.
  - rewrite recursivelyFindHandles_entries, properties_entries.
    pose proof (entriesOf_Forall
                  (fun v => forall f, recursivelyFindHandles v f = visitAll f (properties v))
                  (JObj fields) IH) as H. revert f.
    induction H as [| p ps Hp Hps IHps]; intros f; simpl; [done |].
    rewrite Hp, IHps. unfold visitAll. by rewrite foldl_app.
Qed.

Example s4_check : detectOutboundReferences "1" s4_content = [("/1/dds0", "/2/dds1")].
Proof. reflexivity. Qed.

Lemma visitAll_outboundPaths ps : forall f,
  outboundPaths (visitAll f ps) =
  outboundPaths f ++ omap (fun p => isSerializedHandle (snd p)) ps.
Proof.
  induction ps as [| [k x] ps IH]; intros f; simpl.
  - by rewrite app_nil_r.
  - unfold visitAll in *. simpl. rewrite IH. unfold visitEntry.
    destruct (isSerializedHandle x) as [url |]; simpl;
      destruct (bool_decide (k = "address") && _); simpl; try done;
      by rewrite <- app_assoc.
Qed.

Lemma visitAll_ddsAddress ps : forall f,
  ddsAddress (visitAll f ps) =
  match ddsAddress f with
  | Some a => Some a
  | None => snd <$> List.find (fun p => bool_decide (fst p = "address")) ps
  end.
Proof.
  induction ps as [| [k x] ps IH]; intros f; simpl.
  - by destruct (ddsAddress f).
  - unfold visitAll in *. simpl. rewrite IH. unfold visitEntry.
    destruct (ddsAddress f) as [a |] eqn:E;
      destruct (isSerializedHandle x) as [url |]; simpl; rewrite ?E; simpl;
      destruct (bool_decide (k = "address")); simpl; rewrite ?E; done.
Qed.

Lemma detectOutboundReferences_eq address contents :
  detectOutboundReferences address contents =
  (fun toPath => ("/" +:+ address +:+ "/" +:+ joinElement (firstAddress contents), toPath))
    <$> handleUrls contents.
Proof.
  unfold detectOutboundReferences. rewrite recursivelyFindHandles_visitAll.
  rewrite visitAll_outboundPaths, visitAll_ddsAddress. reflexivity.
Qed.


Lemma set_trace_id s : set_trace (fun t => t ++ []) s = s.
Proof. destruct s; unfold set_trace; simpl. by rewrite app_nil_r. Qed.

Lemma forEach_emit_reported refs : forall s,
  forEach (fun r => emit (AddedOutboundReference (fst r) (snd r))) refs s =
  (Returned tt, reported refs s).
Proof.
  induction refs as [| r refs IH]; intros s; simpl.
  - unfold ret, reported. simpl. by rewrite set_trace_id.
  - unfold bind, emit, modify. rewrite IH. unfold reported, set_trace; simpl.
    by rewrite <- app_assoc.
Qed.

(** Unfolds the monad operations and computes. *)
Ltac monad :=
  unfold bind, ret, throw, emit, modify, getState, assert,
    sendErrorEvent, sendTelemetryEvent in *;
  simpl in *.

Lemma processChannelOp_eq env a ty c local s :
  processChannelOp env a ty c local s =
  if isDataStoreDeleted env ("/" +:+ a) then
    (Returned tt,
     set_trace (fun t => t ++ [SendEvent {| eventName := "GC_Deleted_DataStore_Changed";
                                            category := "error";
                                            subject := Some a;
                                            callSite := Some "processFluidDataStoreOp";
                                            flags := [("exists", is_defined (contexts s !! a))] |}]) s)
  else
    match contexts s !! a with
    | None => (Thrown (DataProcessingError "No context for op"), s)
    | Some _ =>
        (Returned tt,
         set_trace (fun t => t ++ [ContextProcess a ty c local; GcNodeUpdated ("/" +:+ a) "Changed"]) s)
    end.
Proof.
  unfold processChannelOp, checkAndLogIfDeleted, DataStoreContexts.get. monad.
  destruct (isDataStoreDeleted env ("/" +:+ a)); monad; [reflexivity |].
  destruct (contexts s !! a); monad; [| reflexivity].
  unfold set_trace. simpl. by rewrite <- app_assoc.
Qed.

(** C5 (as amended). The references [detectOutboundReferences] reports are a
    function of the address and the op contents alone: their targets are the
    [url]s of every property value of serialized-handle shape, at any depth
    of the payload and in traversal order, and each is reported from
    "/" + address + "/" + d, where d is the value of the first property named
    "address" that the traversal meets, printed as [join] prints it (a string
    as itself). With [detectOutboundRoutesViaDDSKey]
    not true and the callback passed, [process] reports exactly these
    references, after the effects of [processChannelOp], for every
    FluidDataStoreOp that [processChannelOp] returns from; when
    [processChannelOp] throws, [process] throws the same error and reports
    nothing. *)
Theorem detectOutboundReferences_process env s envelope local meta :
  let a := address envelope in
  let c := inner_content envelope in
  let refs := detectOutboundReferences a c in
  snd <$> refs = handleUrls c
  /\ (forall r, r ∈ refs ->
        fst r = "/" +:+ a +:+ "/" +:+ joinElement (firstAddress c))
  /\ (forall d, firstAddress c = Some (JStr d) ->
        forall r, r ∈ refs -> fst r = "/" +:+ a +:+ "/" +:+ d)
  /\ (detectOutboundRoutesViaDDSKey env <> Some true ->
        forall s', processChannelOp env a (inner_type envelope) c local s = (Returned tt, s') ->
        process env (FluidDataStoreOp envelope) local meta true s = (Returned tt, reported refs s'))
  /\ (forall e s', processChannelOp env a (inner_type envelope) c local s = (Thrown e, s') ->
        process env (FluidDataStoreOp envelope) local meta true s = (Thrown e, s')).
Proof.
  intros a c refs. subst refs.
  rewrite detectOutboundReferences_eq.
  split; [| split; [| split; [| split]]].
  - rewrite <- list_fmap_compose. simpl. apply list_fmap_id.
  - intros r Hr. apply list_elem_of_fmap in Hr as (t & -> & _). reflexivity.
  - intros d Hd r Hr. apply list_elem_of_fmap in Hr as (t & -> & _).
    simpl. by rewrite Hd.
  - intros Hflag s' Hop. unfold process, bind. fold a c. rewrite Hop.
    rewrite bool_decide_eq_false_2 by exact Hflag. simpl.
    rewrite forEach_emit_reported. by rewrite detectOutboundReferences_eq.
  - intros e s' Hop. unfold process, bind. fold a c. by rewrite Hop.
Qed.

Lemma detectOutboundReferences_process_witness :
  let s1 := set_contexts (insert "1" (newLocalContext LocalFluidDataStoreContext ["pkg"])) emptyState in
  firstAddress s4_content = Some (JStr "dds0")
  /\ detectOutboundRoutesViaDDSKey (sampleEnv Attached []) <> Some true
  /\ (forall r, r ∈ detectOutboundReferences "1" s4_content -> fst r = "/1/dds0")
  /\ trace (snd (process (sampleEnv Attached []) (FluidDataStoreOp s4_envelope) false None true s1)) =
     [ContextProcess "1" "op" s4_content false; GcNodeUpdated "/1" "Changed";
      AddedOutboundReference "/1/dds0" "/2/dds1"]
  /\ process (sampleEnv Attached []) (FluidDataStoreOp s4_envelope) false None true emptyState
     = (Thrown (DataProcessingError "No context for op"), emptyState).
Proof.
  intros s1.
  destruct (detectOutboundReferences_process (sampleEnv Attached []) s1 s4_envelope false None)
    as (_ & _ & Hfrom & Hproc & _).
  destruct (detectOutboundReferences_process (sampleEnv Attached []) emptyState s4_envelope
              false None) as (_ & _ & _ & _ & Hthrow).
  split; [reflexivity |]. split; [discriminate |]. split; [| split].
  - intros r Hr. apply (Hfrom "dds0"); [reflexivity | exact Hr].
  - rewrite (Hproc ltac:(discriminate) _ eq_refl). reflexivity.
  - apply Hthrow. reflexivity.
Defined.

(** C5, the claim as stated fails: with the flag unset and the callback
    passed, an op whose contents hold a handle but whose address has no
    context makes [process] throw before any detection. *)
Lemma process_missing_context_detects_nothing :
  detectOutboundRoutesViaDDSKey (sampleEnv Attached []) <> Some true
  /\ detectOutboundReferences "1" s4_content = [("/1/dds0", "/2/dds1")]
  /\ process (sampleEnv Attached []) (FluidDataStoreOp s4_envelope) false None true emptyState
     = (Thrown (DataProcessingError "No context for op"), emptyState).
Proof. split; [discriminate |]. split; reflexivity. Qed.

(** C10. When the payload has no property named "address" anywhere, the
    references reported are exactly the serialized handles of the payload:
    one reference per sub-object of serialized-handle shape, in traversal
    order, with the handle's url as its target, and each of them reported
    from "/" + dataStoreId + "/", the undefined DDS address being joined as
    the empty string. So a url is reported exactly when some property value of
    the payload is a serialized handle with that url, and when the payload
    holds at least one serialized handle, at least one reference is
    reported. *)
Theorem detectOutboundReferences_without_address dataStoreId contents :
  (forall p, p ∈ properties contents -> fst p <> "address") ->
  detectOutboundReferences dataStoreId contents
  = (fun toPath => ("/" +:+ dataStoreId +:+ "/", toPath)) <$> handleUrls contents
  /\ length (detectOutboundReferences dataStoreId contents) = length (handleUrls contents)
  /\ (forall fromPath toPath,
        (fromPath, toPath) ∈ detectOutboundReferences dataStoreId contents
        <-> fromPath = "/" +:+ dataStoreId +:+ "/"
            /\ exists p, p ∈ properties contents /\ isSerializedHandle (snd p) = Some toPath)
  /\ (handleUrls contents <> [] -> detectOutboundReferences dataStoreId contents <> [])
  /\ forall r, r ∈ detectOutboundReferences dataStoreId contents ->
       fst r = "/" +:+ dataStoreId +:+ "/".
Proof.
  intros Hnone.
  assert (firstAddress contents = None) as Hfirst.
  { unfold firstAddress.
    destruct (List.find _ (properties contents)) as [p |] eqn:Hfind; [| reflexivity].
    apply find_some in Hfind as [Hin Hp]. apply bool_decide_eq_true in Hp.
    exfalso. apply (Hnone p); [by apply list_elem_of_In | exact Hp]. }
  rewrite detectOutboundReferences_eq, Hfirst. simpl.
  split; [reflexivity |]. split; [by rewrite length_fmap |]. split; [| split].
  - intros fromPath toPath. rewrite list_elem_of_fmap. unfold handleUrls. split.
    + intros (url & Heq & Hurl). inversion Heq; subst fromPath toPath.
      split; [reflexivity |]. by apply list_elem_of_omap in Hurl.
    + intros [-> Hp]. exists toPath. split; [reflexivity |]. by apply list_elem_of_omap.
  - intros Hhandles. destruct (handleUrls contents); [done | discriminate].
  - intros r Hr. apply list_elem_of_fmap in Hr as (t & -> & _). reflexivity.
Qed.

Lemma detectOutboundReferences_without_address_witness :
  let contents :=
    JObj [("handle", JObj [("type", JStr "__fluid_handle__"); ("url", JStr "/2/dds1")]);
          ("items", JArr [JObj [("type", JStr "__fluid_handle__"); ("url", JStr "/3")]])] in
  detectOutboundReferences "1" contents = [("/1/", "/2/dds1"); ("/1/", "/3")].
Proof.
  intros contents.
  destruct (detectOutboundReferences_without_address "1" contents) as [Heq _].
  - intros p Hp. vm_compute in Hp.
    repeat (apply elem_of_cons in Hp as [-> | Hp]; [discriminate |]).
    by apply elem_of_nil in Hp.
  - rewrite Heq. reflexivity.
Defined.

(** C1 (as amended). The commit of an inbound Alias op with payload
    (internalId, alias). If the alias is a key of the alias map or the id of a
    context, the result is false and nothing changes. Otherwise, if GC reports
    the store of internalId deleted, the result is false and exactly one
    error event is logged, GC_Deleted_DataStore_Changed, naming the store and
    the call site and telling whether a context exists; the tables are
    unchanged, whether or not a context exists. Otherwise, if there is no
    context for internalId, the result is false and exactly one error event is
    logged, AliasFluidDataStoreNotFound, naming the store; the tables are
    unchanged. Otherwise the outbound GC edge from the
    container handle to the store is reported, aliases[alias] becomes
    internalId, the context is marked root, and the result is true. For a local
    op the resolver of the metadata is then called with the result; for a
    remote op it is not. *)
Theorem processAliasMessage_commit env s internalId alias :
  (is_Some (aliasMap s !! alias) \/ is_Some (contexts s !! alias) ->
     processAliasMessageCore env internalId alias s = (Returned false, s))
  /\ (aliasMap s !! alias = None -> contexts s !! alias = None ->
      (isDataStoreDeleted env ("/" +:+ internalId) = true ->
         processAliasMessageCore env internalId alias s
         = (Returned false,
            logged (SendEvent {| eventName := "GC_Deleted_DataStore_Changed";
                                 category := "error";
                                 subject := Some internalId;
                                 callSite := Some "processAliasMessageCore";
                                 flags := [("exists", is_defined (contexts s !! internalId))] |})
                   s))
      /\ (isDataStoreDeleted env ("/" +:+ internalId) = false ->
          contexts s !! internalId = None ->
          processAliasMessageCore env internalId alias s
          = (Returned false,
             logged (SendEvent {| eventName := "AliasFluidDataStoreNotFound";
                                  category := "error";
                                  subject := Some internalId;
                                  callSite := None;
                                  flags := [] |})
                    s))
      /\ (isDataStoreDeleted env ("/" +:+ internalId) = false ->
          is_Some (contexts s !! internalId) ->
          processAliasMessageCore env internalId alias s
          = (Returned true,
             set_contexts (alter (set_root true) internalId)
               (set_aliasMap (insert alias internalId)
                  (logged (AddedGCOutboundReference ContainerRuntimeHandle
                             (DataStoreHandle internalId)) s)))))
  /\ (forall contents result s',
        isDataStoreAliasMessage contents = Some (internalId, alias) ->
        processAliasMessageCore env internalId alias s = (Returned result, s') ->
        (forall resolve,
           processAliasMessage env contents (Some resolve) true s
           = (Returned tt, logged (ResolveAlias resolve result) s'))
        /\ (forall meta,
              processAliasMessage env contents meta false s = (Returned tt, s'))).
Proof.
  split; [| split].
  - intros Hknown. unfold processAliasMessageCore, alreadyProcessed. monad.
    destruct Hknown as [[x ->] | [x ->]]; simpl; [reflexivity |].
    by rewrite orb_true_r.
  - intros Ha Hc.
    unfold processAliasMessageCore, alreadyProcessed, checkAndLogIfDeleted,
      DataStoreContexts.get. monad. rewrite Ha, Hc. simpl.
    split; [| split].
    + intros ->. simpl. reflexivity.
    + intros -> ->. simpl. reflexivity.
    + intros -> [c ->]. simpl. reflexivity.
  - intros contents result s' Hmsg Hcore. split.
    + intros resolve. unfold processAliasMessage. rewrite Hmsg. monad. by rewrite Hcore.
    + intros meta. unfold processAliasMessage. rewrite Hmsg. monad. by rewrite Hcore.
Qed.

Lemma processAliasMessage_commit_witness :
  (* a new alias for the attached store "1", sent by this client *)
  (exists s',
     processAliasMessage (sampleEnv Attached []) (aliasMessage "1" "root") (Some 7%nat) true oneStore
     = (Returned tt, s')
     /\ aliasMap s' !! "root" = Some "1"
     /\ (root <$> contexts s' !! "1") = Some true
     /\ trace s' = [AddedGCOutboundReference ContainerRuntimeHandle (DataStoreHandle "1");
                    ResolveAlias 7%nat true])
  (* the alias is the id of a store *)
  /\ processAliasMessageCore (sampleEnv Attached []) "1" "1" oneStore = (Returned false, oneStore)
  (* the aliased store does not exist *)
  /\ (exists e, eventName e = "AliasFluidDataStoreNotFound"
       /\ processAliasMessageCore (sampleEnv Attached []) "2" "root" oneStore
          = (Returned false, logged (SendEvent e) oneStore))
  (* the aliased store was deleted by GC and has no context *)
  /\ (exists e, eventName e = "GC_Deleted_DataStore_Changed"
       /\ flags e = [("exists", false)]
       /\ processAliasMessageCore (sampleEnv Attached ["/2"]) "2" "root" oneStore
          = (Returned false, logged (SendEvent e) oneStore))
  (* the aliased store was deleted by GC and still has a context *)
  /\ (exists e, eventName e = "GC_Deleted_DataStore_Changed"
       /\ flags e = [("exists", true)]
       /\ processAliasMessageCore (sampleEnv Attached ["/1"]) "1" "root" oneStore
          = (Returned false, logged (SendEvent e) oneStore)).
Proof.
  split; [| split; [| split; [| split]]].
  - destruct (processAliasMessage_commit (sampleEnv Attached []) oneStore "1" "root")
      as (_ & Hcommit & Hresolve).
    destruct (Hcommit eq_refl eq_refl) as (_ & _ & Hok).
    specialize (Hok eq_refl (ex_intro _ _ eq_refl)).
    destruct (Hresolve (aliasMessage "1" "root") _ _ eq_refl Hok) as [Hlocal _].
    eexists. split; [apply Hlocal |]. repeat split; reflexivity.
  - destruct (processAliasMessage_commit (sampleEnv Attached []) oneStore "1" "1")
      as (Hknown & _ & _).
    apply Hknown. right. eexists. reflexivity.
  - destruct (processAliasMessage_commit (sampleEnv Attached []) oneStore "2" "root")
      as (_ & Hcommit & _).
    destruct (Hcommit eq_refl eq_refl) as (_ & Hmissing & _).
    eexists. split; [| apply (Hmissing eq_refl eq_refl)]. reflexivity.
  - destruct (processAliasMessage_commit (sampleEnv Attached ["/2"]) oneStore "2" "root")
      as (_ & Hcommit & _).
    destruct (Hcommit eq_refl eq_refl) as (Hdeleted & _ & _).
    eexists. split; [| split; [| apply (Hdeleted eq_refl)]]; reflexivity.
  - destruct (processAliasMessage_commit (sampleEnv Attached ["/1"]) oneStore "1" "root")
      as (_ & Hcommit & _).
    destruct (Hcommit eq_refl eq_refl) as (Hdeleted & _ & _).
    eexists. split; [| split; [| apply (Hdeleted eq_refl)]]; reflexivity.
Defined.

(** C1, the claim as stated fails: the alias "root" is new and the context "1"
    exists, yet the commit is rejected and no alias is recorded, because GC
    reports the store deleted. *)
Lemma processAliasMessageCore_deleted_store_rejected :
  let env := sampleEnv Attached ["/1"] in
  aliasMap oneStore !! "root" = None
  /\ contexts oneStore !! "root" = None
  /\ is_Some (contexts oneStore !! "1")
  /\ fst (processAliasMessageCore env "1" "root" oneStore) = Returned false
  /\ aliasMap (snd (processAliasMessageCore env "1" "root" oneStore)) !! "root" = None.
Proof.
  intros env. repeat split; try reflexivity. eexists. reflexivity.
Qed.

Lemma forEach_emit {A} (g : A -> Effect) l : forall s,
  forEach (fun x => emit (g x)) l s = (Returned tt, set_trace (fun t => t ++ (g <$> l)) s).
Proof.
  induction l as [| x l IH]; intros s; simpl.
  - unfold ret. by rewrite set_trace_id.
  - unfold bind, emit, modify. rewrite IH. unfold set_trace; simpl.
    by rewrite <- app_assoc.
Qed.

Lemma sameTables_refl s : sameTables s s.
Proof. by repeat split. Qed.

Lemma processAttachMessage_prologue env m local s :
  exists s0, sameTables s s0
    /\ processAttachMessage env m local s = attachCommit env m local s0.
Proof.
  unfold processAttachMessage. unfold bind at 1. unfold modify at 1.
  unfold bind at 1. rewrite forEach_emit.
  unfold bind at 1. unfold getState at 1. cbn [set_trace set_dataStoresSinceLastGC shouldSendAttachLog].
  unfold bind at 1.
  destruct (shouldSendAttachLog s).
  - monad. eexists. split; [| destruct local; reflexivity]. by repeat split.
  - monad. eexists. split; [| destruct local; reflexivity]. by repeat split.
Qed.

(** C2. The attach round trip of a locally created store (unbound, Detached)
    in a container that is not detached: making it visible submits one Attach
    op carrying its id and records the op under its id in the pending-attach
    map, the context being Attaching; processing that op as a local op then
    leaves the context Attached and removes the id from pending-attach. A
    local Attach op whose id is not in pending-attach fails the assertion
    0x15e. *)
Theorem attach_round_trip :
  (forall env env' s id c,
     parentAttachState env <> Detached ->
     id ∈ notBoundContexts s ->
     contexts s !! id = Some c ->
     attachState c = Detached ->
     let message := generateAttachMessage env id c in
     exists s1,
       makeDataStoreLocallyVisible env id s = (Returned tt, s1)
       /\ am_id message = id
       /\ trace s1 = trace s ++ [SubmitMessage (Attach message)]
       /\ pendingAttach s1 = <[id := message]> (pendingAttach s)
       /\ contexts s1 !! id = Some (set_attachState Attaching c)
       /\ exists s2,
            processAttachMessage env' message true s1 = (Returned tt, s2)
            /\ contexts s2 !! id = Some (set_attachState Attached c)
            /\ pendingAttach s2 !! id = None)
  /\ (forall env s message,
        pendingAttach s !! am_id message = None ->
        exists s', processAttachMessage env message true s
                   = (Thrown (AssertionError "0x15e"), s')).
Proof.
  split.
  - intros env env' s id c Hattached Hunbound Hc Hdetached message.
    unfold makeDataStoreLocallyVisible, DataStoreContexts.getUnbound.
    unfold bind at 1.
    rewrite bool_decide_eq_true_2 by exact Hunbound. rewrite Hc.
    rewrite bool_decide_eq_true_2 by exact Hattached.
    unfold FluidDataStoreContext.setAttachState, submitAttachChannelOp, DataStoreContexts.bind.
    monad. rewrite Hc, Hdetached. simpl.
    rewrite bool_decide_eq_true_2 by exact Hunbound. simpl.
    eexists. split; [reflexivity |]. simpl.
    split; [reflexivity |]. split; [reflexivity |]. split; [reflexivity |].
    split; [by rewrite lookup_insert_eq |].
    match goal with |- exists s2, processAttachMessage _ _ _ ?s1 = _ /\ _ =>
      destruct (processAttachMessage_prologue env' message true s1)
        as (s0 & (Hctx & _ & _ & Hpending & _) & ->)
    end.
    simpl in Hctx, Hpending.
    unfold attachCommit, FluidDataStoreContext.setAttachState. monad.
    rewrite Hpending, lookup_insert_eq. simpl.
    rewrite Hctx, lookup_insert_eq. simpl.
    eexists. split; [reflexivity |]. simpl.
    rewrite Hpending, lookup_insert_eq, lookup_delete_eq.
    split; reflexivity.
  - intros env s message Hnone.
    destruct (processAttachMessage_prologue env message true s)
      as (s0 & (_ & _ & _ & Hpending & _) & ->).
    unfold attachCommit. monad. rewrite Hpending, Hnone. simpl. by eexists.
Qed.

Lemma attach_round_trip_witness :
  let env := sampleEnv Attached [] in
  let message := {| am_id := "1"; am_type := "pkg"; am_snapshot := Some emptyTree |} in
  (exists s1 s2,
     makeDataStoreLocallyVisible env "1" oneUnboundStore = (Returned tt, s1)
     /\ trace s1 = [SubmitMessage (Attach message)]
     /\ pendingAttach s1 = {["1" := message]}
     /\ processAttachMessage env message true s1 = (Returned tt, s2)
     /\ (attachState <$> contexts s2 !! "1") = Some Attached
     /\ pendingAttach s2 !! "1" = None)
  /\ (exists s', processAttachMessage env message true emptyState
                 = (Thrown (AssertionError "0x15e"), s')).
Proof.
  intros env message. destruct attach_round_trip as [Hround Hassert]. split.
  - destruct (Hround env env oneUnboundStore "1"
                (newLocalContext LocalFluidDataStoreContext ["pkg"]))
      as (s1 & H1 & _ & Htrace & Hpending & _ & s2 & H2 & Hctx & Hgone).
    + discriminate.
    + vm_compute. reflexivity.
    + reflexivity.
    + reflexivity.
    + exists s1, s2. split; [exact H1 |]. split; [exact Htrace |].
      split; [exact Hpending |]. split; [exact H2 |]. split; [by rewrite Hctx | exact Hgone].
  - apply (Hassert env emptyState message). reflexivity.
Defined.

(** C4. A remote Attach op whose id is the id of a context or a key of the
    alias map makes the processing throw the DataCorruptionError "Duplicate
    DataStore created with existing id", the tables being left as they were.
    A remote Attach op with an unknown id adds a remote context under that id
    to the table, outside the unbound partition; its storage wraps the
    parent's storage with the blobs inlined in the attach snapshot, which it
    serves itself while passing every other read to the parent. *)
Theorem processAttachMessage_remote env s message :
  let id := am_id message in
  let blobs :=
    match am_snapshot message with
    | Some snapshot => buildSnapshotTree env (entries snapshot)
    | None => ∅
    end in
  (is_Some (contexts s !! id) \/ is_Some (aliasMap s !! id) ->
     exists s',
       processAttachMessage env message false s
       = (Thrown (DataCorruptionError "Duplicate DataStore created with existing id"), s')
       /\ sameTables s s')
  /\ (contexts s !! id = None -> aliasMap s !! id = None ->
      exists s' c,
        processAttachMessage env message false s = (Returned tt, s')
        /\ contexts s' = <[id := c]> (contexts s)
        /\ notBoundContexts s' = notBoundContexts s
        /\ kind c = RemoteFluidDataStoreContext
        /\ attachState c = Attached
        /\ storage c = StorageServiceWithAttachBlobs ParentStorage blobs
        /\ forall parent blobId,
             readBlob parent (storage c) blobId
             = match blobs !! blobId with
               | Some blob => Some blob
               | None => parent blobId
               end).
Proof.
  intros id blobs.
  destruct (processAttachMessage_prologue env message false s)
    as (s0 & Hsame & ->).
  pose proof Hsame as (Hctx & Hunbound & Halias & _).
  unfold attachCommit, alreadyProcessed, DataStoreContexts.addBoundOrRemoted. monad.
  fold id. rewrite Hctx, Halias. split.
  - intros Hknown.
    assert (is_defined (aliasMap s !! id) || is_defined (contexts s !! id) = true) as ->.
    { destruct Hknown as [[x ->] | [x ->]]; simpl; [apply orb_true_r | reflexivity]. }
    eexists. split; [reflexivity | exact Hsame].
  - intros Hc Ha. rewrite Hc, Ha. simpl. rewrite Hctx, Hc. simpl.
    eexists. eexists. split; [reflexivity |]. simpl. rewrite Hctx, Hunbound.
    repeat split; reflexivity.
Qed.

Lemma processAttachMessage_remote_witness :
  let env := sampleEnv Attached [] in
  (exists s',
     processAttachMessage env {| am_id := "1"; am_type := "pkg"; am_snapshot := None |} false oneStore
     = (Thrown (DataCorruptionError "Duplicate DataStore created with existing id"), s'))
  /\ (exists s' c,
        processAttachMessage env {| am_id := "3"; am_type := "pkg"; am_snapshot := None |} false oneStore
        = (Returned tt, s')
        /\ contexts s' !! "3" = Some c
        /\ attachState c = Attached
        /\ "3" ∉ notBoundContexts s').
Proof.
  intros env. split.
  - destruct (processAttachMessage_remote env oneStore
                {| am_id := "1"; am_type := "pkg"; am_snapshot := None |}) as [Hdup _].
    destruct Hdup as (s' & H & _); [left; eexists; reflexivity |]. by exists s'.
  - destruct (processAttachMessage_remote env oneStore
                {| am_id := "3"; am_type := "pkg"; am_snapshot := None |}) as [_ Hnew].
    destruct (Hnew eq_refl eq_refl) as (s' & c & H & Hctx & Hunbound & _ & Hattached & _).
    exists s', c. split; [exact H |]. split; [| split; [exact Hattached |]].
    + rewrite Hctx. apply lookup_insert_eq.
    + rewrite Hunbound. vm_compute. intros Hin. discriminate.
Defined.

Section PendingAttachInvariant.
Variable env : Env.

Lemma invariant_step s s' id :
  pendingAttachInvariant env s ->
  (forall j, j <> id ->
     contexts s' !! j = contexts s !! j /\ pendingAttach s' !! j = pendingAttach s !! j) ->
  (is_Some (pendingAttach s' !! id) <->
   exists c, contexts s' !! id = Some c
             /\ attachState c = Attaching
             /\ parentAttachState env <> Detached) ->
  pendingAttachInvariant env s'.
Proof.
  intros Hinv Hother Hid j. destruct (decide (j = id)) as [-> | Hne]; [exact Hid |].
  destruct (Hother j Hne) as [-> ->]. apply Hinv.
Qed.

Lemma invariant_sameTables s s' :
  sameTables s s' -> pendingAttachInvariant env s -> pendingAttachInvariant env s'.
Proof.
  intros (Hctx & _ & _ & Hpending & _) Hinv id. rewrite Hctx, Hpending. apply Hinv.
Qed.

Lemma invariant_no_context s id :
  pendingAttachInvariant env s -> contexts s !! id = None -> pendingAttach s !! id = None.
Proof.
  intros Hinv Hnone. destruct (pendingAttach s !! id) as [m |] eqn:Hm; [| reflexivity].
  destruct (proj1 (Hinv id)) as (c & Hc & _); [by rewrite Hm |]. congruence.
Qed.

Lemma invariant_add_context s id c :
  pendingAttachInvariant env s ->
  contexts s !! id = None ->
  attachState c <> Attaching ->
  forall s', contexts s' = <[id := c]> (contexts s) ->
             pendingAttach s' = pendingAttach s ->
             pendingAttachInvariant env s'.
Proof.
  intros Hinv Hnone Hstate s' Hctx Hpending.
  apply (invariant_step s s' id Hinv).
  - intros j Hne. rewrite Hctx, Hpending. by rewrite lookup_insert_ne.
  - rewrite Hctx, Hpending, lookup_insert_eq, (invariant_no_context s id Hinv Hnone).
    split; [intros [x Hx]; discriminate |].
    intros (c' & Hc' & Hattaching & _). congruence.
Qed.

Lemma createContext_invariant s id pkg k :
  pendingAttachInvariant env s -> pendingAttachInvariant env (snd (createContext id pkg k s)).
Proof.
  intros Hinv. unfold createContext, DataStoreContexts.addUnbound. monad.
  destruct (contexts s !! id) eqn:Hc; simpl; [exact Hinv |].
  apply (invariant_add_context s id (newLocalContext k pkg) Hinv Hc); [discriminate | done | done].
Qed.

Lemma makeDataStoreLocallyVisible_invariant s id :
  pendingAttachInvariant env s ->
  pendingAttachInvariant env (snd (makeDataStoreLocallyVisible env id s)).
Proof.
  intros Hinv.
  unfold makeDataStoreLocallyVisible, DataStoreContexts.getUnbound,
    FluidDataStoreContext.setAttachState, submitAttachChannelOp, DataStoreContexts.bind.
  monad.
  destruct (bool_decide (id ∈ notBoundContexts s)) eqn:Hunbound; simpl; [| exact Hinv].
  destruct (contexts s !! id) as [c |] eqn:Hc; simpl; [| exact Hinv].
  destruct (bool_decide (parentAttachState env ≠ Detached)) eqn:Hparent; simpl.
  - rewrite Hc. simpl.
    destruct (FluidDataStoreContext.rank (attachState c) <=? 1)%nat; simpl; [| exact Hinv].
    rewrite Hunbound. simpl.
    apply (invariant_step s _ id Hinv); simpl.
    + intros j Hne. by rewrite !lookup_insert_ne.
    + rewrite !lookup_insert_eq. split; [| by eexists].
      intros _. eexists. split; [reflexivity |]. split; [reflexivity |].
      by apply bool_decide_eq_true in Hparent.
  - rewrite Hunbound. simpl. exact Hinv.
Qed.

Lemma attachCommit_invariant s m local :
  pendingAttachInvariant env s -> pendingAttachInvariant env (snd (attachCommit env m local s)).
Proof.
  intros Hinv.
  unfold attachCommit, FluidDataStoreContext.setAttachState, alreadyProcessed,
    DataStoreContexts.addBoundOrRemoted.
  destruct local; monad.
  - destruct (pendingAttach s !! am_id m) as [pm |] eqn:Hpending; simpl; [| exact Hinv].
    destruct (proj1 (Hinv (am_id m))) as (c & Hc & Hattaching & Hparent); [by rewrite Hpending |].
    rewrite Hc. simpl. rewrite Hattaching. simpl.
    apply (invariant_step s _ (am_id m) Hinv); simpl.
    + intros j Hne. by rewrite lookup_insert_ne, lookup_delete_ne.
    + rewrite lookup_insert_eq, lookup_delete_eq. split; [intros [x Hx]; discriminate |].
      intros (c' & Hc' & Hstate & _). inversion Hc'; subst c'. discriminate.
  - destruct (contexts s !! am_id m) as [c |] eqn:Hc; simpl.
    { rewrite orb_true_r. exact Hinv. }
    rewrite orb_false_r.
    destruct (aliasMap s !! am_id m); simpl; [exact Hinv |].
    rewrite Hc. simpl.
    eapply (invariant_add_context s (am_id m) _ Hinv Hc); [| reflexivity | reflexivity].
    discriminate.
Qed.

Lemma processAttachMessage_invariant s m local :
  pendingAttachInvariant env s ->
  pendingAttachInvariant env (snd (processAttachMessage env m local s)).
Proof.
  intros Hinv.
  destruct (processAttachMessage_prologue env m local s) as (s0 & Hsame & ->).
  apply attachCommit_invariant. by apply (invariant_sameTables s).
Qed.

Lemma rollback_invariant s message :
  pendingAttachInvariant env s -> pendingAttachInvariant env (snd (rollback env message s)).
Proof.
  intros Hinv. destruct message as [m | c | envelope | t]; try exact Hinv.
  unfold rollback, checkAndLogIfDeleted, DataStoreContexts.get. monad.
  destruct (isDataStoreDeleted env _); simpl; [exact Hinv |].
  destruct (contexts s !! address envelope); simpl; exact Hinv.
Qed.

Lemma deleteChild_tables s id :
  is_Some (contexts s !! id) ->
  deleteChild id s =
  (Returned tt,
   logged (DeleteChildSummarizerNode id)
     (set_contexts (delete id)
        (set_notBoundContexts (fun u => u ∖ {[id]}) (logged (ContextDelete id) s)))).
Proof.
  intros [c Hc]. unfold deleteChild, DataStoreContexts.get, DataStoreContexts.delete.
  monad. rewrite Hc. reflexivity.
Qed.

Lemma deleteChild_missing s id :
  contexts s !! id = None -> deleteChild id s = (Thrown (AssertionError "0x2d7"), s).
Proof.
  intros Hc. unfold deleteChild, DataStoreContexts.get. monad. by rewrite Hc.
Qed.

Lemma deleteChild_invariant s id :
  pendingAttachInvariant env s ->
  pendingAttach s !! id = None ->
  pendingAttachInvariant env (snd (deleteChild id s)).
Proof.
  intros Hinv Hpending. destruct (contexts s !! id) as [c |] eqn:Hc.
  - rewrite deleteChild_tables by (by eexists). simpl.
    apply (invariant_step s _ id Hinv); simpl.
    + intros j Hne. by rewrite lookup_delete_ne.
    + rewrite lookup_delete_eq, Hpending. split; [intros [x Hx]; discriminate |].
      intros (c' & Hc' & _). discriminate.
  - by rewrite deleteChild_missing.
Qed.

Lemma deleteChild_pending_breaks s id :
  is_Some (contexts s !! id) ->
  is_Some (pendingAttach s !! id) ->
  ~ pendingAttachInvariant env (snd (deleteChild id s)).
Proof.
  intros Hc Hpending Hinv. rewrite deleteChild_tables in Hinv by exact Hc.
  destruct (proj1 (Hinv id)) as (c & Hlookup & _); [exact Hpending |].
  simpl in Hlookup. by rewrite lookup_delete_eq in Hlookup.
Qed.

Lemma applyStashedAttachOp_invariant s m :
  pendingAttachInvariant env s ->
  parentAttachState env = Detached
  \/ existingLocalAttachState env (parentAttachState env) = Attaching ->
  pendingAttachInvariant env (snd (applyStashedAttachOp env m s)).
Proof.
  intros Hinv Hstate. unfold applyStashedAttachOp, DataStoreContexts.addBoundOrRemoted.
  destruct (am_snapshot m) as [snapshot |]; [| exact Hinv]. monad.
  destruct (contexts s !! am_id m) eqn:Hc; simpl; [exact Hinv |].
  destruct (bool_decide (parentAttachState env ≠ Detached)) eqn:Hparent; simpl.
  - apply bool_decide_eq_true in Hparent. destruct Hstate as [Hd | Hattaching]; [done |].
    apply (invariant_step s _ (am_id m) Hinv); simpl.
    + intros j Hne. by rewrite !lookup_insert_ne.
    + rewrite !lookup_insert_eq. split; [| by eexists].
      intros _. eexists. split; [reflexivity |]. by split.
  - apply bool_decide_eq_false in Hparent.
    apply (invariant_step s _ (am_id m) Hinv); simpl.
    + intros j Hne. by rewrite !lookup_insert_ne.
    + rewrite lookup_insert_eq, (invariant_no_context s (am_id m) Hinv Hc).
      split; [intros [x Hx]; discriminate |].
      intros (c' & _ & _ & Hnot). exfalso. apply Hparent. exact Hnot.
Qed.
End PendingAttachInvariant.

Lemma split_without_separator sep s : contains sep s = false -> split sep s = [s].
Proof.
  induction s as [| c s IH]; simpl; [reflexivity |].
  intros H. apply orb_false_iff in H as [-> Hrest]. by rewrite (IH Hrest).
Qed.

Lemma split_data_store_route id :
  contains "/" id = false -> split "/" ("/" +:+ id) = [""; id].
Proof.
  intros H. change ("/" +:+ id) with (String "/"%char id). cbn [split].
  rewrite bool_decide_eq_true_2 by reflexivity.
  by rewrite (split_without_separator _ _ H).
Qed.

Lemma sweepRoute_eq env route s :
  sweepRoute env route s =
  if (2 <? length (split "/" route))%nat then (Returned tt, s)
  else
    match split "/" route !! 1%nat with
    | Some id =>
        match contexts s !! id with
        | Some _ => deleteChild id s
        | None => (Returned tt, logged (SendEvent (deletedDataStoreNotFound env (Some id))) s)
        end
    | None => (Returned tt, logged (SendEvent (deletedDataStoreNotFound env None)) s)
    end.
Proof.
  unfold sweepRoute. destruct (2 <? length (split "/" route))%nat; [reflexivity |].
  destruct (split "/" route !! 1%nat) as [id |]; [| reflexivity].
  unfold DataStoreContexts.get. monad. destruct (contexts s !! id); reflexivity.
Qed.

Lemma sweepRoute_returns env route s : fst (sweepRoute env route s) = Returned tt.
Proof.
  rewrite sweepRoute_eq. destruct (2 <? length (split "/" route))%nat; [reflexivity |].
  destruct (split "/" route !! 1%nat) as [id |]; [| reflexivity].
  destruct (contexts s !! id) as [c |] eqn:Hc; [| reflexivity].
  by rewrite (deleteChild_tables s id) by (by eexists).
Qed.

Lemma forEach_returns {A} (body : A -> M unit) l :
  (forall x s, fst (body x s) = Returned tt) ->
  forall s, forEach body l s = (Returned tt, foldl (fun s x => snd (body x s)) s l).
Proof.
  intros Hbody. induction l as [| x l IH]; intros s; simpl; [reflexivity |].
  unfold bind. specialize (Hbody x s). destruct (body x s) as [o s1]. simpl in *. subst o.
  apply IH.
Qed.

(** C7. [deleteSweepReadyNodes] never throws and returns the whole list of
    routes it was given, after running its loop body on each route in turn.
    A route of more than two path segments changes nothing. For a route "/id":
    when the context exists, it is deleted, removed from the table, and its
    summarizer node is deleted; when it does not, one DeletedDataStoreNotFound
    event is logged, of category "generic" if the store was already deleted and
    "error" otherwise. *)
Theorem deleteSweepReadyNodes_spec env :
  (forall routes s,
     deleteSweepReadyNodes env routes s
     = (Returned routes, foldl (fun s route => snd (sweepRoute env route s)) s routes))
  /\ (forall route s, fst (sweepRoute env route s) = Returned tt)
  /\ (forall route s,
        (2 < length (split "/" route))%nat -> sweepRoute env route s = (Returned tt, s))
  /\ (forall id s,
        contains "/" id = false ->
        (is_Some (contexts s !! id) ->
           sweepRoute env ("/" +:+ id) s = (Returned tt, afterDeleteChild id s)
           /\ contexts (afterDeleteChild id s) = delete id (contexts s)
           /\ trace (afterDeleteChild id s)
              = trace s ++ [ContextDelete id; DeleteChildSummarizerNode id])
        /\ (contexts s !! id = None ->
              sweepRoute env ("/" +:+ id) s
              = (Returned tt, logged (SendEvent (deletedDataStoreNotFound env (Some id))) s)
              /\ category (deletedDataStoreNotFound env (Some id))
                 = if isDataStoreDeleted env ("/" +:+ id) then "generic" else "error")).
Proof.
  split; [| split; [| split]].
  - intros routes s. unfold deleteSweepReadyNodes, bind.
    rewrite (forEach_returns (sweepRoute env) routes (sweepRoute_returns env)). reflexivity.
  - apply sweepRoute_returns.
  - intros route s Hlong. rewrite sweepRoute_eq.
    by rewrite (proj2 (Nat.ltb_lt _ _) Hlong).
  - intros id s Hid. rewrite sweepRoute_eq, (split_data_store_route id Hid). simpl. split.
    + intros [c Hc]. rewrite Hc. rewrite (deleteChild_tables s id) by (by eexists).
      split; [reflexivity |]. split; [reflexivity |].
      simpl. by rewrite <- app_assoc.
    + intros ->. split; reflexivity.
Qed.

Lemma deleteSweepReadyNodes_spec_witness :
  let env := sampleEnv Attached ["/5"] in
  (* scenario S5 *)
  (exists s',
     deleteSweepReadyNodes env ["/3"; "/3/dds/x"] storeThree
     = (Returned ["/3"; "/3/dds/x"], s')
     /\ contexts s' !! "3" = None
     /\ trace s' = [ContextDelete "3"; DeleteChildSummarizerNode "3"])
  (* a store that was already deleted, and one that never existed *)
  /\ (exists e5 e7,
        snd (deleteSweepReadyNodes env ["/5"; "/7"] storeThree)
        = logged (SendEvent e7) (logged (SendEvent e5) storeThree)
        /\ category e5 = "generic" /\ category e7 = "error").
Proof.
  intros env. destruct (deleteSweepReadyNodes_spec env) as (Hall & _ & Hlong & Hroute).
  split.
  - destruct (Hroute "3" storeThree eq_refl) as [Hdelete _].
    destruct Hdelete as (H3 & _ & _); [by eexists |].
    change ("/" +:+ "3") with "/3" in H3.
    eexists. split.
    + rewrite Hall. cbn [foldl]. rewrite H3. cbn [snd].
      rewrite (Hlong "/3/dds/x") by (vm_compute; lia). reflexivity.
    + split; reflexivity.
  - exists (deletedDataStoreNotFound env (Some "5")), (deletedDataStoreNotFound env (Some "7")).
    destruct (Hroute "5" storeThree eq_refl) as [_ Hmissing].
    destruct (Hmissing eq_refl) as [H5 _]. change ("/" +:+ "5") with "/5" in H5.
    destruct (Hroute "7" (logged (SendEvent (deletedDataStoreNotFound env (Some "5"))) storeThree)
                eq_refl) as [_ Hmissing7].
    destruct (Hmissing7 eq_refl) as [H7 _]. change ("/" +:+ "7") with "/7" in H7.
    rewrite Hall. cbn [foldl]. rewrite H5. cbn [snd]. rewrite H7. cbn [snd].
    split; [reflexivity |]. split; reflexivity.
Defined.

Lemma invariant_no_pending env s :
  pendingAttach s = ∅ ->
  (forall id c, contexts s !! id = Some c -> attachState c <> Attaching) ->
  pendingAttachInvariant env s.
Proof.
  intros Hempty Hnone id. rewrite Hempty, lookup_empty. split.
  - intros [x Hx]. discriminate.
  - intros (c & Hc & Hattaching & _). exfalso. exact (Hnone id c Hc Hattaching).
Qed.

Lemma oneUnboundStore_invariant env : pendingAttachInvariant env oneUnboundStore.
Proof.
  apply invariant_no_pending; [reflexivity |].
  intros id c Hc. simpl in Hc. apply lookup_insert_Some in Hc as [[_ <-] | [_ Hc]].
  - discriminate.
  - by rewrite lookup_empty in Hc.
Qed.

Lemma sweepRoute_invariant env route s :
  pendingAttachInvariant env s ->
  (forall id, split "/" route !! 1%nat = Some id -> pendingAttach s !! id = None) ->
  pendingAttachInvariant env (snd (sweepRoute env route s))
  /\ pendingAttach (snd (sweepRoute env route s)) = pendingAttach s.
Proof.
  intros Hinv Hfree. rewrite sweepRoute_eq.
  destruct (2 <? length (split "/" route))%nat; [by split |].
  destruct (split "/" route !! 1%nat) as [id |]; [| by split].
  destruct (contexts s !! id) as [c |] eqn:Hc; [| by split]. split.
  - apply deleteChild_invariant; [exact Hinv | by apply Hfree].
  - by rewrite (deleteChild_tables s id) by (by eexists).
Qed.

Lemma deleteSweepReadyNodes_invariant env routes : forall s,
  pendingAttachInvariant env s ->
  (forall route id, route ∈ routes -> split "/" route !! 1%nat = Some id ->
     pendingAttach s !! id = None) ->
  pendingAttachInvariant env (snd (deleteSweepReadyNodes env routes s)).
Proof.
  unfold deleteSweepReadyNodes, bind. intros s.
  rewrite (forEach_returns (sweepRoute env) routes (sweepRoute_returns env)). simpl.
  revert s. induction routes as [| route routes IH]; intros s Hinv Hfree; simpl; [exact Hinv |].
  destruct (sweepRoute_invariant env route s Hinv) as [Hinv' Hpending].
  { intros id. apply Hfree. by left. }
  apply IH; [exact Hinv' |].
  intros r id Hr Hid. rewrite Hpending. apply (Hfree r id); [by right | exact Hid].
Qed.

(** C3 (as amended). If the key set of the pending-attach map is the set of
    ids of the contexts in Attaching state while the container is not
    detached, then it still is after creating a store, making a store visible,
    processing an Attach op (local or remote), a rollback, and the deletion of
    stores none of which has a pending-attach entry, whether the operation
    returns or throws, the container's attach state being the same before and
    after. It still is after applying a stashed attach op when the container
    is detached or the context built for it starts in Attaching state. The
    deletion of a store that has a pending-attach entry removes its context and
    keeps the entry. *)
Theorem pendingAttach_invariant_preserved env s :
  pendingAttachInvariant env s ->
  (forall id pkg ctor, pendingAttachInvariant env (snd (createContext id pkg ctor s)))
  /\ (forall id, pendingAttachInvariant env (snd (makeDataStoreLocallyVisible env id s)))
  /\ (forall message local,
        pendingAttachInvariant env (snd (processAttachMessage env message local s)))
  /\ (forall message, pendingAttachInvariant env (snd (rollback env message s)))
  /\ (forall routes,
        (forall route id, route ∈ routes -> split "/" route !! 1%nat = Some id ->
           pendingAttach s !! id = None) ->
        pendingAttachInvariant env (snd (deleteSweepReadyNodes env routes s)))
  /\ (forall message,
        parentAttachState env = Detached
        \/ existingLocalAttachState env (parentAttachState env) = Attaching ->
        pendingAttachInvariant env (snd (applyStashedAttachOp env message s)))
  /\ (forall id,
        is_Some (contexts s !! id) -> is_Some (pendingAttach s !! id) ->
        contexts (snd (deleteChild id s)) !! id = None
        /\ pendingAttach (snd (deleteChild id s)) !! id = pendingAttach s !! id
        /\ ~ pendingAttachInvariant env (snd (deleteChild id s))).
Proof.
  intros Hinv.
  split; [| split; [| split; [| split; [| split; [| split]]]]];
    [| | | | | | intros id Hc Hpending; split; [| split]].
  - intros. by apply createContext_invariant.
  - intros. by apply makeDataStoreLocallyVisible_invariant.
  - intros. by apply processAttachMessage_invariant.
  - intros. by apply rollback_invariant.
  - intros. by apply deleteSweepReadyNodes_invariant.
  - intros. by apply applyStashedAttachOp_invariant.
  - rewrite (deleteChild_tables s id) by exact Hc. simpl. apply lookup_delete_eq.
  - by rewrite (deleteChild_tables s id) by exact Hc.
  - by apply deleteChild_pending_breaks.
Qed.

Lemma pendingAttach_invariant_preserved_witness :
  let env := sampleEnv Attached [] in
  pendingAttachInvariant env oneUnboundStore
  /\ pendingAttachInvariant env oneAttachingStore
  /\ pendingAttachInvariant env
       (snd (processAttachMessage env (generateAttachMessage env "1"
               (newLocalContext LocalFluidDataStoreContext ["pkg"])) true oneAttachingStore))
  /\ pendingAttachInvariant env (snd (deleteSweepReadyNodes env ["/3"] oneAttachingStore))
  /\ ~ pendingAttachInvariant env (snd (deleteChild "1" oneAttachingStore))
  /\ pendingAttachInvariant (sampleEnv Detached [])
       (snd (applyStashedAttachOp (sampleEnv Detached [])
               {| am_id := "5"; am_type := "pkg"; am_snapshot := Some emptyTree |}
               oneUnboundStore)).
Proof.
  intros env.
  pose proof (oneUnboundStore_invariant env) as H0.
  destruct (pendingAttach_invariant_preserved env oneUnboundStore H0) as (_ & Hvisible & _).
  pose proof (Hvisible "1") as H1. fold oneAttachingStore in H1.
  destruct (pendingAttach_invariant_preserved env oneAttachingStore H1)
    as (_ & _ & Hattach & _ & Hsweep & _ & Hdelete).
  destruct (pendingAttach_invariant_preserved (sampleEnv Detached []) oneUnboundStore
              (oneUnboundStore_invariant _)) as (_ & _ & _ & _ & _ & Hstash & _).
  split; [exact H0 |]. split; [exact H1 |]. split; [apply Hattach |]. split; [| split].
  - apply Hsweep. intros route id Hroute Hid.
    apply list_elem_of_singleton in Hroute. subst route.
    vm_compute in Hid. inversion Hid; subst id. reflexivity.
  - apply (Hdelete "1"); eexists; reflexivity.
  - apply Hstash. left. reflexivity.
Defined.

(** C3, the claim as stated fails for deletion: the store "1" waits for its
    attach op, the invariant holds; sweeping "/1" returns normally, removes the
    context and leaves "1" in the pending-attach map. *)
Lemma deleteSweepReadyNodes_keeps_pendingAttach :
  let env := sampleEnv Attached [] in
  pendingAttachInvariant env oneAttachingStore
  /\ fst (deleteSweepReadyNodes env ["/1"] oneAttachingStore) = Returned ["/1"]
  /\ is_Some (pendingAttach (snd (deleteSweepReadyNodes env ["/1"] oneAttachingStore)) !! "1")
  /\ contexts (snd (deleteSweepReadyNodes env ["/1"] oneAttachingStore)) !! "1" = None
  /\ ~ pendingAttachInvariant env (snd (deleteSweepReadyNodes env ["/1"] oneAttachingStore)).
Proof.
  intros env. split; [| split; [| split; [| split]]].
  - apply (makeDataStoreLocallyVisible_invariant env oneUnboundStore "1").
    apply oneUnboundStore_invariant.
  - reflexivity.
  - eexists. reflexivity.
  - reflexivity.
  - intros Hinv. destruct (proj1 (Hinv "1")) as (c & Hc & _); [eexists; reflexivity |].
    discriminate.
Qed.

Section GCData.
Variable nodes : string -> gmap string (list string).

Lemma prefixAndAddNodes_lookup prefixId (b : gmap string (gset string)) :
  let result := GCDataBuilder.prefixAndAddNodes prefixId (nodes prefixId) b in
  (forall k r, result !! k = Some r ->
     b !! k = Some r
     \/ exists n routes, nodes prefixId !! n = Some routes
          /\ k = "/" +:+ prefixId +:+ n /\ r = list_to_set routes)
  /\ (forall n routes, nodes prefixId !! n = Some routes ->
        is_Some (result !! ("/" +:+ prefixId +:+ n)))
  /\ (forall k, is_Some (b !! k) -> is_Some (result !! k)).
Proof.
  cbv zeta. unfold GCDataBuilder.prefixAndAddNodes, GCDataBuilder.addNode.
  assert (forall (l : list (string * list string)) (b : gmap string (gset string)),
    let result :=
      foldl (fun acc node => <["/" +:+ prefixId +:+ fst node := list_to_set (snd node)]> acc) b l in
    (forall k r, result !! k = Some r ->
       b !! k = Some r
       \/ exists node, node ∈ l /\ k = "/" +:+ prefixId +:+ fst node
            /\ r = list_to_set (snd node))
    /\ (forall node, node ∈ l -> is_Some (result !! ("/" +:+ prefixId +:+ fst node)))
    /\ (forall k, is_Some (b !! k) -> is_Some (result !! k))) as Hfold.
  { clear b. induction l as [| node l IH]; intros b; simpl.
    - split; [by left |]. split; [| done]. intros node Hin. by apply elem_of_nil in Hin.
    - destruct (IH (<["/" +:+ prefixId +:+ fst node := list_to_set (snd node)]> b))
        as (Hsound & Hcomplete & Hmono).
      split; [| split].
      + intros k r Hk. destruct (Hsound k r Hk) as [Hb | (node' & Hin & -> & ->)].
        * apply lookup_insert_Some in Hb as [[<- <-] | [_ Hb]]; [| by left].
          right. exists node. split; [by left | done].
        * right. exists node'. split; [by right | done].
      + intros node' Hin. apply elem_of_cons in Hin as [-> | Hin]; [| by apply Hcomplete].
        apply Hmono. rewrite lookup_insert_eq. by eexists.
      + intros k Hk. apply Hmono. destruct (decide ("/" +:+ prefixId +:+ fst node = k)) as [<- | Hne].
        * rewrite lookup_insert_eq. by eexists.
        * by rewrite lookup_insert_ne. }
  cbv zeta in Hfold. destruct (Hfold (map_to_list (nodes prefixId)) b) as (Hsound & Hcomplete & Hmono).
  split; [| split; [| exact Hmono]].
  - intros k r Hk. destruct (Hsound k r Hk) as [Hb | ([n routes] & Hin & -> & ->)]; [by left |].
    right. exists n, routes. split; [| done]. by apply elem_of_map_to_list.
  - intros n routes Hn. apply (Hcomplete (n, routes)). by apply elem_of_map_to_list.
Qed.

Lemma builder_lookup (attached : list (string * Context)) : forall b,
  let result :=
    foldl (fun b entry => GCDataBuilder.prefixAndAddNodes (fst entry) (nodes (fst entry)) b)
          b attached in
  (forall k r, result !! k = Some r ->
     b !! k = Some r
     \/ exists entry n routes, entry ∈ attached /\ nodes (fst entry) !! n = Some routes
          /\ k = "/" +:+ fst entry +:+ n /\ r = list_to_set routes)
  /\ (forall entry n routes, entry ∈ attached -> nodes (fst entry) !! n = Some routes ->
        is_Some (result !! ("/" +:+ fst entry +:+ n)))
  /\ (forall k, is_Some (b !! k) -> is_Some (result !! k)).
Proof.
  induction attached as [| entry attached IH]; intros b; simpl.
  - split; [by left |]. split; [| done]. intros entry n routes Hin. by apply elem_of_nil in Hin.
  - destruct (prefixAndAddNodes_lookup (fst entry) b) as (Hsound1 & Hcomplete1 & Hmono1).
    destruct (IH (GCDataBuilder.prefixAndAddNodes (fst entry) (nodes (fst entry)) b))
      as (Hsound & Hcomplete & Hmono).
    split; [| split].
    + intros k r Hk. destruct (Hsound k r Hk) as [Hb | (e & n & routes & Hin & Hn & -> & ->)].
      * destruct (Hsound1 k r Hb) as [Hb0 | (n & routes & Hn & -> & ->)]; [by left |].
        right. exists entry, n, routes. split; [by left | done].
      * right. exists e, n, routes. split; [by right | done].
    + intros e n routes Hin Hn. apply elem_of_cons in Hin as [-> | Hin].
      * apply Hmono. by apply (Hcomplete1 n routes).
      * by apply (Hcomplete e n routes).
    + intros k Hk. apply Hmono. by apply Hmono1.
Qed.
End GCData.

Lemma attachedContexts_eq message cs s :
  attachedContexts message cs s =
  if existsb (fun entry => bool_decide (attachState (snd entry) = Attaching)) cs
  then (Thrown (DataProcessingError message), s)
  else (Returned (List.filter (fun entry => bool_decide (attachState (snd entry) = Attached)) cs), s).
Proof. unfold attachedContexts. by destruct (existsb _ cs). Qed.

Lemma getGCData_eq env fullGC s :
  getGCData env fullGC s =
  if existsb (fun entry : string * Context => bool_decide (attachState (snd entry) = Attaching))
       (map_to_list (contexts s))
  then (Thrown (DataProcessingError
                  "Local data store detected in attaching state while running GC"), s)
  else
    (Returned
       (GCDataBuilder.addNode "/"
          (omap (fun entry : string * Context =>
                   if root (snd entry) then Some ("/" +:+ fst entry) else None)
                (map_to_list (contexts s)))
          (foldl (fun b entry =>
                    GCDataBuilder.prefixAndAddNodes (fst entry)
                      (contextGCNodes env (fst entry) fullGC) b)
                 ∅
                 (List.filter (fun entry : string * Context =>
                                 bool_decide (attachState (snd entry) = Attached))
                              (map_to_list (contexts s))))), s).
Proof.
  unfold getGCData, getOutboundRoutes, bind, getState.
  rewrite attachedContexts_eq. by destruct (existsb _ (map_to_list (contexts s))).
Qed.

(** C6. [getGCData] throws a DataProcessingError when some context is in
    Attaching state. Otherwise it returns GC data in which the node "/" has as
    outbound routes the paths "/id" of the contexts that resolve as root, every
    other node is a GC node of a context in Attached state with its id prefixed
    by "/contextId", and every GC node of every Attached context is present
    under its prefixed id. *)
Theorem getGCData_spec env fullGC s :
  ((exists id c, contexts s !! id = Some c /\ attachState c = Attaching) ->
     getGCData env fullGC s
     = (Thrown (DataProcessingError
                  "Local data store detected in attaching state while running GC"), s))
  /\ ((forall id c, contexts s !! id = Some c -> attachState c <> Attaching) ->
      exists g,
        getGCData env fullGC s = (Returned g, s)
        /\ (exists roots, g !! "/" = Some roots
              /\ forall p, p ∈ roots <->
                   exists id c, contexts s !! id = Some c /\ root c = true /\ p = "/" +:+ id)
        /\ (forall k r, k <> "/" -> g !! k = Some r ->
              exists id c n routes,
                contexts s !! id = Some c /\ attachState c = Attached
                /\ contextGCNodes env id fullGC !! n = Some routes
                /\ k = "/" +:+ id +:+ n /\ r = list_to_set routes)
        /\ (forall id c n routes,
              contexts s !! id = Some c -> attachState c = Attached ->
              contextGCNodes env id fullGC !! n = Some routes ->
              is_Some (g !! ("/" +:+ id +:+ n)))).
Proof.
  rewrite getGCData_eq. split.
  - intros (id & c & Hc & Hattaching).
    assert (existsb (fun entry : string * Context =>
                       bool_decide (attachState (snd entry) = Attaching))
                    (map_to_list (contexts s)) = true) as ->; [| reflexivity].
    apply existsb_exists. exists (id, c). split.
    + apply list_elem_of_In. by apply elem_of_map_to_list.
    + by apply bool_decide_eq_true.
  - intros Hnone.
    assert (existsb (fun entry : string * Context =>
                       bool_decide (attachState (snd entry) = Attaching))
                    (map_to_list (contexts s)) = false) as ->.
    { apply not_true_is_false. intros Hex. apply existsb_exists in Hex as ([id c] & Hin & Hst).
      apply list_elem_of_In, elem_of_map_to_list in Hin. apply bool_decide_eq_true in Hst.
      exact (Hnone id c Hin Hst). }
    eexists. split; [reflexivity |].
    unfold GCDataBuilder.addNode at 1 2 3.
    match goal with |- context [ <["/" := _]> ?b ] => set (builder := b) end.
    destruct (builder_lookup (fun id => contextGCNodes env id fullGC)
                (List.filter (fun entry : string * Context =>
                                bool_decide (attachState (snd entry) = Attached))
                             (map_to_list (contexts s))) ∅)
      as (Hsound & Hcomplete & _).
    fold builder in Hsound, Hcomplete.
    assert (forall entry : string * Context,
              entry ∈ List.filter (fun entry : string * Context =>
                                     bool_decide (attachState (snd entry) = Attached))
                                  (map_to_list (contexts s))
              <-> contexts s !! fst entry = Some (snd entry)
                  /\ attachState (snd entry) = Attached) as Hattached.
    { intros [id c]. rewrite list_elem_of_In, filter_In, <- list_elem_of_In.
      rewrite elem_of_map_to_list, bool_decide_eq_true. reflexivity. }
    split; [| split].
    + eexists. split; [apply lookup_insert_eq |].
      intros p. rewrite elem_of_list_to_set, list_elem_of_omap. split.
      * intros ([id c] & Hin & Hp). apply elem_of_map_to_list in Hin. simpl in Hp.
        destruct (root c) eqn:Hroot; [| discriminate]. inversion Hp; subst p.
        by exists id, c.
      * intros (id & c & Hc & Hroot & ->). exists (id, c).
        split; [by apply elem_of_map_to_list |]. simpl. by rewrite Hroot.
    + intros k r Hk Hlookup. rewrite lookup_insert_ne in Hlookup by done.
      destruct (Hsound k r Hlookup) as [Hempty | ([id c] & n & routes & Hin & Hn & -> & ->)].
      { by rewrite lookup_empty in Hempty. }
      apply Hattached in Hin as [Hc Hst]. by exists id, c, n, routes.
    + intros id c n routes Hc Hst Hn.
      assert (is_Some (builder !! ("/" +:+ id +:+ n))) as Hin.
      { apply (Hcomplete (id, c) n routes); [| exact Hn]. by apply Hattached. }
      destruct (decide ("/" = "/" +:+ id +:+ n)) as [<- | Hne].
      * rewrite lookup_insert_eq. by eexists.
      * by rewrite lookup_insert_ne.
Qed.

Lemma getGCData_spec_witness :
  getGCData (sampleEnv Attached []) false oneAttachingStore
  = (Thrown (DataProcessingError
               "Local data store detected in attaching state while running GC"),
     oneAttachingStore)
  /\ (exists g roots,
        getGCData (sampleEnvWithGC Attached) false oneStore = (Returned g, oneStore)
        /\ g !! "/" = Some roots
        /\ "/1" ∈ roots
        /\ is_Some (g !! "/1/dds")).
Proof.
  split.
  - destruct (getGCData_spec (sampleEnv Attached []) false oneAttachingStore) as [Hthrow _].
    apply Hthrow. eexists "1", _. split; reflexivity.
  - destruct (getGCData_spec (sampleEnvWithGC Attached) false oneStore) as [_ Hreturn].
    destruct Hreturn as (g & Hg & (roots & Hroots & Hmem) & _ & Hnodes).
    + intros id c Hc. simpl in Hc. apply lookup_insert_Some in Hc as [[_ <-] | [_ Hc]].
      * discriminate.
      * by rewrite lookup_empty in Hc.
    + exists g, roots. split; [exact Hg |]. split; [exact Hroots |]. split.
      * apply Hmem. eexists "1", _. split; [reflexivity |]. split; reflexivity.
      * apply (Hnodes "1" (newRemoteContext (sampleEnv Attached []) ["pkg"] None ParentStorage)
                 "/dds" ["/2"]); reflexivity.
Defined.

(** C8. The id of a new store. In a detached container it is the compact
    encoding of twice the number of contexts, an even number. Otherwise, when
    the runtime's document-unique id is a number n, it is the compact encoding
    of 2n+1, an odd number, which for n = 0 is the encoding of 1; when it is a
    string, it is that string unchanged. The table is left as it was. *)
Theorem createDataStoreId_namespaces env s :
  (parentAttachState env = Detached ->
     createDataStoreId env s
     = (Returned (encodeCompactIdToString env (2 * Z.of_nat (size (contexts s)))), s)
     /\ Z.even (2 * Z.of_nat (size (contexts s))) = true)
  /\ (parentAttachState env <> Detached ->
      (forall n, generateDocumentUniqueId env = inl n ->
         createDataStoreId env s = (Returned (encodeCompactIdToString env (2 * n + 1)), s)
         /\ Z.odd (2 * n + 1) = true
         /\ 2 * n + 1 <> 2 * Z.of_nat (size (contexts s)))%Z
      /\ (generateDocumentUniqueId env = inl 0%Z ->
            createDataStoreId env s = (Returned (encodeCompactIdToString env 1), s))
      /\ (forall uuid, generateDocumentUniqueId env = inr uuid ->
            createDataStoreId env s = (Returned uuid, s))).
Proof.
  unfold createDataStoreId, DataStoreContexts.size. split.
  - intros ->. split; [reflexivity |]. by rewrite Z.even_mul.
  - intros Hattached. rewrite bool_decide_eq_false_2 by exact Hattached.
    split; [| split].
    + intros n ->. split; [reflexivity |]. split; [| lia].
      rewrite Z.add_comm, Z.odd_add_mul_2. reflexivity.
    + intros ->. reflexivity.
    + intros uuid ->. reflexivity.
Qed.

Lemma createDataStoreId_namespaces_witness :
  createDataStoreId (sampleEnv Detached []) oneStore = (Returned "2", oneStore)
  /\ createDataStoreId (sampleEnv Attached []) emptyState = (Returned "1", emptyState)
  /\ createDataStoreId (sampleEnvWithUuid "0f8fad5b-d9cb-469f-a165-70867728950e") emptyState
     = (Returned "0f8fad5b-d9cb-469f-a165-70867728950e", emptyState).
Proof.
  split; [| split].
  - destruct (createDataStoreId_namespaces (sampleEnv Detached []) oneStore) as [Hdetached _].
    destruct (Hdetached eq_refl) as [-> _]. reflexivity.
  - destruct (createDataStoreId_namespaces (sampleEnv Attached []) emptyState) as [_ Hattached].
    destruct (Hattached ltac:(discriminate)) as (_ & Hfirst & _).
    rewrite (Hfirst eq_refl). reflexivity.
  - destruct (createDataStoreId_namespaces
                (sampleEnvWithUuid "0f8fad5b-d9cb-469f-a165-70867728950e") emptyState)
      as [_ Hattached].
    destruct (Hattached ltac:(discriminate)) as (_ & _ & Huuid).
    apply Huuid. reflexivity.
Defined.

(** C9. [waitIfPendingAlias] on an alias without an entry in the pending-alias
    map resolves to "Success"; on an alias with an entry it is that entry's
    promise. *)
Theorem waitIfPendingAlias_spec s maybeAlias :
  (pendingAliasMap s !! maybeAlias = None ->
     waitIfPendingAlias maybeAlias s = Resolved Success)
  /\ (forall promise, pendingAliasMap s !! maybeAlias = Some promise ->
        waitIfPendingAlias maybeAlias s = promise).
Proof.
  unfold waitIfPendingAlias. split.
  - intros ->. reflexivity.
  - intros promise ->. reflexivity.
Qed.

Lemma waitIfPendingAlias_spec_witness :
  waitIfPendingAlias "root" emptyState = Resolved Success
  /\ waitIfPendingAlias "other" onePendingAlias = Resolved Success
  /\ waitIfPendingAlias "root" onePendingAlias = Pending 0.
Proof.
  split; [| split].
  - apply (proj1 (waitIfPendingAlias_spec emptyState "root")). reflexivity.
  - apply (proj1 (waitIfPendingAlias_spec onePendingAlias "other")). reflexivity.
  - apply (proj2 (waitIfPendingAlias_spec onePendingAlias "root")). reflexivity.
Defined.

(** X1. An op that the inner channel of store [id] submits through its
    wrapped context comes back to that store: processing the submitted
    message delivers the same type and content to the context [id] and then
    notifies GC that "/id" changed, whenever the store still has a context
    and is not deleted. *)
Theorem wrapped_submit_process_round_trip env s id type content local meta callback :
  is_Some (contexts s !! id) ->
  isDataStoreDeleted env ("/" +:+ id) = false ->
  let message :=
    FluidDataStoreOp {| address := id; inner_type := type; inner_content := content |} in
  let s1 := logged (SubmitMessage message) s in
  wrapContextForInnerChannel_submitMessage id type content s = (Returned tt, s1)
  /\ exists s2 reported,
       process env message local meta callback s1 = (Returned tt, s2)
       /\ sameTables s s2
       /\ trace s2 = trace s1 ++ [ContextProcess id type content local;
                                  GcNodeUpdated ("/" +:+ id) "Changed"] ++ reported
       /\ forall e, e ∈ reported -> exists src dst, e = AddedOutboundReference src dst.
Proof.
  intros [c Hc] Hdeleted message s1. split; [reflexivity |].
  unfold process, bind. cbn [message address inner_type inner_content].
  rewrite processChannelOp_eq, Hdeleted. simpl. rewrite Hc.
  destruct (negb (bool_decide (detectOutboundRoutesViaDDSKey env = Some true)) && callback).
  - rewrite forEach_emit. eexists. eexists. split; [reflexivity |].
    split; [by repeat split |]. split.
    + simpl. rewrite <- !app_assoc. reflexivity.
    + intros e He. apply list_elem_of_fmap in He as (r & -> & _). by eexists _, _.
  - eexists. exists []. split; [reflexivity |]. split; [by repeat split |]. split.
    + simpl. by rewrite <- !app_assoc.
    + intros e He. by apply elem_of_nil in He.
Qed.

Lemma wrapped_submit_process_round_trip_witness :
  exists s2,
    process (sampleEnv Attached [])
      (FluidDataStoreOp {| address := "1"; inner_type := "op"; inner_content := s4_content |})
      true None true
      (snd (wrapContextForInnerChannel_submitMessage "1" "op" s4_content oneStore))
    = (Returned tt, s2)
    /\ ContextProcess "1" "op" s4_content true ∈ trace s2.
Proof.
  destruct (wrapped_submit_process_round_trip (sampleEnv Attached []) oneStore "1" "op"
              s4_content true None true)
    as (Hsubmit & s2 & reported & Hprocess & _ & Htrace2 & _).
  - eexists. reflexivity.
  - reflexivity.
  - rewrite Hsubmit. exists s2. split; [exact Hprocess |]. rewrite Htrace2.
    apply elem_of_app. right. by left.
Defined.

(** X2. The deleted-store policy of the channel-op entry points. When GC
    reports the addressed store deleted, each entry point logs one
    GC_Deleted_DataStore_Changed error naming itself and makes no call on the
    context: the inbound paths (op, stashed op, signal) drop the message and
    return, the local-change paths (resubmit, rollback) throw the
    DataCorruptionError "Context is deleted!". *)
Theorem deleted_store_policy env s envelope local :
  isDataStoreDeleted env ("/" +:+ address envelope) = true ->
  let a := address envelope in
  let known := is_defined (contexts s !! a) in
  let after callSite := logged (SendEvent (deletedDataStoreEvent a callSite known)) s in
  processChannelOp env a (inner_type envelope) (inner_content envelope) local s
  = (Returned tt, after "processFluidDataStoreOp")
  /\ applyStashedChannelChannelOp env envelope s = (Returned None, after "applyStashedOp")
  /\ processSignal env {| signal_address := a; signal_contents := inner_content envelope |}
       local s
     = (Returned None, after "processSignal")
  /\ reSubmitChannelOp env envelope s
     = (Thrown (DataCorruptionError "Context is deleted!"), after "resubmitDataStoreOp")
  /\ rollback env (FluidDataStoreOp envelope) s
     = (Thrown (DataCorruptionError "Context is deleted!"), after "rollbackDataStoreOp").
Proof.
  intros Hdeleted a known after. subst a known after.
  unfold processChannelOp, applyStashedChannelChannelOp, processSignal, reSubmitChannelOp,
    rollback, checkAndLogIfDeleted, DataStoreContexts.get.
  monad. rewrite Hdeleted. simpl. repeat split; reflexivity.
Qed.

Lemma deleted_store_policy_witness :
  let envelope := {| address := "3"; inner_type := "op"; inner_content := JNull |} in
  fst (processChannelOp (sampleEnv Attached ["/3"]) "3" "op" JNull false storeThree)
  = Returned tt
  /\ fst (reSubmitChannelOp (sampleEnv Attached ["/3"]) envelope storeThree)
     = Thrown (DataCorruptionError "Context is deleted!").
Proof.
  intros envelope.
  destruct (deleted_store_policy (sampleEnv Attached ["/3"]) storeThree envelope false eq_refl)
    as (Hop & _ & _ & Hresubmit & _).
  cbn [address inner_type inner_content envelope] in Hop, Hresubmit.
  rewrite Hop. fold envelope in Hresubmit. rewrite Hresubmit. split; reflexivity.
Defined.

(** X3. The missing-context policy of the channel-op entry points. When the
    addressed store is not deleted and has no context: processing the op
    throws the DataProcessingError "No context for op"; resubmit, rollback and
    applying a stashed op fail their assertions (0x160, 0x2e8, 0x161); a
    remote signal is dropped with a SignalFluidDataStoreNotFound event and a
    local signal fails assertion 0x163. Apart from that event the state is
    untouched. *)
Theorem missing_context_policy env s envelope local :
  isDataStoreDeleted env ("/" +:+ address envelope) = false ->
  contexts s !! address envelope = None ->
  let a := address envelope in
  let signal := {| signal_address := a; signal_contents := inner_content envelope |} in
  processChannelOp env a (inner_type envelope) (inner_content envelope) local s
  = (Thrown (DataProcessingError "No context for op"), s)
  /\ reSubmitChannelOp env envelope s = (Thrown (AssertionError "0x160"), s)
  /\ rollback env (FluidDataStoreOp envelope) s = (Thrown (AssertionError "0x2e8"), s)
  /\ applyStashedChannelChannelOp env envelope s = (Thrown (AssertionError "0x161"), s)
  /\ processSignal env signal true s = (Thrown (AssertionError "0x163"), s)
  /\ exists e,
       processSignal env signal false s = (Returned None, logged (SendEvent e) s)
       /\ eventName e = "SignalFluidDataStoreNotFound" /\ category e = "generic".
Proof.
  intros Hdeleted Hnone a signal. subst a signal.
  unfold processChannelOp, applyStashedChannelChannelOp, processSignal, reSubmitChannelOp,
    rollback, checkAndLogIfDeleted, DataStoreContexts.get.
  monad. rewrite Hdeleted, Hnone. simpl.
  repeat split; try reflexivity. eexists. repeat split; reflexivity.
Qed.

Lemma missing_context_policy_witness :
  processSignal (sampleEnv Attached [])
    {| signal_address := "9"; signal_contents := JNull |} true storeThree
  = (Thrown (AssertionError "0x163"), storeThree)
  /\ fst (processSignal (sampleEnv Attached [])
            {| signal_address := "9"; signal_contents := JNull |} false storeThree)
     = Returned None.
Proof.
  destruct (missing_context_policy (sampleEnv Attached []) storeThree
              {| address := "9"; inner_type := "op"; inner_content := JNull |} false
              eq_refl eq_refl)
    as (_ & _ & _ & _ & Hlocal & e & Hremote & _).
  cbn [address inner_content] in Hlocal, Hremote.
  split; [exact Hlocal |]. by rewrite Hremote.
Defined.

(** With a context for the addressed store and the store not deleted,
    resubmit, applying a stashed op and a signal each make exactly one call on
    that context, with the type and content of the envelope unchanged, and
    leave the state as it was; rollback records its call and changes nothing
    else. *)
Lemma channel_op_forwarding env s envelope local :
  isDataStoreDeleted env ("/" +:+ address envelope) = false ->
  is_Some (contexts s !! address envelope) ->
  let a := address envelope in
  reSubmitChannelOp env envelope s
  = (Returned (ContextReSubmit a (inner_type envelope) (inner_content envelope)), s)
  /\ reSubmit env (FluidDataStoreOp envelope) s
     = (Returned (Some (ContextReSubmit a (inner_type envelope) (inner_content envelope))), s)
  /\ applyStashedOp env (FluidDataStoreOp envelope) s
     = (Returned (Some (ContextApplyStashedOp a (inner_type envelope) (inner_content envelope))),
        s)
  /\ processSignal env {| signal_address := a; signal_contents := inner_content envelope |}
       local s
     = (Returned (Some (ContextProcessSignal a (inner_content envelope) local)), s)
  /\ rollback env (FluidDataStoreOp envelope) s
     = (Returned tt,
        logged (ContextRollback a (inner_type envelope) (inner_content envelope)) s).
Proof.
  intros Hdeleted [c Hc] a. subst a.
  unfold reSubmit, applyStashedOp, applyStashedChannelChannelOp, processSignal,
    reSubmitChannelOp, rollback, checkAndLogIfDeleted, DataStoreContexts.get.
  monad. rewrite Hdeleted, Hc. simpl.
  repeat split; reflexivity.
Qed.


(** X4. The channel-op entry points never change the tables of the
    collection (contexts, unbound partition, alias map, pending-attach map,
    attach-op-fired set, pending-alias map), whether they return or throw:
    processing, resubmitting, rolling back and applying a stashed channel op,
    and processing a signal at most add to the calls recorded. *)
Theorem channel_ops_keep_tables env s envelope signal message local meta callback :
  sameTables s (snd (process env (FluidDataStoreOp envelope) local meta callback s))
  /\ sameTables s (snd (reSubmit env message s))
  /\ sameTables s (snd (rollback env message s))
  /\ sameTables s (snd (applyStashedChannelChannelOp env envelope s))
  /\ sameTables s (snd (processSignal env signal local s)).
Proof.
  split; [| split; [| split; [| split]]].
  - unfold process, bind. rewrite processChannelOp_eq.
    destruct (isDataStoreDeleted env _); [| destruct (contexts s !! address envelope)];
      try (destruct (negb _ && callback); [rewrite forEach_emit |]); by repeat split.
  - destruct message as [m | c | e | t]; try by repeat split.
    unfold reSubmit, reSubmitChannelOp, checkAndLogIfDeleted, DataStoreContexts.get. monad.
    destruct (isDataStoreDeleted env _); [| destruct (contexts s !! address e)];
      by repeat split.
  - destruct message as [m | c | e | t]; try by repeat split.
    unfold rollback, checkAndLogIfDeleted, DataStoreContexts.get. monad.
    destruct (isDataStoreDeleted env _); [| destruct (contexts s !! address e)];
      by repeat split.
  - unfold applyStashedChannelChannelOp, checkAndLogIfDeleted, DataStoreContexts.get. monad.
    destruct (isDataStoreDeleted env _); [| destruct (contexts s !! address envelope)];
      by repeat split.
  - unfold processSignal, checkAndLogIfDeleted, DataStoreContexts.get. monad.
    destruct (isDataStoreDeleted env _);
      [| destruct (contexts s !! signal_address signal); [| destruct local]];
      by repeat split.
Qed.

Lemma makeDataStoreLocallyVisible_eq env s id c :
  parentAttachState env <> Detached ->
  id ∈ notBoundContexts s ->
  contexts s !! id = Some c ->
  attachState c <> Attached ->
  makeDataStoreLocallyVisible env id s =
  (Returned tt,
   set_notBoundContexts (fun u => u ∖ {[id]})
     (set_attachOpFiredForDataStore (fun f => {[id]} ∪ f)
        (logged (SubmitMessage (Attach (generateAttachMessage env id c)))
           (set_pendingAttach (insert id (generateAttachMessage env id c))
              (set_contexts (insert id (set_attachState Attaching c)) s))))).
Proof.
  intros Hattached Hunbound Hc Hstate.
  unfold makeDataStoreLocallyVisible, DataStoreContexts.getUnbound.
  unfold bind at 1.
  rewrite bool_decide_eq_true_2 by exact Hunbound. rewrite Hc.
  rewrite bool_decide_eq_true_2 by exact Hattached.
  unfold FluidDataStoreContext.setAttachState, submitAttachChannelOp, DataStoreContexts.bind.
  monad. rewrite Hc.
  assert ((FluidDataStoreContext.rank (attachState c) <=? 1)%nat = true) as ->.
  { by destruct (attachState c). }
  simpl. rewrite bool_decide_eq_true_2 by exact Hunbound. reflexivity.
Qed.

Lemma local_ack_eq env s message :
  is_Some (pendingAttach s !! am_id message) ->
  exists s0,
    sameTables s s0
    /\ processAttachMessage env message true s =
       (Returned tt,
        set_pendingAttach (delete (am_id message))
          (match contexts s !! am_id message with
           | Some c => set_contexts (insert (am_id message) (set_attachState Attached c)) s0
           | None => s0
           end)).
Proof.
  intros [pm Hpending].
  destruct (processAttachMessage_prologue env message true s) as (s0 & Hsame & ->).
  pose proof Hsame as (Hctx & _ & _ & Hp & _).
  exists s0. split; [exact Hsame |].
  unfold attachCommit, FluidDataStoreContext.setAttachState. monad.
  rewrite Hp, Hpending. simpl. rewrite Hctx.
  destruct (contexts s !! am_id message) as [c |]; simpl; [| reflexivity].
  assert ((FluidDataStoreContext.rank (attachState c) <=? 2)%nat = true) as ->.
  { by destruct (attachState c). }
  reflexivity.
Qed.

(** X5. The ack of a local Attach op is accepted whenever its id is in the
    pending-attach map, whatever became of the context: it never throws, it
    removes the entry and changes no other entry, a context that still exists
    ends Attached, and a context that was deleted in between is not brought
    back. After the deletion of a store that waited for its ack, the ack thus
    restores the pending-attach invariant. *)
Theorem local_ack_always_accepted env s message :
  is_Some (pendingAttach s !! am_id message) ->
  exists s',
    processAttachMessage env message true s = (Returned tt, s')
    /\ pendingAttach s' = delete (am_id message) (pendingAttach s)
    /\ (forall c, contexts s !! am_id message = Some c ->
          contexts s' = <[am_id message := set_attachState Attached c]> (contexts s))
    /\ (contexts s !! am_id message = None -> contexts s' = contexts s)
    /\ ((forall j, j <> am_id message ->
           is_Some (pendingAttach s !! j) <->
           exists c, contexts s !! j = Some c /\ attachState c = Attaching
                     /\ parentAttachState env <> Detached) ->
        pendingAttachInvariant env s').
Proof.
  intros Hpending.
  destruct (local_ack_eq env s message Hpending) as (s0 & (Hctx & _ & _ & Hp & _) & Heq).
  eexists. split; [exact Heq |].
  assert (forall x : State,
            pendingAttach (match contexts s !! am_id message with
                           | Some c => set_contexts (insert (am_id message)
                                                       (set_attachState Attached c)) s0
                           | None => s0
                           end) = pendingAttach s) as Hsame.
  { intros _. by destruct (contexts s !! am_id message). }
  split; [| split; [| split]].
  - simpl. by rewrite (Hsame s).
  - intros c Hc. rewrite Hc. simpl. by rewrite Hctx.
  - intros Hc. rewrite Hc. simpl. exact Hctx.
  - intros Hothers j. simpl. rewrite (Hsame s).
    destruct (decide (j = am_id message)) as [-> | Hne].
    + rewrite lookup_delete_eq. split; [intros [x Hx]; discriminate |].
      intros (c' & Hc' & Hstate & _). exfalso.
      destruct (contexts s !! am_id message) as [c |] eqn:Hc; simpl in Hc'.
      * rewrite lookup_insert_eq in Hc'. inversion Hc'; subst c'. discriminate.
      * rewrite Hctx, Hc in Hc'. discriminate.
    + rewrite lookup_delete_ne by done.
      assert (contexts (match contexts s !! am_id message with
                        | Some c => set_contexts (insert (am_id message)
                                                    (set_attachState Attached c)) s0
                        | None => s0
                        end) !! j = contexts s !! j) as ->.
      { destruct (contexts s !! am_id message); simpl; rewrite ?Hctx;
          [by rewrite lookup_insert_ne | done]. }
      by apply Hothers.
Qed.

Lemma local_ack_always_accepted_witness :
  let env := sampleEnv Attached [] in
  let swept := snd (deleteSweepReadyNodes env ["/1"] oneAttachingStore) in
  let message := {| am_id := "1"; am_type := "pkg"; am_snapshot := None |} in
  exists s',
    processAttachMessage env message true swept = (Returned tt, s')
    /\ pendingAttach s' !! "1" = None
    /\ contexts s' !! "1" = None
    /\ pendingAttachInvariant env s'.
Proof.
  intros env swept message.
  destruct (local_ack_always_accepted env swept message)
    as (s' & Hack & Hpending & _ & Hcontexts & Hinvariant).
  - eexists. reflexivity.
  - exists s'. split; [exact Hack |]. split; [| split].
    + rewrite Hpending. apply lookup_delete_eq.
    + rewrite Hcontexts; reflexivity.
    + apply Hinvariant. intros j Hj.
      assert (contexts swept = ∅) as -> by reflexivity.
      assert (pendingAttach swept
              = {["1" := generateAttachMessage env "1"
                           (newLocalContext LocalFluidDataStoreContext ["pkg"])]}) as ->
        by reflexivity.
      rewrite lookup_singleton_ne by done. rewrite lookup_empty. split.
      * intros [x Hx]. discriminate.
      * intros (c & Hc & _). discriminate.
Defined.

(** X6. Resubmitting and rolling back the Attach op of a store that was made
    visible in a container that is not detached. Resubmit hands the same
    message to the parent again and leaves the pending-attach entry in place,
    so the ack is still accepted afterwards: the store ends Attached and the
    entry is gone. Rollback of the Attach op is not supported: it fails
    assertion 0x8e8 and the store stays bound, Attaching and pending. *)
Theorem attach_resubmit_and_rollback env env' s id c :
  parentAttachState env <> Detached ->
  id ∈ notBoundContexts s ->
  contexts s !! id = Some c ->
  attachState c = Detached ->
  let message := generateAttachMessage env id c in
  exists s1,
    makeDataStoreLocallyVisible env id s = (Returned tt, s1)
    /\ reSubmit env (Attach message) s1
       = (Returned None, logged (SubmitMessage (Attach message)) s1)
    /\ trace (logged (SubmitMessage (Attach message)) s1)
       = trace s ++ [SubmitMessage (Attach message); SubmitMessage (Attach message)]
    /\ (exists s3,
          processAttachMessage env' message true (logged (SubmitMessage (Attach message)) s1)
          = (Returned tt, s3)
          /\ contexts s3 !! id = Some (set_attachState Attached c)
          /\ pendingAttach s3 !! id = None)
    /\ rollback env (Attach message) s1 = (Thrown (AssertionError "0x8e8"), s1)
    /\ pendingAttach s1 !! id = Some message
    /\ contexts s1 !! id = Some (set_attachState Attaching c)
    /\ id ∉ notBoundContexts s1.
Proof.
  intros Hattached Hunbound Hc Hdetached message.
  eexists. split.
  { apply (makeDataStoreLocallyVisible_eq env s id c); try done.
    rewrite Hdetached. discriminate. }
  fold message.
  split; [reflexivity |]. split; [simpl; by rewrite <- app_assoc |]. split.
  - match goal with |- exists s3, processAttachMessage _ _ _ ?s2 = _ /\ _ =>
      destruct (local_ack_eq env' s2 message) as (s0 & (Hctx & _ & _ & Hp & _) & ->)
    end.
    { simpl. rewrite lookup_insert_eq. by eexists. }
    simpl. rewrite lookup_insert_eq. eexists. split; [reflexivity |]. simpl.
    rewrite Hctx, Hp. simpl. by rewrite lookup_insert_eq, lookup_delete_eq.
  - split; [reflexivity |]. simpl. rewrite !lookup_insert_eq.
    split; [reflexivity |]. split; [reflexivity |].
    intros Hin. apply elem_of_difference in Hin as [_ Hnot]. apply Hnot.
    by apply elem_of_singleton.
Qed.

Lemma attach_resubmit_and_rollback_witness :
  let env := sampleEnv Attached [] in
  let message := {| am_id := "1"; am_type := "pkg"; am_snapshot := Some emptyTree |} in
  rollback env (Attach message) oneAttachingStore
  = (Thrown (AssertionError "0x8e8"), oneAttachingStore)
  /\ pendingAttach oneAttachingStore !! "1" = Some message
  /\ exists s3,
       processAttachMessage env message true
         (snd (reSubmit env (Attach message) oneAttachingStore))
       = (Returned tt, s3)
       /\ pendingAttach s3 !! "1" = None.
Proof.
  intros env message.
  destruct (attach_resubmit_and_rollback env env oneUnboundStore "1"
              (newLocalContext LocalFluidDataStoreContext ["pkg"]))
    as (s1 & Hvisible & Hresubmit & _ & (s3 & Hack & _ & Hgone) & Hrollback & Hpending & _).
  - discriminate.
  - vm_compute. reflexivity.
  - reflexivity.
  - reflexivity.
  - assert (s1 = oneAttachingStore) as ->.
    { change oneAttachingStore with (snd (makeDataStoreLocallyVisible env "1" oneUnboundStore)).
      by rewrite Hvisible. }
    split; [exact Hrollback |]. split; [exact Hpending |].
    exists s3. split; [| exact Hgone]. change (Attach message) with
      (Attach (generateAttachMessage env "1" (newLocalContext LocalFluidDataStoreContext ["pkg"]))).
    rewrite Hresubmit. exact Hack.
Defined.

(** X7. Applying stashed ops. A stashed Attach op for an id without a context
    adds a bound local context under that id; in a container that is not
    detached it also records the op as pending, so that its ack is accepted
    and leaves the context Attached and the entry gone; in a detached
    container nothing is recorded as pending. For an id that already has a
    context it fails assertion 0x15d and changes nothing. A stashed Alias op is
    dropped without any effect, and an unknown op type fails assertion
    0x908. *)
Theorem applyStashedOp_spec env env' s message :
  (forall snapshot,
     am_snapshot message = Some snapshot ->
     contexts s !! am_id message = None ->
     exists s1 c,
       applyStashedOp env (Attach message) s = (Returned None, s1)
       /\ contexts s1 = <[am_id message := c]> (contexts s)
       /\ kind c = LocalFluidDataStoreContext
       /\ notBoundContexts s1 = notBoundContexts s
       /\ trace s1 = trace s
       /\ (parentAttachState env = Detached -> pendingAttach s1 = pendingAttach s)
       /\ (parentAttachState env <> Detached ->
             pendingAttach s1 = <[am_id message := message]> (pendingAttach s)
             /\ exists s2,
                  processAttachMessage env' message true s1 = (Returned tt, s2)
                  /\ contexts s2 !! am_id message = Some (set_attachState Attached c)
                  /\ pendingAttach s2 !! am_id message = None))
  /\ (forall snapshot,
        am_snapshot message = Some snapshot ->
        is_Some (contexts s !! am_id message) ->
        applyStashedOp env (Attach message) s = (Thrown (AssertionError "0x15d"), s))
  /\ (forall contents, applyStashedOp env (Alias contents) s = (Returned None, s))
  /\ (forall type, applyStashedOp env (OtherMessage type) s
                   = (Thrown (AssertionError "0x908"), s)).
Proof.
  split; [| split; [| split]]; try reflexivity.
  - intros snapshot Hsnapshot Hnone.
    unfold applyStashedOp, applyStashedAttachOp, DataStoreContexts.addBoundOrRemoted.
    rewrite Hsnapshot. monad. rewrite Hnone. simpl.
    destruct (bool_decide (parentAttachState env ≠ Detached)) eqn:Hparent; simpl.
    + apply bool_decide_eq_true in Hparent.
      eexists. eexists. split; [reflexivity |]. simpl.
      split; [reflexivity |]. split; [reflexivity |]. split; [reflexivity |].
      split; [reflexivity |]. split; [done |]. intros _. split; [reflexivity |].
      match goal with |- exists s2, processAttachMessage _ _ _ ?s1 = _ /\ _ =>
        destruct (local_ack_eq env' s1 message) as (s0 & (Hctx & _ & _ & Hp & _) & ->)
      end.
      { simpl. rewrite lookup_insert_eq. by eexists. }
      simpl. rewrite lookup_insert_eq. eexists. split; [reflexivity |]. simpl.
      rewrite Hctx, Hp. simpl. by rewrite lookup_insert_eq, lookup_delete_eq.
    + apply bool_decide_eq_false in Hparent.
      eexists. eexists. split; [reflexivity |]. simpl.
      split; [reflexivity |]. split; [reflexivity |]. split; [reflexivity |].
      split; [reflexivity |]. split; [done |]. intros Hne. exfalso. apply Hparent. exact Hne.
  - intros snapshot Hsnapshot [c Hc].
    unfold applyStashedOp, applyStashedAttachOp, DataStoreContexts.addBoundOrRemoted.
    rewrite Hsnapshot. monad. by rewrite Hc.
Qed.

Lemma applyStashedOp_spec_witness :
  let env := sampleEnv Attached [] in
  let message := {| am_id := "5"; am_type := "pkg"; am_snapshot := Some emptyTree |} in
  (exists s1 s2,
     applyStashedOp env (Attach message) oneStore = (Returned None, s1)
     /\ pendingAttach s1 !! "5" = Some message
     /\ processAttachMessage env message true s1 = (Returned tt, s2)
     /\ (attachState <$> contexts s2 !! "5") = Some Attached
     /\ pendingAttach s2 !! "5" = None)
  /\ applyStashedOp env
       (Attach {| am_id := "1"; am_type := "pkg"; am_snapshot := Some emptyTree |}) oneStore
     = (Thrown (AssertionError "0x15d"), oneStore).
Proof.
  intros env message. split.
  - destruct (applyStashedOp_spec env env oneStore message) as (Hnew & _).
    destruct (Hnew emptyTree eq_refl eq_refl)
      as (s1 & c & Hstash & _ & _ & _ & _ & _ & Hattached).
    destruct (Hattached ltac:(discriminate)) as (Hpending & s2 & Hack & Hctx & Hgone).
    change (am_id message) with "5" in Hpending, Hctx, Hgone.
    exists s1, s2. split; [exact Hstash |]. split.
    + rewrite Hpending. apply lookup_insert_eq.
    + split; [exact Hack |]. split; [by rewrite Hctx | exact Hgone].
  - destruct (applyStashedOp_spec env env oneStore
                {| am_id := "1"; am_type := "pkg"; am_snapshot := Some emptyTree |})
      as (_ & Hknown & _).
    apply (Hknown emptyTree eq_refl). eexists. reflexivity.
Defined.

Lemma notifyIfRoot_eq id s :
  notifyIfRoot id s =
  match contexts s !! id with
  | None => (Thrown (AssertionError "0x2b6"), s)
  | Some c =>
      if root c then
        (Returned tt,
         logged (AddedGCOutboundReference ContainerRuntimeHandle (DataStoreHandle id)) s)
      else (Returned tt, s)
  end.
Proof.
  unfold notifyIfRoot, DataStoreContexts.get. monad.
  destruct (contexts s !! id) as [c |]; [| reflexivity]. by destruct (root c).
Qed.

(** The outbound references [updateStateBeforeGC] reports for a list of ids. *)
Lemma forEach_notifyIfRoot ids : forall s,
  (forall id, id ∈ ids -> is_Some (contexts s !! id)) ->
  forEach notifyIfRoot ids s =
  (Returned tt,
   set_trace (fun t => t ++ omap (fun id =>
                                    match contexts s !! id with
                                    | Some c =>
                                        if root c then
                                          Some (AddedGCOutboundReference ContainerRuntimeHandle
                                                  (DataStoreHandle id))
                                        else None
                                    | None => None
                                    end) ids) s).
Proof.
  induction ids as [| id ids IH]; intros s Hall; simpl.
  - unfold ret. by rewrite set_trace_id.
  - destruct (Hall id) as [c Hc]; [by left |].
    unfold bind at 1. rewrite notifyIfRoot_eq, Hc.
    destruct (root c).
    + rewrite IH by (intros j Hj; simpl; apply Hall; by right).
      unfold logged, set_trace. simpl. by rewrite <- app_assoc.
    + rewrite IH by (intros j Hj; apply Hall; by right). reflexivity.
Qed.

Lemma forEach_notifyIfRoot_missing ids : forall s,
  (exists id, id ∈ ids /\ contexts s !! id = None) ->
  exists s',
    forEach notifyIfRoot ids s = (Thrown (AssertionError "0x2b6"), s')
    /\ dataStoresSinceLastGC s' = dataStoresSinceLastGC s
    /\ sameTables s s'.
Proof.
  induction ids as [| id ids IH]; intros s (j & Hj & Hnone).
  - by apply elem_of_nil in Hj.
  - simpl. unfold bind at 1. rewrite notifyIfRoot_eq.
    destruct (contexts s !! id) as [c |] eqn:Hc.
    + assert (j ∈ ids) as Hin.
      { apply elem_of_cons in Hj as [-> | Hj]; [congruence | exact Hj]. }
      destruct (root c).
      * destruct (IH (logged (AddedGCOutboundReference ContainerRuntimeHandle
                                (DataStoreHandle id)) s))
          as (s' & -> & Hlist & Hsame); [by exists j |].
        exists s'. split; [reflexivity |]. split; [exact Hlist | exact Hsame].
      * destruct (IH s) as (s' & -> & Hlist & Hsame); [by exists j |].
        exists s'. split; [reflexivity |]. split; [exact Hlist | exact Hsame].
    + exists s. by repeat split.
Qed.

(** X8. [updateStateBeforeGC]. When every id recorded since the last GC run
    still has a context, it reports one outbound reference from the container
    handle to each recorded store that is root, in the order of recording,
    and clears the record; the tables are untouched. When a recorded id has no
    context any more (the store was deleted in between), it fails assertion
    0x2b6 and the record is not cleared. *)
Theorem updateStateBeforeGC_spec s :
  ((forall id, id ∈ dataStoresSinceLastGC s -> is_Some (contexts s !! id)) ->
     exists s',
       updateStateBeforeGC s = (Returned tt, s')
       /\ dataStoresSinceLastGC s' = []
       /\ sameTables s s'
       /\ trace s' = trace s ++
            omap (fun id =>
                    match contexts s !! id with
                    | Some c =>
                        if root c then
                          Some (AddedGCOutboundReference ContainerRuntimeHandle
                                  (DataStoreHandle id))
                        else None
                    | None => None
                    end) (dataStoresSinceLastGC s))
  /\ ((exists id, id ∈ dataStoresSinceLastGC s /\ contexts s !! id = None) ->
      exists s',
        updateStateBeforeGC s = (Thrown (AssertionError "0x2b6"), s')
        /\ dataStoresSinceLastGC s' = dataStoresSinceLastGC s
        /\ sameTables s s').
Proof.
  unfold updateStateBeforeGC. unfold bind at 1 3. unfold getState. split.
  - intros Hall. unfold bind. rewrite (forEach_notifyIfRoot _ s Hall).
    eexists. split; [reflexivity |]. by repeat split.
  - intros Hmissing. unfold bind.
    destruct (forEach_notifyIfRoot_missing _ s Hmissing) as (s' & -> & Hlist & Hsame).
    exists s'. split; [reflexivity |]. split; [exact Hlist | exact Hsame].
Qed.

Lemma updateStateBeforeGC_spec_witness :
  let env := sampleEnv Attached [] in
  let message := {| am_id := "3"; am_type := "pkg"; am_snapshot := None |} in
  let attached := snd (processAttachMessage env message false emptyState) in
  (exists s',
     updateStateBeforeGC attached = (Returned tt, s')
     /\ dataStoresSinceLastGC s' = []
     /\ AddedGCOutboundReference ContainerRuntimeHandle (DataStoreHandle "3") ∈ trace s')
  /\ (exists s',
        updateStateBeforeGC (snd (deleteChild "3" attached))
        = (Thrown (AssertionError "0x2b6"), s')
        /\ dataStoresSinceLastGC s' = ["3"]).
Proof.
  intros env message attached. split.
  - destruct (updateStateBeforeGC_spec attached) as [Hall _].
    destruct Hall as (s' & Hrun & Hcleared & _ & Htrace).
    + intros id Hid. apply list_elem_of_singleton in Hid. subst id. eexists. reflexivity.
    + exists s'. split; [exact Hrun |]. split; [exact Hcleared |].
      rewrite Htrace. apply elem_of_app. right. by left.
  - destruct (updateStateBeforeGC_spec (snd (deleteChild "3" attached))) as [_ Hmissing].
    destruct Hmissing as (s' & Hrun & Hlist & _).
    + exists "3". split; [by left | reflexivity].
    + exists s'. split; [exact Hrun |]. by rewrite Hlist.
Defined.

Lemma collectTombstoned_eq acc route s :
  collectTombstoned acc route s =
  if (2 <? length (split "/" route))%nat then (Returned acc, s)
  else
    match split "/" route !! 1%nat with
    | Some id =>
        if is_defined (contexts s !! id) then (Returned ({[id]} ∪ acc), s)
        else (Thrown (AssertionError "0x510"), s)
    | None => (Thrown (AssertionError "0x510"), s)
    end.
Proof.
  unfold collectTombstoned. destruct (2 <? length (split "/" route))%nat; [reflexivity |].
  monad. destruct (split "/" route !! 1%nat) as [id |]; [| reflexivity].
  by destruct (contexts s !! id).
Qed.

Lemma forEachInto_collectTombstoned routes s : forall acc,
  ((forall route, route ∈ routes -> (length (split "/" route) <= 2)%nat ->
      exists id, split "/" route !! 1%nat = Some id /\ is_Some (contexts s !! id)) ->
   exists result,
     forEachInto collectTombstoned acc routes s = (Returned result, s)
     /\ forall id, id ∈ result <->
          id ∈ acc \/ exists route, route ∈ routes /\ namesDataStore route id)
  /\ ((exists route, route ∈ routes /\ (length (split "/" route) <= 2)%nat
         /\ forall id, split "/" route !! 1%nat = Some id -> contexts s !! id = None) ->
      forEachInto collectTombstoned acc routes s = (Thrown (AssertionError "0x510"), s)).
Proof.
  induction routes as [| route routes IH]; intros acc.
  - split.
    + intros _. exists acc. split; [reflexivity |]. intros id. split; [by left |].
      intros [Hacc | (r & Hr & _)]; [exact Hacc | by apply elem_of_nil in Hr].
    + intros (r & Hr & _). by apply elem_of_nil in Hr.
  - simpl. unfold bind. rewrite collectTombstoned_eq.
    destruct (2 <? length (split "/" route))%nat eqn:Hlong.
    + apply Nat.ltb_lt in Hlong. destruct (IH acc) as [IHok IHbad]. split.
      * intros Hall. destruct IHok as (result & -> & Hresult).
        { intros r Hr. apply Hall. by right. }
        exists result. split; [reflexivity |]. intros id. rewrite Hresult.
        split; (intros [Hacc | (r & Hr & Hnames)]; [by left | right]).
        -- exists r. split; [by right | exact Hnames].
        -- apply elem_of_cons in Hr as [-> | Hr]; [| by exists r].
           destruct Hnames as [Hshort _]. lia.
      * intros (r & Hr & Hshort & Hnone). apply IHbad.
        apply elem_of_cons in Hr as [-> | Hr]; [lia |]. by exists r.
    + apply Nat.ltb_ge in Hlong.
      destruct (split "/" route !! 1%nat) as [id0 |] eqn:Hid.
      * destruct (contexts s !! id0) as [c |] eqn:Hc; simpl.
        -- destruct (IH ({[id0]} ∪ acc)) as [IHok IHbad]. split.
           ++ intros Hall. destruct IHok as (result & -> & Hresult).
              { intros r Hr. apply Hall. by right. }
              exists result. split; [reflexivity |]. intros id. rewrite Hresult.
              rewrite elem_of_union, elem_of_singleton. split.
              ** intros [[-> | Hacc] | (r & Hr & Hnames)].
                 --- right. exists route. split; [by left | by split].
                 --- by left.
                 --- right. exists r. split; [by right | exact Hnames].
              ** intros [Hacc | (r & Hr & Hnames)]; [left; by right |].
                 apply elem_of_cons in Hr as [-> | Hr]; [| right; by exists r].
                 destruct Hnames as [_ Hnames]. left. left. congruence.
           ++ intros (r & Hr & Hshort & Hnone). apply IHbad.
              apply elem_of_cons in Hr as [-> | Hr]; [| by exists r].
              specialize (Hnone id0 Hid). congruence.
        -- split; [| done]. intros Hall. exfalso.
           destruct (Hall route) as (id & Hid' & [c Hc']); [by left | exact Hlong |].
           congruence.
      * split; [| done]. intros Hall. exfalso.
        destruct (Hall route) as (id & Hid' & _); [by left | exact Hlong |]. congruence.
Qed.

(** X9. [updateTombstonedRoutes]. A route of more than two path parts is
    ignored. When every other route names a store that has a context, every
    context receives a [setTombstone] call, with true exactly when some route
    of the list names its store directly; sub-routes of a store alone do not
    tombstone it. When a route of at most two parts names no store with a
    context, the assertion 0x510 fails, no context having been called. The
    state is never changed. *)
Theorem updateTombstonedRoutes_spec routes s :
  ((forall route, route ∈ routes -> (length (split "/" route) <= 2)%nat ->
      exists id, split "/" route !! 1%nat = Some id /\ is_Some (contexts s !! id)) ->
   exists flags,
     updateTombstonedRoutes routes s = (Returned flags, s)
     /\ (forall id, is_Some (flags !! id) <-> is_Some (contexts s !! id))
     /\ (forall id, flags !! id = Some true <->
           is_Some (contexts s !! id)
           /\ exists route, route ∈ routes /\ namesDataStore route id)
     /\ (forall id, contains "/" id = false -> is_Some (contexts s !! id) ->
           "/" +:+ id ∈ routes -> flags !! id = Some true))
  /\ ((exists route, route ∈ routes /\ (length (split "/" route) <= 2)%nat
         /\ forall id, split "/" route !! 1%nat = Some id -> contexts s !! id = None) ->
      updateTombstonedRoutes routes s = (Thrown (AssertionError "0x510"), s)).
Proof.
  unfold updateTombstonedRoutes, bind.
  destruct (forEachInto_collectTombstoned routes s ∅) as [Hok Hbad]. split.
  - intros Hall. destruct (Hok Hall) as (result & -> & Hresult). monad.
    eexists. split; [reflexivity |].
    assert (forall id, id ∈ result <-> exists route, route ∈ routes /\ namesDataStore route id)
      as Hnames.
    { intros id. rewrite Hresult. split; [| by right].
      intros [Hempty | H]; [by apply not_elem_of_empty in Hempty | exact H]. }
    split; [| split].
    + intros id. rewrite map_lookup_imap. destruct (contexts s !! id); simpl.
      * split; intros _; by eexists.
      * split; intros [x Hx]; discriminate.
    + intros id. rewrite map_lookup_imap. destruct (contexts s !! id) as [c |]; simpl.
      * rewrite <- Hnames. split.
        -- intros H. inversion H as [Hb]. apply bool_decide_eq_true in Hb.
           split; [by eexists | exact Hb].
        -- intros [_ Hin]. by rewrite bool_decide_eq_true_2.
      * split; [discriminate |]. intros [[x Hx] _]. discriminate.
    + intros id Hid [c Hc] Hin. rewrite map_lookup_imap, Hc. simpl. f_equal.
      apply bool_decide_eq_true_2. apply Hnames. exists ("/" +:+ id). split; [exact Hin |].
      unfold namesDataStore. rewrite (split_data_store_route id Hid). split; [simpl; lia | done].
  - intros Hmissing. by rewrite (Hbad Hmissing).
Qed.

Lemma updateTombstonedRoutes_spec_witness :
  (exists flags,
     updateTombstonedRoutes ["/3"; "/1/dds"] (set_contexts (insert "1" (newLocalContext
                                                LocalFluidDataStoreContext ["pkg"])) storeThree)
     = (Returned flags, set_contexts (insert "1" (newLocalContext
                                        LocalFluidDataStoreContext ["pkg"])) storeThree)
     /\ flags !! "3" = Some true
     /\ flags !! "1" <> Some true)
  /\ updateTombstonedRoutes ["/9"] storeThree = (Thrown (AssertionError "0x510"), storeThree).
Proof.
  split.
  - destruct (updateTombstonedRoutes_spec ["/3"; "/1/dds"]
                (set_contexts (insert "1" (newLocalContext LocalFluidDataStoreContext ["pkg"]))
                   storeThree)) as [Hok _].
    destruct Hok as (flags & Hrun & _ & Htrue & Hdirect).
    + intros route Hroute Hshort.
      apply elem_of_cons in Hroute as [-> | Hroute].
      * exists "3". split; [reflexivity |]. eexists. reflexivity.
      * apply list_elem_of_singleton in Hroute. subst route. vm_compute in Hshort. lia.
    + exists flags. split; [exact Hrun |]. split.
      * apply (Hdirect "3"); [reflexivity | eexists; reflexivity | by left].
      * intros H1. apply Htrue in H1 as (_ & route & Hroute & Hshort & Hsecond).
        apply elem_of_cons in Hroute as [-> | Hroute].
        -- vm_compute in Hsecond. discriminate.
        -- apply list_elem_of_singleton in Hroute. subst route. vm_compute in Hshort. lia.
  - destruct (updateTombstonedRoutes_spec ["/9"] storeThree) as [_ Hbad].
    apply Hbad. exists "/9". split; [by left |]. split; [vm_compute; lia |].
    intros id Hid. vm_compute in Hid. inversion Hid; subst id. reflexivity.
Defined.

Lemma split_nonempty sep s : split sep s <> [].
Proof.
  destruct s as [| c s]; simpl; [discriminate |].
  destruct (bool_decide (c = sep)); [discriminate |]. by destruct (split sep s).
Qed.

Lemma split_segment sep a b :
  contains sep a = false -> split sep (a +:+ String sep b) = a :: split sep b.
Proof.
  induction a as [| c a IH]; simpl.
  - intros _. by rewrite bool_decide_eq_true_2.
  - intros H. apply orb_false_iff in H as [-> Hrest]. by rewrite (IH Hrest).
Qed.

Lemma split_sub_route id rest :
  contains "/" id = false ->
  split "/" ("/" +:+ id +:+ "/" +:+ rest) = "" :: id :: split "/" rest.
Proof.
  intros Hid. change ("/" +:+ id +:+ "/" +:+ rest) with (String "/"%char (id +:+ String "/"%char rest)).
  cbn [split]. rewrite bool_decide_eq_true_2 by reflexivity.
  by rewrite (split_segment _ _ _ Hid).
Qed.

Lemma sweepRoute_contexts env route s :
  (forall id, contexts s !! id = None -> contexts (snd (sweepRoute env route s)) !! id = None)
  /\ (forall id, contains "/" id = false -> route = "/" +:+ id ->
        contexts (snd (sweepRoute env route s)) !! id = None).
Proof.
  rewrite sweepRoute_eq. split.
  - intros id Hnone. destruct (2 <? length (split "/" route))%nat; [exact Hnone |].
    destruct (split "/" route !! 1%nat) as [j |]; [| exact Hnone].
    destruct (contexts s !! j) as [c |] eqn:Hc; [| exact Hnone].
    rewrite (deleteChild_tables s j) by (by eexists). simpl.
    destruct (decide (j = id)) as [-> | Hne]; [apply lookup_delete_eq |].
    by rewrite lookup_delete_ne.
  - intros id Hid ->. rewrite (split_data_store_route id Hid). simpl.
    destruct (contexts s !! id) as [c |] eqn:Hc; [| exact Hc].
    rewrite (deleteChild_tables s id) by (by eexists). simpl. apply lookup_delete_eq.
Qed.

Lemma deleteSweepReadyNodes_contexts env routes : forall s id,
  (contexts s !! id = None ->
     contexts (snd (deleteSweepReadyNodes env routes s)) !! id = None)
  /\ (contains "/" id = false -> "/" +:+ id ∈ routes ->
        contexts (snd (deleteSweepReadyNodes env routes s)) !! id = None).
Proof.
  unfold deleteSweepReadyNodes, bind. intros s.
  rewrite (forEach_returns (sweepRoute env) routes (sweepRoute_returns env)). simpl.
  revert s. induction routes as [| route routes IH]; intros s id; simpl.
  - split; [done |]. intros _ Hin. by apply elem_of_nil in Hin.
  - destruct (sweepRoute_contexts env route s) as [Hkeep Hgone].
    destruct (IH (snd (sweepRoute env route s)) id) as [IHkeep IHgone]. split.
    + intros Hnone. apply IHkeep. by apply Hkeep.
    + intros Hid Hin. apply elem_of_cons in Hin as [<- | Hin].
      * apply IHkeep. by apply Hgone.
      * by apply IHgone.
Qed.

Lemma getGCNodeType_data_store s id :
  contains "/" id = false ->
  getGCNodeType ("/" +:+ id) s
  = (if is_defined (contexts s !! id) then Some DataStore else None)
  /\ forall rest,
       getGCNodeType ("/" +:+ id +:+ "/" +:+ rest) s
       = if is_defined (contexts s !! id) then Some SubDataStore else None.
Proof.
  intros Hid. unfold getGCNodeType. split.
  - rewrite (split_data_store_route id Hid). simpl. by destruct (contexts s !! id).
  - intros rest. rewrite (split_sub_route id rest Hid). simpl.
    destruct (contexts s !! id); simpl; [| reflexivity].
    pose proof (split_nonempty "/" rest). by destruct (split "/" rest).
Qed.

(** X10. [getGCNodeType]. For an id without a slash, the path "/id" is a
    DataStore node and every path "/id/..." is a SubDataStore node when the
    store has a context; both have no node type when it has none, and a path
    without a slash never has one. After [deleteSweepReadyNodes], no route
    "/id" of the swept list, and no path below it, has a node type any more. *)
Theorem getGCNodeType_spec env s id :
  contains "/" id = false ->
  (is_Some (contexts s !! id) ->
     getGCNodeType ("/" +:+ id) s = Some DataStore
     /\ forall rest, getGCNodeType ("/" +:+ id +:+ "/" +:+ rest) s = Some SubDataStore)
  /\ (contexts s !! id = None ->
      getGCNodeType ("/" +:+ id) s = None
      /\ forall rest, getGCNodeType ("/" +:+ id +:+ "/" +:+ rest) s = None)
  /\ getGCNodeType id s = None
  /\ (forall routes, "/" +:+ id ∈ routes ->
        let swept := snd (deleteSweepReadyNodes env routes s) in
        getGCNodeType ("/" +:+ id) swept = None
        /\ forall rest, getGCNodeType ("/" +:+ id +:+ "/" +:+ rest) swept = None).
Proof.
  intros Hid. split; [| split; [| split]].
  - intros [c Hc]. destruct (getGCNodeType_data_store s id Hid) as [-> Hsub].
    rewrite Hc. split; [reflexivity |]. intros rest. by rewrite Hsub, Hc.
  - intros Hc. destruct (getGCNodeType_data_store s id Hid) as [-> Hsub].
    rewrite Hc. split; [reflexivity |]. intros rest. by rewrite Hsub, Hc.
  - unfold getGCNodeType. by rewrite (split_without_separator _ _ Hid).
  - intros routes Hin swept.
    destruct (deleteSweepReadyNodes_contexts env routes s id) as [_ Hgone].
    specialize (Hgone Hid Hin). fold swept in Hgone.
    destruct (getGCNodeType_data_store swept id Hid) as [-> Hsub].
    rewrite Hgone. split; [reflexivity |]. intros rest. by rewrite Hsub, Hgone.
Qed.

Lemma getGCNodeType_spec_witness :
  getGCNodeType "/3" storeThree = Some DataStore
  /\ getGCNodeType "/3/dds/x" storeThree = Some SubDataStore
  /\ getGCNodeType "/3"
       (snd (deleteSweepReadyNodes (sampleEnv Attached []) ["/3"; "/3/dds/x"] storeThree))
     = None.
Proof.
  destruct (getGCNodeType_spec (sampleEnv Attached []) storeThree "3" eq_refl)
    as (Hknown & _ & _ & Hswept).
  destruct (Hknown (ex_intro _ _ eq_refl)) as [Hstore Hsub].
  split; [exact Hstore |]. split; [exact (Hsub "dds/x") |].
  apply (Hswept ["/3"; "/3/dds/x"]). by left.
Defined.

Lemma processAliasMessageCore_cases env internalId alias s :
  let r := processAliasMessageCore env internalId alias s in
  (fst r = Returned false /\ sameTables s (snd r))
  \/ (fst r = Returned true
      /\ aliasMap s !! alias = None /\ contexts s !! alias = None
      /\ is_Some (contexts s !! internalId)
      /\ isDataStoreDeleted env ("/" +:+ internalId) = false
      /\ snd r = set_contexts (alter (set_root true) internalId)
                   (set_aliasMap (insert alias internalId)
                      (logged (AddedGCOutboundReference ContainerRuntimeHandle
                                 (DataStoreHandle internalId)) s))).
Proof.
  unfold processAliasMessageCore, alreadyProcessed, checkAndLogIfDeleted,
    DataStoreContexts.get, FluidDataStoreContext.setInMemoryRoot. monad.
  destruct (aliasMap s !! alias) eqn:Ha; simpl; [left; by repeat split |].
  destruct (contexts s !! alias) eqn:Hc; simpl; [left; by repeat split |].
  destruct (isDataStoreDeleted env _) eqn:Hd; simpl; [left; by repeat split |].
  destruct (contexts s !! internalId) eqn:Hi; simpl; [| left; by repeat split].
  right. repeat split; try done.
Qed.

Lemma process_tables env message local meta callback s :
  let s' := snd (process env message local meta callback s) in
  (forall j, is_Some (contexts s !! j) -> is_Some (contexts s' !! j))
  /\ (sameTables s s'
      \/ ((forall j, is_Some (contexts s' !! j) <-> is_Some (contexts s !! j))
          /\ aliasMap s' = aliasMap s)
      \/ (exists id c, aliasMap s !! id = None /\ contexts s !! id = None
            /\ contexts s' = <[id := c]> (contexts s) /\ aliasMap s' = aliasMap s)
      \/ (exists alias id, aliasMap s !! alias = None /\ contexts s !! alias = None
            /\ is_Some (contexts s !! id)
            /\ (forall j, is_Some (contexts s' !! j) <-> is_Some (contexts s !! j))
            /\ aliasMap s' = <[alias := id]> (aliasMap s))).
Proof.
  destruct message as [m | contents | envelope | t]; cbv zeta.
  - (* Attach *)
    unfold process.
    destruct (processAttachMessage_prologue env m local s) as (s0 & Hsame & ->).
    pose proof Hsame as (Hctx & _ & Halias & _).
    unfold attachCommit, FluidDataStoreContext.setAttachState, alreadyProcessed,
      DataStoreContexts.addBoundOrRemoted.
    destruct local; monad.
    + destruct (pendingAttach s0 !! am_id m); simpl; [| split; [by rewrite Hctx | by left]].
      destruct (contexts s0 !! am_id m) as [c |] eqn:Hc; simpl.
      * assert ((FluidDataStoreContext.rank (attachState c) <=? 2)%nat = true) as ->
          by (by destruct (attachState c)).
        simpl. rewrite Hctx in Hc.
        assert (forall j, is_Some (<[am_id m := set_attachState Attached c]> (contexts s0) !! j)
                          <-> is_Some (contexts s !! j)) as Hdom.
        { intros j. rewrite Hctx. destruct (decide (am_id m = j)) as [<- | Hne].
          - rewrite lookup_insert_eq, Hc. split; intros _; by eexists.
          - by rewrite lookup_insert_ne. }
        split; [intros j; apply Hdom |]. right. left. by split.
      * split; [by rewrite Hctx |]. right. left. split; [by rewrite Hctx | done].
    + rewrite Halias, Hctx.
      destruct (aliasMap s !! am_id m) eqn:Ha; simpl; [split; [by rewrite Hctx | by left] |].
      destruct (contexts s !! am_id m) eqn:Hc; simpl; [split; [by rewrite Hctx | by left] |].
      rewrite Hctx, Hc. simpl. split.
      * intros j Hj. rewrite Hctx. destruct (decide (am_id m = j)) as [<- | Hne].
        -- rewrite lookup_insert_eq. by eexists.
        -- by rewrite lookup_insert_ne.
      * right. right. left. eexists _, _. rewrite Hctx. by repeat split.
  - (* Alias *)
    unfold process, processAliasMessage.
    destruct (isDataStoreAliasMessage contents) as [[internalId alias] |];
      [| split; [done | by left]].
    unfold bind.
    destruct (processAliasMessageCore_cases env internalId alias s)
      as [[Hres Hsame] | (Hres & Ha & Hc & Hi & _ & Hstate)];
      destruct (processAliasMessageCore env internalId alias s) as [o s1];
      simpl in Hres; subst o; simpl in *.
    + pose proof Hsame as (Hctx & _).
      assert (sameTables s (snd ((if local
                then match meta with
                     | Some resolve => emit (ResolveAlias resolve false)
                     | None => throw (TypeError "resolve is not a function")
                     end
                else ret tt) s1))) as Hfinal.
      { destruct local; [destruct meta |]; exact Hsame. }
      split; [destruct Hfinal as (Heq & _); by rewrite Heq | left; exact Hfinal].
    + subst s1.
      assert (forall j, is_Some (alter (set_root true) internalId (contexts s) !! j)
                        <-> is_Some (contexts s !! j)) as Hdom.
      { intros j. rewrite lookup_alter. case_decide; [| done].
        subst j. destruct (contexts s !! internalId); simpl; split; intros [x Hx]; try done;
          by eexists. }
      split.
      * intros j Hj. destruct local; [destruct meta |]; simpl; by apply Hdom.
      * right. right. right. exists alias, internalId.
        destruct local; [destruct meta |]; simpl;
          (split; [done |]; split; [done |]; split; [done |]; split; [exact Hdom | done]).
  - (* FluidDataStoreOp *)
    assert (sameTables s (snd (process env (FluidDataStoreOp envelope) local meta callback s)))
      as Hsame.
    { unfold process, bind. rewrite processChannelOp_eq.
      destruct (isDataStoreDeleted env _); [| destruct (contexts s !! address envelope)];
        try (destruct (negb _ && callback); [rewrite forEach_emit |]); by repeat split. }
    split; [| by left]. destruct Hsame as (-> & _). done.
  - split; [done | by left].
Qed.

(** X11. Inbound processing keeps the alias table sound. If every alias leads
    to a store that has a context and no alias is the id of a context, the
    same holds after processing any sequenced message (Attach, Alias or data
    store op, local or remote, returning or throwing). In such a state
    [internalId] maps an alias to the id of an existing context, leaves every
    other name unchanged, and resolving twice is the same as resolving once. *)
Theorem process_keeps_aliases_resolving env message local meta callback s :
  aliasesResolve s ->
  aliasesResolve (snd (process env message local meta callback s))
  /\ (forall name, internalId (internalId name s) s = internalId name s)
  /\ (forall name, is_Some (aliasMap s !! name) ->
        is_Some (contexts s !! internalId name s))
  /\ (forall name, aliasMap s !! name = None -> internalId name s = name).
Proof.
  intros Hinv. split; [| split; [| split]].
  - destruct (process_tables env message local meta callback s) as [Hgrow Hcases].
    set (s' := snd (process env message local meta callback s)) in *.
    destruct Hcases as [(Hctx & _ & Ha & _) | [[Hdom Ha] | [(id & c & Hfresh & Hnone & Hctx & Ha)
                        | (alias & id & Hfresh & Hnone & Hid & Hdom & Ha)]]].
    + intros alias id. rewrite Ha, Hctx. apply Hinv.
    + intros alias id. rewrite Ha. intros Halias. destruct (Hinv alias id Halias) as [Hid Hnot].
      split; [by apply Hdom |].
      destruct (contexts s' !! alias) eqn:Hc; [| reflexivity].
      assert (is_Some (contexts s !! alias)) as [x Hx] by (apply Hdom; by eexists).
      congruence.
    + intros alias j. rewrite Ha, Hctx. intros Halias.
      destruct (Hinv alias j Halias) as [Hj Hnot]. split.
      * destruct (decide (id = j)) as [-> | Hne]; [rewrite lookup_insert_eq; by eexists |].
        by rewrite lookup_insert_ne.
      * rewrite lookup_insert_ne; [exact Hnot |]. intros ->. congruence.
    + intros a j. rewrite Ha. intros Halias.
      apply lookup_insert_Some in Halias as [[<- <-] | [Hne Halias]].
      * split; [by apply Hdom |].
        destruct (contexts s' !! alias) eqn:Hc; [| reflexivity].
        assert (is_Some (contexts s !! alias)) as [x Hx] by (apply Hdom; by eexists).
        congruence.
      * destruct (Hinv a j Halias) as [Hj Hnot]. split; [by apply Hdom |].
        destruct (contexts s' !! a) eqn:Hc; [| reflexivity].
        assert (is_Some (contexts s !! a)) as [x Hx] by (apply Hdom; by eexists).
        congruence.
  - intros name. unfold internalId.
    destruct (aliasMap s !! name) as [id |] eqn:Hname; simpl; [| by rewrite Hname].
    destruct (Hinv name id Hname) as [[c Hc] _].
    destruct (aliasMap s !! id) as [id' |] eqn:Hid; [| reflexivity].
    destruct (Hinv id id' Hid) as [_ Hnot]. congruence.
  - intros name [id Hname]. unfold internalId. rewrite Hname. simpl.
    by destruct (Hinv name id Hname).
  - intros name Hname. unfold internalId. by rewrite Hname.
Qed.

Lemma process_keeps_aliases_resolving_witness :
  aliasesResolve oneStore
  /\ aliasesResolve
       (snd (process (sampleEnv Attached []) (Alias (aliasMessage "1" "root")) false None false
               oneStore))
  /\ internalId "root"
       (snd (process (sampleEnv Attached []) (Alias (aliasMessage "1" "root")) false None false
               oneStore)) = "1".
Proof.
  assert (aliasesResolve oneStore) as H0.
  { intros alias id Halias. simpl in Halias. by rewrite lookup_empty in Halias. }
  destruct (process_keeps_aliases_resolving (sampleEnv Attached [])
              (Alias (aliasMessage "1" "root")) false None false oneStore H0) as (H1 & _).
  split; [exact H0 |]. split; [exact H1 | reflexivity].
Defined.

(** X12. Aliases are write-once. Processing a sequenced message never changes
    or removes an entry of the alias map. Once the commit of an alias has
    succeeded, every later commit of the same alias, for whatever store, is
    rejected with the state unchanged: of concurrent Alias ops for one name the
    first one processed wins. *)
Theorem alias_first_wins env s :
  (forall message local meta callback alias id,
     aliasMap s !! alias = Some id ->
     aliasMap (snd (process env message local meta callback s)) !! alias = Some id)
  /\ (forall internalId alias s1,
        processAliasMessageCore env internalId alias s = (Returned true, s1) ->
        aliasMap s1 !! alias = Some internalId
        /\ forall env' other,
             processAliasMessageCore env' other alias s1 = (Returned false, s1)).
Proof.
  split.
  - intros message local meta callback alias id Halias.
    destruct (process_tables env message local meta callback s) as [_ Hcases].
    destruct Hcases as [(_ & _ & -> & _) | [[_ ->] | [(j & c & _ & _ & _ & ->)
                        | (a & j & Hfresh & _ & _ & _ & ->)]]]; try exact Halias.
    rewrite lookup_insert_ne; [exact Halias |]. intros ->. congruence.
  - intros internalId alias s1 Hcommit.
    destruct (processAliasMessageCore_cases env internalId alias s)
      as [[Hres _] | (_ & _ & _ & _ & _ & Hstate)]; rewrite Hcommit in *; simpl in *.
    { discriminate. }
    subst s1. split; [simpl; apply lookup_insert_eq |].
    intros env' other. unfold processAliasMessageCore, alreadyProcessed. monad.
    by rewrite lookup_insert_eq.
Qed.

Lemma alias_first_wins_witness :
  let env := sampleEnv Attached [] in
  let both := set_contexts (insert "2" (newLocalContext LocalFluidDataStoreContext ["pkg"]))
                oneStore in
  exists s1,
    processAliasMessageCore env "2" "root" both = (Returned true, s1)
    /\ aliasMap s1 !! "root" = Some "2"
    /\ processAliasMessageCore env "1" "root" s1 = (Returned false, s1).
Proof.
  intros env both. destruct (alias_first_wins env both) as [_ Hfirst].
  eexists. split; [reflexivity |].
  match goal with |- aliasMap ?s1 !! _ = _ /\ _ =>
    destruct (Hfirst "2" "root" s1 eq_refl) as [Halias Hlater]
  end.
  split; [exact Halias | apply Hlater].
Defined.

(** X13. The collection does not keep the alias map injective: after a store
    has received an alias, the commit of a second, new alias for the same
    store succeeds as well, and both names resolve to the store. *)
Theorem second_alias_for_same_store env s id first second :
  is_Some (contexts s !! id) ->
  isDataStoreDeleted env ("/" +:+ id) = false ->
  first <> second ->
  aliasMap s !! first = None -> contexts s !! first = None ->
  aliasMap s !! second = None -> contexts s !! second = None ->
  exists s1 s2,
    processAliasMessageCore env id first s = (Returned true, s1)
    /\ processAliasMessageCore env id second s1 = (Returned true, s2)
    /\ internalId first s2 = id
    /\ internalId second s2 = id.
Proof.
  intros [c Hc] Hdeleted Hne Ha1 Hc1 Ha2 Hc2.
  assert (id <> first) as Hid1 by (intros ->; congruence).
  assert (id <> second) as Hid2 by (intros ->; congruence).
  unfold processAliasMessageCore, alreadyProcessed, checkAndLogIfDeleted,
    DataStoreContexts.get, FluidDataStoreContext.setInMemoryRoot, internalId. monad.
  rewrite Ha1, Hc1. simpl. rewrite Hdeleted. simpl. rewrite Hc. simpl.
  eexists. eexists. split; [reflexivity |]. simpl.
  rewrite lookup_insert_ne by done. rewrite Ha2. simpl.
  rewrite lookup_alter_ne by done. rewrite Hc2. simpl.
  rewrite ?Hdeleted. simpl. rewrite lookup_alter_eq, Hc. simpl.
  split; [reflexivity |]. simpl.
  rewrite lookup_insert_ne by done. by rewrite !lookup_insert_eq.
Qed.

Lemma second_alias_for_same_store_witness :
  exists s2,
    processAliasMessageCore (sampleEnv Attached []) "1" "beta"
      (snd (processAliasMessageCore (sampleEnv Attached []) "1" "alpha" oneStore))
    = (Returned true, s2)
    /\ internalId "alpha" s2 = "1"
    /\ internalId "beta" s2 = "1".
Proof.
  destruct (second_alias_for_same_store (sampleEnv Attached []) oneStore "1" "alpha" "beta")
    as (s1 & s2 & H1 & H2 & Hfirst & Hsecond); try reflexivity; try discriminate.
  - eexists. reflexivity.
  - rewrite H1. exists s2. split; [exact H2 |]. split; [exact Hfirst | exact Hsecond].
Defined.

Lemma foldl_insert_by_key {A B : Type} (f : string -> B) (l : list (string * A)) :
  forall (b : gmap string B) k,
    foldl (fun acc entry => <[fst entry := f (fst entry)]> acc) b l !! k
    = if decide (k ∈ l.*1) then Some (f k) else b !! k.
Proof.
  induction l as [| [j x] l IH]; intros b k.
  - cbn [foldl fmap list_fmap]. destruct (decide (k ∈ [])) as [Hin | _]; [| done].
    by apply elem_of_nil in Hin.
  - cbn [foldl]. rewrite IH. cbn [fst].
    destruct (decide (k ∈ l.*1)) as [Hin | Hnot];
      destruct (decide (k ∈ ((j, x) :: l).*1)) as [Hin' | Hnot']; try done.
    + exfalso. apply Hnot'. rewrite fmap_cons. by right.
    + rewrite fmap_cons in Hin'. apply elem_of_cons in Hin' as [-> | Hin']; [| done].
      apply lookup_insert_eq.
    + rewrite lookup_insert_ne; [done |]. intros <-. apply Hnot'. rewrite fmap_cons. by left.
Qed.

Lemma attached_keys (s : State) k :
  k ∈ (List.filter (fun entry : string * Context =>
                      bool_decide (attachState (snd entry) = Attached))
                   (map_to_list (contexts s))).*1
  <-> exists c, contexts s !! k = Some c /\ attachState c = Attached.
Proof.
  rewrite list_elem_of_fmap. split.
  - intros ([j c] & -> & Hin). apply list_elem_of_In, filter_In in Hin as [Hin Hst].
    apply list_elem_of_In, elem_of_map_to_list in Hin. apply bool_decide_eq_true in Hst.
    by exists c.
  - intros (c & Hc & Hst). exists (k, c). split; [reflexivity |].
    apply list_elem_of_In, filter_In. split.
    + apply list_elem_of_In. by apply elem_of_map_to_list.
    + by apply bool_decide_eq_true.
Qed.

(** X14. [summarize] throws a DataProcessingError when some context is in
    Attaching state, and does so in exactly the states in which [getGCData]
    throws. Otherwise the summary tree has one entry per context in Attached
    state, under the context's id and holding that context's summary; a
    Detached context has no entry. The state is not changed. *)
Theorem summarize_spec {Summary : Type} (contextSummarize : string -> bool -> bool -> Summary)
    env fullTree trackState fullGC s :
  ((exists id c, contexts s !! id = Some c /\ attachState c = Attaching) ->
     summarize contextSummarize fullTree trackState s
     = (Thrown (DataProcessingError
                  "Local data store detected in attaching state during summarize"), s))
  /\ ((forall id c, contexts s !! id = Some c -> attachState c <> Attaching) ->
      exists tree,
        summarize contextSummarize fullTree trackState s = (Returned tree, s)
        /\ (forall id c, contexts s !! id = Some c -> attachState c = Attached ->
              tree !! id = Some (contextSummarize id fullTree trackState))
        /\ (forall id, is_Some (tree !! id) ->
              exists c, contexts s !! id = Some c /\ attachState c = Attached))
  /\ ((exists e, fst (summarize contextSummarize fullTree trackState s) = Thrown e)
      <-> (exists e, fst (getGCData env fullGC s) = Thrown e)).
Proof.
  unfold summarize, bind, getState. rewrite attachedContexts_eq, getGCData_eq.
  destruct (existsb _ (map_to_list (contexts s))) eqn:Hex.
  - split; [done |]. split; [| split; intros _; by eexists].
    intros Hnone. exfalso. apply existsb_exists in Hex as ([id c] & Hin & Hst).
    apply list_elem_of_In, elem_of_map_to_list in Hin. apply bool_decide_eq_true in Hst.
    exact (Hnone id c Hin Hst).
  - split; [| split].
    + intros (id & c & Hc & Hst). exfalso.
      assert (existsb (fun entry : string * Context =>
                         bool_decide (attachState (snd entry) = Attaching))
                      (map_to_list (contexts s)) = true) as Htrue; [| congruence].
      apply existsb_exists. exists (id, c). split.
      * apply list_elem_of_In. by apply elem_of_map_to_list.
      * by apply bool_decide_eq_true.
    + intros _. eexists. split; [reflexivity |]. split.
      * intros id c Hc Hst.
        rewrite (foldl_insert_by_key (fun id => contextSummarize id fullTree trackState)).
        rewrite decide_True; [done |]. apply attached_keys. by exists c.
      * intros id.
        rewrite (foldl_insert_by_key (fun id => contextSummarize id fullTree trackState)).
        case_decide as Hin.
        -- intros _. by apply attached_keys.
        -- rewrite lookup_empty. intros [x Hx]. discriminate.
    + split; intros [e He]; discriminate.
Qed.

Lemma summarize_spec_witness :
  let both := set_contexts (insert "2" (newLocalContext LocalFluidDataStoreContext ["pkg"]))
                oneStore in
  summarize (fun id _ _ => "summary of " +:+ id) false false oneAttachingStore
  = (Thrown (DataProcessingError
               "Local data store detected in attaching state during summarize"),
     oneAttachingStore)
  /\ exists tree,
       summarize (fun id _ _ => "summary of " +:+ id) false false both = (Returned tree, both)
       /\ tree !! "1" = Some "summary of 1"
       /\ tree !! "2" = None.
Proof.
  intros both. split.
  - destruct (summarize_spec (fun id _ _ => "summary of " +:+ id) (sampleEnv Attached [])
                false false false oneAttachingStore) as [Hthrow _].
    apply Hthrow. eexists "1", _. split; reflexivity.
  - destruct (summarize_spec (fun id _ _ => "summary of " +:+ id) (sampleEnv Attached [])
                false false false both) as (_ & Hreturn & _).
    destruct Hreturn as (tree & Hrun & Hattached & Honly).
    + intros id c Hc. simpl in Hc.
      apply lookup_insert_Some in Hc as [[_ <-] | [_ Hc]]; [discriminate |].
      apply lookup_insert_Some in Hc as [[_ <-] | [_ Hc]]; [discriminate |].
      by rewrite lookup_empty in Hc.
    + exists tree. split; [exact Hrun |]. split.
      * apply (Hattached "1" (newRemoteContext (sampleEnv Attached []) ["pkg"] None
                                ParentStorage)); reflexivity.
      * destruct (tree !! "2") as [x |] eqn:H2; [| reflexivity].
        destruct (Honly "2") as (c & Hc & Hst); [by eexists |].
        simpl in Hc. rewrite lookup_insert_eq in Hc. inversion Hc; subst c. discriminate.
Defined.

Lemma setAttachState_loop a order : forall s,
  (forall id c, contexts s !! id = Some c -> id ∉ notBoundContexts s ->
     (FluidDataStoreContext.rank (attachState c) <= FluidDataStoreContext.rank a)%nat) ->
  exists s',
    setAttachState order a s = (Returned tt, s')
    /\ notBoundContexts s' = notBoundContexts s
    /\ aliasMap s' = aliasMap s
    /\ pendingAttach s' = pendingAttach s
    /\ trace s' = trace s
    /\ forall id,
         contexts s' !! id
         = if decide (id ∈ order /\ id ∉ notBoundContexts s)
           then set_attachState a <$> contexts s !! id
           else contexts s !! id.
Proof.
  induction order as [| j order IH]; intros s Hrank.
  - exists s. split; [reflexivity |]. do 4 (split; [reflexivity |]).
    intros id. case_decide as H; [| done]. destruct H as [H _]. by apply elem_of_nil in H.
  - unfold setAttachState in *.
    set (body := fun id : string =>
                   let* s := getState in
                   if negb (bool_decide (id ∈ notBoundContexts s)) then
                     FluidDataStoreContext.setAttachState id a
                   else ret tt) in *.
    assert (body j s =
            if bool_decide (j ∈ notBoundContexts s) then (Returned tt, s)
            else match contexts s !! j with
                 | None => (Returned tt, s)
                 | Some c =>
                     if (FluidDataStoreContext.rank (attachState c)
                         <=? FluidDataStoreContext.rank a)%nat
                     then (Returned tt, set_contexts (insert j (set_attachState a c)) s)
                     else (Thrown (AssertionError "setAttachState"), s)
                 end) as Hstep.
    { subst body. unfold FluidDataStoreContext.setAttachState. monad.
      destruct (bool_decide (j ∈ notBoundContexts s)); simpl; [reflexivity |].
      destruct (contexts s !! j) as [c |]; [| reflexivity].
      by destruct (_ <=? _)%nat. }
    cbn [forEach]. unfold bind at 1. rewrite Hstep. clear Hstep.
    destruct (bool_decide (j ∈ notBoundContexts s)) eqn:Hj.
    + apply bool_decide_eq_true in Hj.
      destruct (IH s Hrank) as (s' & Hrun & Hu & Ha & Hp & Ht & Hctx).
      rewrite Hrun.
      exists s'. split; [reflexivity |]. do 4 (split; [done |]).
      intros id. rewrite Hctx.
      destruct (decide (id ∈ order /\ id ∉ notBoundContexts s)) as [[Hin Hb] | Hnot];
        destruct (decide (id ∈ j :: order /\ id ∉ notBoundContexts s)) as [[Hin' Hb'] | Hnot'];
        try done.
      * exfalso. apply Hnot'. split; [by right | done].
      * exfalso. apply elem_of_cons in Hin' as [-> | Hin']; [done |]. by apply Hnot.
    + apply bool_decide_eq_false in Hj.
      destruct (contexts s !! j) as [c |] eqn:Hc.
      * rewrite (proj2 (Nat.leb_le _ _) (Hrank j c Hc Hj)).
        set (s1 := set_contexts (insert j (set_attachState a c)) s).
        destruct (IH s1) as (s' & Hrun & Hu & Ha & Hp & Ht & Hctx).
        { intros id c' Hc' Hb. simpl in Hc'. destruct (decide (j = id)) as [<- | Hne].
          - rewrite lookup_insert_eq in Hc'. inversion Hc'; subst c'. simpl. lia.
          - rewrite lookup_insert_ne in Hc' by done. by apply (Hrank id c'). }
        rewrite Hrun.
        exists s'. split; [reflexivity |]. do 4 (split; [done |]).
        intros id. rewrite Hctx. simpl.
        destruct (decide (j = id)) as [<- | Hne].
        -- rewrite lookup_insert_eq, Hc.
           rewrite (decide_True (P := j ∈ j :: order /\ _)) by (split; [by left | done]).
           by case_decide.
        -- rewrite lookup_insert_ne by done.
           destruct (decide (id ∈ order /\ id ∉ notBoundContexts s)) as [[Hin Hb] | Hnot];
             destruct (decide (id ∈ j :: order /\ id ∉ notBoundContexts s))
               as [[Hin' Hb'] | Hnot']; try done.
           ++ exfalso. apply Hnot'. split; [by right | done].
           ++ exfalso. apply elem_of_cons in Hin' as [-> | Hin']; [done |]. by apply Hnot.
      * destruct (IH s Hrank) as (s' & Hrun & Hu & Ha & Hp & Ht & Hctx).
        rewrite Hrun.
        exists s'. split; [reflexivity |]. do 4 (split; [done |]).
        intros id. rewrite Hctx.
        destruct (decide (id ∈ order /\ id ∉ notBoundContexts s)) as [[Hin Hb] | Hnot];
          destruct (decide (id ∈ j :: order /\ id ∉ notBoundContexts s))
            as [[Hin' Hb'] | Hnot']; try done.
        -- exfalso. apply Hnot'. split; [by right | done].
        -- apply elem_of_cons in Hin' as [-> | Hin']; [by rewrite Hc |].
           exfalso. by apply Hnot.
Qed.

(** X15. [setAttachState] of the collection, when the container attaches. If
    the loop visits every context and no bound context is ahead of the new
    state, it returns, every bound context is in the new state, every unbound
    context is as it was, and the alias map, the pending-attach map and the
    recorded calls are untouched. So when the container moves to Attaching,
    its bound stores become Attaching without any pending-attach entry, and
    the pending-attach invariant does not hold afterwards. *)
Theorem setAttachState_spec env order a s :
  (forall id, is_Some (contexts s !! id) -> id ∈ order) ->
  (forall id c, contexts s !! id = Some c -> id ∉ notBoundContexts s ->
     (FluidDataStoreContext.rank (attachState c) <= FluidDataStoreContext.rank a)%nat) ->
  exists s',
    setAttachState order a s = (Returned tt, s')
    /\ (forall id c, contexts s !! id = Some c -> id ∉ notBoundContexts s ->
          contexts s' !! id = Some (set_attachState a c))
    /\ (forall id, id ∈ notBoundContexts s -> contexts s' !! id = contexts s !! id)
    /\ (forall id, contexts s !! id = None -> contexts s' !! id = None)
    /\ notBoundContexts s' = notBoundContexts s
    /\ aliasMap s' = aliasMap s
    /\ pendingAttach s' = pendingAttach s
    /\ trace s' = trace s
    /\ (a = Attaching -> parentAttachState env <> Detached -> pendingAttach s = ∅ ->
        (exists id, is_Some (contexts s !! id) /\ id ∉ notBoundContexts s) ->
        ~ pendingAttachInvariant env s').
Proof.
  intros Hall Hrank.
  destruct (setAttachState_loop a order s Hrank) as (s' & Hrun & Hu & Ha & Hp & Ht & Hctx).
  exists s'. split; [exact Hrun |].
  assert (forall id c, contexts s !! id = Some c -> id ∉ notBoundContexts s ->
            contexts s' !! id = Some (set_attachState a c)) as Hbound.
  { intros id c Hc Hb. rewrite Hctx. rewrite decide_True.
    - by rewrite Hc.
    - split; [apply Hall; by eexists | done]. }
  split; [exact Hbound |]. split; [| split].
  - intros id Hunbound. rewrite Hctx. rewrite decide_False; [done |]. by intros [_ H].
  - intros id Hnone. rewrite Hctx. case_decide; by rewrite Hnone.
  - split; [exact Hu |]. split; [exact Ha |]. split; [exact Hp |]. split; [exact Ht |].
    intros -> Hparent Hempty (id & [c Hc] & Hb) Hinv.
    destruct (proj2 (Hinv id)) as [x Hx].
    + exists (set_attachState Attaching c). split; [by apply Hbound |]. by split.
    + rewrite Hp, Hempty, lookup_empty in Hx. discriminate.
Qed.

Lemma setAttachState_spec_witness :
  let env := sampleEnv Attaching [] in
  let bound := set_contexts (insert "0" (newLocalContext LocalFluidDataStoreContext ["pkg"]))
                 emptyState in
  exists s',
    setAttachState ["0"] Attaching bound = (Returned tt, s')
    /\ (attachState <$> contexts s' !! "0") = Some Attaching
    /\ pendingAttach s' = ∅
    /\ ~ pendingAttachInvariant env s'.
Proof.
  intros env bound.
  destruct (setAttachState_spec env ["0"] Attaching bound)
    as (s' & Hrun & Hbound & _ & _ & _ & _ & Hp & _ & Hbreaks).
  - intros id [c Hc]. simpl in Hc. apply lookup_insert_Some in Hc as [[<- _] | [_ Hc]].
    + by left.
    + by rewrite lookup_empty in Hc.
  - intros id c Hc _. simpl in Hc. apply lookup_insert_Some in Hc as [[_ <-] | [_ Hc]].
    + simpl. lia.
    + by rewrite lookup_empty in Hc.
  - exists s'. split; [exact Hrun |]. split; [| split; [exact Hp |]].
    + rewrite (Hbound "0" (newLocalContext LocalFluidDataStoreContext ["pkg"]));
        [reflexivity | reflexivity | apply not_elem_of_empty].
    + apply Hbreaks; [reflexivity | discriminate | reflexivity |].
      exists "0". split; [eexists; reflexivity | apply not_elem_of_empty].
Defined.

Lemma construct_loop env remoteAttachState isRoot (entries : list (string * ISnapshotTree)) : forall s,
  NoDup entries.*1 ->
  (forall k, k ∈ entries.*1 -> contexts s !! k = None) ->
  forEach (fun entry : string * ISnapshotTree =>
             DataStoreContexts.addBoundOrRemoted (fst entry)
               (snapshotContext env remoteAttachState isRoot (snd entry)))
          entries s
  = (Returned tt,
     set_contexts (fun m => foldl (fun m entry =>
                                     <[fst entry := snapshotContext env remoteAttachState isRoot (snd entry)]> m)
                                  m entries) s).
Proof.
  induction entries as [| [k t] entries IH]; intros s Hnodup Hfresh.
  - simpl. unfold ret. by destruct s.
  - rewrite fmap_cons in Hnodup. apply NoDup_cons in Hnodup as [Hk Hnodup].
    cbn [forEach]. unfold bind at 1.
    unfold DataStoreContexts.addBoundOrRemoted at 1. monad.
    rewrite (Hfresh k) by (by left). simpl.
    rewrite IH; [reflexivity | exact Hnodup |].
    intros j Hj. simpl. rewrite lookup_insert_ne; [apply Hfresh; by right |].
    intros ->. done.
Qed.

Lemma foldl_insert_entries {A B : Type} (g : A -> B) (entries : list (string * A)) :
  NoDup entries.*1 ->
  forall (m : gmap string B) k,
    foldl (fun m entry => <[fst entry := g (snd entry)]> m) m entries !! k
    = match (list_to_map entries : gmap string A) !! k with
      | Some v => Some (g v)
      | None => m !! k
      end.
Proof.
  induction entries as [| [j v] entries IH]; intros Hnodup m k.
  - simpl. by rewrite lookup_empty.
  - rewrite fmap_cons in Hnodup. apply NoDup_cons in Hnodup as [Hj Hnodup].
    cbn [foldl list_to_map foldr fst snd]. rewrite (IH Hnodup).
    destruct (decide (j = k)) as [<- | Hne].
    + rewrite lookup_insert_eq.
      assert ((list_to_map entries : gmap string A) !! j = None) as ->.
      { by apply not_elem_of_list_to_map_1. }
      by rewrite lookup_insert_eq.
    + rewrite !lookup_insert_ne by done. reflexivity.
Qed.

Lemma construct_eq env remoteAttachState isRoot baseSnapshot aliases :
  let stores := match baseSnapshot with
                | Some snapshot => snapshotTrees snapshot
                | None => ∅
                end in
  exists stats s,
    construct env remoteAttachState isRoot baseSnapshot (initialState aliases) = (Returned stats, s)
    /\ contexts s = snapshotContext env remoteAttachState isRoot <$> stores
    /\ notBoundContexts s = ∅
    /\ pendingAttach s = ∅
    /\ aliasMap s = aliases
    /\ trace s = []
    /\ (pendingAttachInvariant env s
        <-> stores = ∅ \/ parentAttachState env = Detached
            \/ remoteAttachState (parentAttachState env) <> Attaching)
    /\ containerLoadDataStoreCount stats = size stores
    /\ referencedDataStoreCount stats
       + size (filter (fun entry : string * ISnapshotTree => snapshotUnreferenced (snd entry) = true)
                 stores)
       = size stores.
Proof.
  intros stores.
  set (entries := match baseSnapshot with
                  | Some snapshot => map_to_list (snapshotTrees snapshot)
                  | None => []
                  end).
  assert (entries = map_to_list stores) as Hentries.
  { subst entries stores. destruct baseSnapshot; [reflexivity |]. by rewrite map_to_list_empty. }
  assert (NoDup entries.*1) as Hnodup.
  { rewrite Hentries. apply NoDup_fst_map_to_list. }
  unfold construct. fold entries. unfold bind.
  rewrite (construct_loop env remoteAttachState isRoot entries (initialState aliases) Hnodup)
    by (intros k _; apply lookup_empty).
  unfold ret. eexists. eexists. split; [reflexivity |]. cbn [contexts set_contexts initialState
    notBoundContexts pendingAttach aliasMap trace containerLoadDataStoreCount
    referencedDataStoreCount].
  assert (foldl (fun m entry => <[fst entry := snapshotContext env remoteAttachState isRoot (snd entry)]> m)
                (∅ : gmap string Context) entries
          = snapshotContext env remoteAttachState isRoot <$> stores) as Hcontexts.
  { apply map_eq. intros k.
    rewrite (foldl_insert_entries (snapshotContext env remoteAttachState isRoot) entries Hnodup).
    rewrite Hentries, list_to_map_to_list, lookup_fmap.
    destruct (stores !! k); [reflexivity | apply lookup_empty]. }
  split; [exact Hcontexts |]. do 4 (split; [reflexivity |]). split; [| split].
  - unfold pendingAttachInvariant. cbn [contexts set_contexts initialState pendingAttach].
    rewrite Hcontexts. split.
    + intros Hinv.
      destruct (map_choose_or_empty stores) as [(k & t & Hk) | Hempty]; [| by left].
      right.
      destruct (decide (parentAttachState env = Detached)) as [Hdetached | Hparent];
        [by left | right].
      intros Hattaching.
      destruct (proj2 (Hinv k)) as [x Hx]; [| by rewrite lookup_empty in Hx].
      { exists (snapshotContext env remoteAttachState isRoot t).
        split; [by rewrite lookup_fmap, Hk |]. split; [| exact Hparent].
        unfold snapshotContext. rewrite bool_decide_eq_true_2 by exact Hparent.
        exact Hattaching. }
    + intros Hcases id. rewrite lookup_empty. split.
      * intros [x Hx]. discriminate.
      * intros (c & Hc & Hattaching & Hparent). exfalso.
        rewrite lookup_fmap in Hc.
        destruct Hcases as [Hempty | [Hdetached | Hstate]].
        -- rewrite Hempty, lookup_empty in Hc. discriminate.
        -- by apply Hparent.
        -- destruct (stores !! id) as [t |]; [| discriminate].
           simpl in Hc. inversion Hc; subst c. unfold snapshotContext in Hattaching.
           rewrite bool_decide_eq_true_2 in Hattaching by exact Hparent.
           by apply Hstate.
  - rewrite Hentries. by rewrite length_map_to_list.
  - rewrite Hentries, length_map_to_list.
    assert (length (List.filter (fun entry : string * ISnapshotTree =>
                                   snapshotUnreferenced (snd entry)) (map_to_list stores))
            = size (filter (fun entry : string * ISnapshotTree =>
                              snapshotUnreferenced (snd entry) = true) stores)) as Hcount.
    { assert (forall l : list (string * ISnapshotTree),
                length (List.filter (fun entry => snapshotUnreferenced (snd entry)) l)
                = length (filter (fun entry : string * ISnapshotTree =>
                                    snapshotUnreferenced (snd entry) = true) l)) as ->.
      { induction l as [| [k t] l IH]; [reflexivity |]. cbn [List.filter snd].
        destruct (snapshotUnreferenced t) eqn:Ht.
        - rewrite filter_cons_True by exact Ht. simpl. by rewrite IH.
        - rewrite filter_cons_False by (simpl; congruence). exact IH. }
      clear. induction stores as [| k t stores Hk IH] using map_ind.
      - by rewrite map_to_list_empty, map_filter_empty.
      - rewrite map_to_list_insert by done.
        destruct (snapshotUnreferenced t) eqn:Ht.
        + rewrite filter_cons_True by exact Ht. rewrite map_filter_insert_True by exact Ht.
          rewrite map_size_insert_None by (rewrite map_lookup_filter_None; by left).
          simpl. by rewrite IH.
        + rewrite filter_cons_False by (simpl; congruence).
          rewrite map_filter_insert_not';
            [exact IH | simpl; congruence | intros y Hy; congruence]. }
    rewrite Hcount.
    pose proof (map_filter_subseteq
                  (fun entry : string * ISnapshotTree => snapshotUnreferenced (snd entry) = true)
                  stores) as Hsub.
    apply map_subseteq_size in Hsub. lia.
Qed.

(** X16. The constructor. From a base snapshot it creates one context per
    store tree of the snapshot, under the tree's key, all of them bound, and
    never throws; without a snapshot it creates none. Nothing is pending
    attach and no call is recorded, and the alias map is the one passed in.
    The attach state of the contexts is the one their own constructor gives
    them. So the pending-attach invariant holds in the state the constructor
    leaves exactly when the snapshot has no store, or the container is
    detached, or the remote contexts do not start in Attaching state: a
    collection loaded with stores whose contexts start Attaching (as they do
    when they take the state of a parent that is Attaching) breaks it, no
    entry being pending. The load statistics count the stores of the
    snapshot, and the referenced and unreferenced stores add up to that
    count. *)
Theorem construct_spec env remoteAttachState isRoot baseSnapshot aliases :
  let stores := match baseSnapshot with
                | Some snapshot => snapshotTrees snapshot
                | None => ∅
                end in
  exists stats s,
    construct env remoteAttachState isRoot baseSnapshot (initialState aliases) = (Returned stats, s)
    /\ contexts s = snapshotContext env remoteAttachState isRoot <$> stores
    /\ notBoundContexts s = ∅
    /\ pendingAttach s = ∅
    /\ aliasMap s = aliases
    /\ trace s = []
    /\ (pendingAttachInvariant env s
        <-> stores = ∅ \/ parentAttachState env = Detached
            \/ remoteAttachState (parentAttachState env) <> Attaching)
    /\ containerLoadDataStoreCount stats = size stores
    /\ referencedDataStoreCount stats
       + size (filter (fun entry : string * ISnapshotTree => snapshotUnreferenced (snd entry) = true)
                 stores)
       = size stores.
Proof. apply construct_eq. Qed.

Lemma construct_spec_witness :
  let leaf := SnapshotTree ∅ ∅ false None in
  let snapshot := SnapshotTree ∅ {["3" := leaf]} false None in
  (* loaded in an attached container: the store "3" is Attached *)
  (exists stats s,
     construct (sampleEnv Attached []) (fun parent => parent) (fun _ => true)
       (Some snapshot) (initialState ∅) = (Returned stats, s)
     /\ (attachState <$> contexts s !! "3") = Some Attached
     /\ pendingAttachInvariant (sampleEnv Attached []) s)
  (* loaded while the container is attaching: the store "3" is Attaching and
     nothing is pending *)
  /\ (exists stats s,
        construct (sampleEnv Attaching []) (fun parent => parent) (fun _ => true)
          (Some snapshot) (initialState ∅) = (Returned stats, s)
        /\ (attachState <$> contexts s !! "3") = Some Attaching
        /\ pendingAttach s = ∅
        /\ ~ pendingAttachInvariant (sampleEnv Attaching []) s).
Proof.
  intros leaf snapshot. split.
  - destruct (construct_spec (sampleEnv Attached []) (fun parent => parent) (fun _ => true)
                (Some snapshot) ∅)
      as (stats & s & Hrun & Hctx & _ & _ & _ & _ & Hinv & _).
    exists stats, s. split; [exact Hrun |]. split.
    + rewrite Hctx. reflexivity.
    + apply Hinv. right. right. discriminate.
  - destruct (construct_spec (sampleEnv Attaching []) (fun parent => parent) (fun _ => true)
                (Some snapshot) ∅)
      as (stats & s & Hrun & Hctx & _ & Hpending & _ & _ & Hinv & _).
    exists stats, s. split; [exact Hrun |]. split; [| split; [exact Hpending |]].
    + rewrite Hctx. reflexivity.
    + intros H. apply Hinv in H as [Hempty | [Hdetached | Hstate]].
      * cbn [snapshotTrees snapshot] in Hempty.
        by apply (map_non_empty_singleton "3" leaf).
      * discriminate.
      * by apply Hstate.
Defined.

(** X17. [getSummaryForDatastores]. Without a snapshot the result is
    undefined. With isolated channels it is the sub-tree stored under the
    channels key, and assertion 0x168 fails when there is none. In the legacy
    form it is the snapshot with the trees of the reserved paths removed and
    everything else kept; applying it again changes nothing, and a collection
    constructed from the result has a context for exactly the trees that are
    not under a reserved path. *)
Theorem getSummaryForDatastores_spec channelsTreeName nonDataStorePaths
    blobs trees unreferenced groupId env remoteAttachState isRoot aliases :
  let snapshot := SnapshotTree blobs trees unreferenced groupId in
  let select := getSummaryForDatastores channelsTreeName nonDataStorePaths in
  (forall isolated, select None isolated = Returned None)
  /\ (forall t, trees !! channelsTreeName = Some t -> select (Some snapshot) true = Returned (Some t))
  /\ (trees !! channelsTreeName = None ->
        select (Some snapshot) true = Thrown (AssertionError "0x168"))
  /\ exists result,
       select (Some snapshot) false = Returned (Some result)
       /\ result = SnapshotTree blobs (snapshotTrees result) unreferenced groupId
       /\ (forall k, snapshotTrees result !! k
                     = if decide (k ∈ nonDataStorePaths) then None else trees !! k)
       /\ select (Some result) false = Returned (Some result)
       /\ forall k,
            is_Some (contexts (snd (construct env remoteAttachState isRoot (Some result)
                                        (initialState aliases)))
                     !! k)
            <-> is_Some (trees !! k) /\ k ∉ nonDataStorePaths.
Proof.
  intros snapshot select. subst select snapshot. unfold getSummaryForDatastores.
  split; [done |]. split; [by intros t -> |]. split; [by intros -> |].
  eexists. split; [reflexivity |]. cbn [snapshotTrees].
  assert (forall k,
            filter (fun entry : string * ISnapshotTree => fst entry ∉ nonDataStorePaths) trees
            !! k
            = if decide (k ∈ nonDataStorePaths) then None else trees !! k) as Hlookup.
  { intros k. destruct (decide (k ∈ nonDataStorePaths)) as [Hin | Hnot].
    - apply map_lookup_filter_None. right. intros t _ Hk. simpl in Hk. done.
    - destruct (trees !! k) as [t |] eqn:Hk.
      + by apply map_lookup_filter_Some.
      + apply map_lookup_filter_None. by left. }
  split; [reflexivity |]. split; [exact Hlookup |]. split.
  - do 3 f_equal. apply map_eq. intros k. rewrite map_lookup_filter, Hlookup.
    destruct (decide (k ∈ nonDataStorePaths)) as [Hin | Hnot]; [reflexivity |].
    destruct (trees !! k) as [t |]; [| reflexivity]. simpl.
    by rewrite option_guard_True.
  - intros k.
    destruct (construct_eq env remoteAttachState isRoot
                (Some (SnapshotTree blobs
                         (filter (fun entry : string * ISnapshotTree =>
                                    fst entry ∉ nonDataStorePaths) trees)
                         unreferenced groupId)) aliases)
      as (stats & s & Hrun & Hctx & _).
    rewrite Hrun. cbn [snd]. rewrite Hctx. cbn [snapshotTrees]. rewrite lookup_fmap, Hlookup.
    destruct (decide (k ∈ nonDataStorePaths)) as [Hin | Hnot]; simpl.
    + split; [intros [x Hx]; discriminate | intros [_ H]; done].
    + destruct (trees !! k) as [t |]; simpl; split.
      * intros _. split; [by eexists | done].
      * intros _. by eexists.
      * intros [x Hx]. discriminate.
      * intros [[x Hx] _]. discriminate.
Qed.

Lemma getSummaryForDatastores_spec_witness :
  let leaf := SnapshotTree ∅ ∅ false None in
  let snapshot :=
    SnapshotTree ∅ {[".channels" := SnapshotTree ∅ {["7" := leaf]} false None;
                     ".protocol" := leaf; "3" := leaf]} false None in
  getSummaryForDatastores ".channels" [".protocol"; ".channels"] (Some snapshot) true
  = Returned (Some (SnapshotTree ∅ {["7" := leaf]} false None))
  /\ getSummaryForDatastores ".channels" [".protocol"] (Some leaf) true
     = Thrown (AssertionError "0x168").
Proof.
  intros leaf snapshot. split.
  - destruct (getSummaryForDatastores_spec ".channels" [".protocol"; ".channels"] ∅
                {[".channels" := SnapshotTree ∅ {["7" := leaf]} false None;
                  ".protocol" := leaf; "3" := leaf]} false None
                (sampleEnv Attached []) (fun parent => parent) (fun _ => true) ∅)
      as (_ & Hisolated & _).
    apply Hisolated. reflexivity.
  - destruct (getSummaryForDatastores_spec ".channels" [".protocol"] ∅ ∅ false None
                (sampleEnv Attached []) (fun parent => parent) (fun _ => true) ∅)
      as (_ & _ & Hmissing & _).
    apply Hmissing. reflexivity.
Defined.

(** X18. Creating data stores in a detached container. When the ids of the
    table are those this allocator hands out (the encodings of 0, 2, ...
    below twice the number of contexts) and the encoding does not identify two
    numbers, creating a store never fails: the new context gets the encoding
    of twice the number of contexts, it is unbound and Detached, and the
    table is again of that form. Whatever the table, creation fails assertion
    0x158 when the id to hand out is already taken, and changes nothing
    then. *)
Theorem createDataStoreContext_detached env s pkg :
  parentAttachState env = Detached ->
  let id := encodeCompactIdToString env (2 * Z.of_nat (size (contexts s))) in
  ((forall i j : nat,
      encodeCompactIdToString env (2 * Z.of_nat i)
      = encodeCompactIdToString env (2 * Z.of_nat j) -> i = j) ->
   detachedIds env s ->
   exists s',
     createDataStoreContext env pkg s = (Returned id, s')
     /\ contexts s' = <[id := newLocalContext LocalFluidDataStoreContext pkg]> (contexts s)
     /\ notBoundContexts s' = {[id]} ∪ notBoundContexts s
     /\ size (contexts s') = S (size (contexts s))
     /\ detachedIds env s')
  /\ (is_Some (contexts s !! id) ->
      createDataStoreContext env pkg s = (Thrown (AssertionError "0x158"), s)).
Proof.
  intros Hdetached id.
  unfold createDataStoreContext, createDataStoreId, createContext,
    DataStoreContexts.addUnbound, DataStoreContexts.size.
  rewrite bool_decide_eq_true_2 by exact Hdetached. monad. fold id. split.
  - intros Hinj Hids.
    assert (contexts s !! id = None) as Hfresh.
    { destruct (contexts s !! id) as [c |] eqn:Hc; [| reflexivity].
      destruct (Hids id) as (i & Hlt & Heq); [by eexists |].
      apply Hinj in Heq. lia. }
    rewrite Hfresh. simpl. eexists. split; [reflexivity |]. simpl.
    split; [reflexivity |]. split; [reflexivity |].
    split; [by apply map_size_insert_None |].
    intros j Hj. simpl in *. rewrite map_size_insert_None by exact Hfresh.
    destruct (decide (id = j)) as [<- | Hne].
    + exists (size (contexts s)). split; [lia | reflexivity].
    + rewrite lookup_insert_ne in Hj by done.
      destruct (Hids j Hj) as (i & Hlt & Heq). exists i. split; [lia | exact Heq].
  - intros [c Hc]. by rewrite Hc.
Qed.

Lemma createDataStoreContext_detached_witness :
  let env := sampleEnv Detached [] in
  (exists s1 s2,
     createDataStoreContext env ["pkg"] emptyState = (Returned "0", s1)
     /\ createDataStoreContext env ["pkg"] s1 = (Returned "2", s2)
     /\ size (contexts s2) = 2%nat)
  /\ createDataStoreContext env ["pkg"]
       (set_contexts (insert "2" (newLocalContext LocalFluidDataStoreContext ["pkg"]))
          emptyState)
     = (Thrown (AssertionError "0x158"),
        set_contexts (insert "2" (newLocalContext LocalFluidDataStoreContext ["pkg"]))
          emptyState).
Proof.
  intros env.
  assert (forall i j : nat,
            encodeCompactIdToString env (2 * Z.of_nat i)
            = encodeCompactIdToString env (2 * Z.of_nat j) -> i = j) as Hinj.
  { intros i j Heq. simpl in Heq. apply (inj pretty) in Heq. lia. }
  split.
  - destruct (createDataStoreContext_detached env emptyState ["pkg"] eq_refl) as [Hnew _].
    destruct (Hnew Hinj) as (s1 & H1 & _ & _ & _ & Hids1).
    { intros id [c Hc]. simpl in Hc. by rewrite lookup_empty in Hc. }
    destruct (createDataStoreContext_detached env s1 ["pkg"] eq_refl) as [Hnew1 _].
    destruct (Hnew1 Hinj Hids1) as (s2 & H2 & _ & _ & Hsize & _).
    assert (size (contexts s1) = 1%nat) as Hs1.
    { vm_compute in H1. inversion H1; subst s1. reflexivity. }
    exists s1, s2. split; [exact H1 |]. split.
    + rewrite H2. by rewrite Hs1.
    + by rewrite Hsize, Hs1.
  - destruct (createDataStoreContext_detached env
                (set_contexts (insert "2" (newLocalContext LocalFluidDataStoreContext ["pkg"]))
                   emptyState) ["pkg"] eq_refl) as [_ Htaken].
    apply Htaken. eexists. reflexivity.
Defined.

Lemma isDataObjectClass_cases obj :
  (isDataObject obj /\ ~ isSharedObject obj /\ isDataObjectClass obj = Ok true)
  \/ (isSharedObject obj /\ ~ isDataObject obj /\ isDataObjectClass obj = Ok false)
  \/ (~ isDataObject obj /\ ~ isSharedObject obj
      /\ isDataObjectClass obj = Failed (UsageError "Invalid LoadableObjectClass")).
Proof.
  unfold isDataObjectClass, isDataObject, isSharedObject.
  destruct (factory obj) as [[provider type] |]; [destruct provider |];
    destruct (getFactory obj) as [channel |]; simpl.
  - right. left. split; [| split; [| reflexivity]].
    + split; [| by eexists]. intros f Hf. inversion Hf; subst f. discriminate.
    + intros [_ H]. discriminate.
  - right. right. split; [| split; [| reflexivity]].
    + intros [(f & Hf & Hp) _]. inversion Hf; subst f. discriminate.
    + intros [_ [x Hx]]. discriminate.
  - right. right. split; [| split; [| reflexivity]].
    + intros [_ H]. discriminate.
    + intros [H _]. by apply (H _ eq_refl).
  - left. split; [| split; [| reflexivity]].
    + split; [by eexists | reflexivity].
    + intros [H _]. by apply (H _ eq_refl).
  - right. left. split; [| split; [| reflexivity]].
    + split; [| by eexists]. intros f Hf. inversion Hf; subst f. discriminate.
    + intros [_ H]. discriminate.
  - right. right. split; [| split; [| reflexivity]].
    + intros [(f & Hf & Hp) _]. inversion Hf; subst f. discriminate.
    + intros [_ [x Hx]]. discriminate.
  - right. left. split; [| split; [| reflexivity]].
    + split; [| by eexists]. intros f Hf. discriminate.
    + intros [_ H]. discriminate.
  - right. right. split; [| split; [| reflexivity]].
    + intros [(f & Hf & _) _]. discriminate.
    + intros [_ [x Hx]]. discriminate.
Qed.

(** X19. The class predicates of a container schema. [isDataObjectClass]
    answers true exactly for a class with a factory that provides itself and
    no getFactory member, false exactly for a class with a getFactory member
    and no such factory, and throws the UsageError "Invalid
    LoadableObjectClass" in every other case (both or neither).
    [isSharedObjectKind] is its negation and throws in the same cases. So
    [tryAddObject] files every class it accepts under exactly one kind, always
    finds the member it calls, and its last branch, "Entry is neither a
    DataObject or a SharedObject", is never reached. *)
Theorem loadable_class_predicates obj acc :
  (isDataObjectClass obj = Ok true <-> isDataObject obj)
  /\ (isDataObjectClass obj = Ok false <-> isSharedObject obj)
  /\ (isDataObjectClass obj = Failed (UsageError "Invalid LoadableObjectClass")
      <-> ~ isDataObject obj /\ ~ isSharedObject obj)
  /\ (forall b, isSharedObjectKind obj = Ok b <-> isDataObjectClass obj = Ok (negb b))
  /\ (forall e, isSharedObjectKind obj = Failed e <-> isDataObjectClass obj = Failed e)
  /\ (isDataObject obj ->
        exists f, factory obj = Some f
          /\ tryAddObject obj acc
             = Ok {| registryEntries := registryEntries acc ++ [factoryType f];
                     sharedObjects := sharedObjects acc |})
  /\ (isSharedObject obj ->
        exists channel, getFactory obj = Some channel
          /\ tryAddObject obj acc
             = Ok {| registryEntries := registryEntries acc;
                     sharedObjects := setAdd channel (sharedObjects acc) |})
  /\ (forall e, tryAddObject obj acc = Failed e ->
        e = UsageError "Invalid LoadableObjectClass").
Proof.
  unfold tryAddObject, isSharedObjectKind.
  destruct (isDataObjectClass_cases obj)
    as [(Hd & Hns & ->) | [(Hs & Hnd & ->) | (Hnd & Hns & ->)]].
  - pose proof Hd as [(f & Hf & Hp) Hg]. simpl. rewrite Hf.
    split; [split; [done | done] |].
    split; [split; [discriminate | intros H; by destruct Hns] |].
    split; [split; [discriminate | intros [H _]; by destruct H] |].
    split; [intros [|]; simpl; split; (discriminate || done) |].
    split; [intros e; split; discriminate |].
    split; [intros _; by exists f |].
    split; [intros H; by destruct Hns |].
    intros e H. discriminate.
  - pose proof Hs as [Hno [channel Hg]]. simpl. rewrite Hg.
    split; [split; [discriminate | intros H; by destruct Hnd] |].
    split; [split; [done | done] |].
    split; [split; [discriminate | intros [_ H]; by destruct H] |].
    split; [intros [|]; simpl; split; (discriminate || done) |].
    split; [intros e; split; discriminate |].
    split; [intros H; by destruct Hnd |].
    split; [intros _; by exists channel |].
    intros e H. discriminate.
  - split; [split; [discriminate | intros H; by destruct Hnd] |].
    split; [split; [discriminate | intros H; by destruct Hns] |].
    split; [split; [done | done] |].
    split; [intros b; split; discriminate |].
    split; [intros e; split; done |].
    split; [intros H; by destruct Hnd |].
    split; [intros H; by destruct Hns |].
    intros e H. by inversion H.
Qed.

Lemma loadable_class_predicates_witness :
  isDataObject sampleDataObject /\ isSharedObject sampleSharedObject
  /\ tryAddObject sampleDataObject {| registryEntries := []; sharedObjects := [] |}
     = Ok {| registryEntries := ["todo-list"]; sharedObjects := [] |}
  /\ tryAddObject sampleSharedObject {| registryEntries := []; sharedObjects := [] |}
     = Ok {| registryEntries := []; sharedObjects := [7%nat] |}.
Proof.
  assert (isDataObject sampleDataObject) as Hd.
  { split; [| reflexivity]. eexists. split; reflexivity. }
  assert (isSharedObject sampleSharedObject) as Hs.
  { split; [intros f Hf; discriminate | by eexists]. }
  split; [exact Hd | split; [exact Hs |]].
  split.
  - destruct (loadable_class_predicates sampleDataObject
                {| registryEntries := []; sharedObjects := [] |})
      as (_ & _ & _ & _ & _ & H & _).
    destruct (H Hd) as (f & Hf & ->). inversion Hf; subst f. reflexivity.
  - destruct (loadable_class_predicates sampleSharedObject
                {| registryEntries := []; sharedObjects := [] |})
      as (_ & _ & _ & _ & _ & _ & H & _).
    destruct (H Hs) as (c & Hc & ->). inversion Hc; subst c. reflexivity.
Defined.

Lemma tryAddObject_cases obj acc :
  (isDataObject obj /\ isDataObjectClass obj = Ok true
   /\ exists f, factory obj = Some f
        /\ tryAddObject obj acc
           = Ok {| registryEntries := registryEntries acc ++ [factoryType f];
                   sharedObjects := sharedObjects acc |})
  \/ (isSharedObject obj /\ isDataObjectClass obj = Ok false
      /\ exists channel, getFactory obj = Some channel
           /\ tryAddObject obj acc
              = Ok {| registryEntries := registryEntries acc;
                      sharedObjects := setAdd channel (sharedObjects acc) |})
  \/ (~ wellFormed obj
      /\ tryAddObject obj acc = Failed (UsageError "Invalid LoadableObjectClass")).
Proof.
  unfold tryAddObject, isSharedObjectKind, wellFormed.
  destruct (isDataObjectClass_cases obj)
    as [(Hd & Hns & Heq) | [(Hs & Hnd & Heq) | (Hnd & Hns & Heq)]]; rewrite Heq; simpl.
  - left. pose proof Hd as [(f & Hf & Hp) Hg]. rewrite Hf.
    split; [done | split; [done |]]. by exists f.
  - right. left. pose proof Hs as [Hno [channel Hg]]. rewrite Hg.
    split; [done | split; [done |]]. by exists channel.
  - right. right. split; [| done]. intros [H | H]; [by apply Hnd | by apply Hns].
Qed.

Lemma tryAddAll_wellFormed objects : forall acc,
  Forall wellFormed objects ->
  tryAddAll objects acc
  = Ok {| registryEntries := registryEntries acc ++ dataObjectTypes objects;
          sharedObjects := foldl (fun set channel => setAdd channel set)
                                 (sharedObjects acc) (channelFactories objects) |}.
Proof.
  induction objects as [| obj rest IH]; intros acc Hall.
  - simpl. rewrite app_nil_r. by destruct acc.
  - apply Forall_cons in Hall as [Hobj Hrest].
    unfold dataObjectTypes, channelFactories. cbn [tryAddAll omap list_omap].
    destruct (tryAddObject_cases obj acc)
      as [(Hd & Hclass & f & Hf & Hadd) | [(Hs & Hclass & c & Hc & Hadd) | [Hbad _]]].
    + rewrite Hadd, Hclass, Hf, IH by done. cbn [fmap option_fmap option_map registryEntries sharedObjects].
      by rewrite <- app_assoc.
    + rewrite Hadd, Hclass, Hc, IH by done. reflexivity.
    + by destruct Hbad.
Qed.

Lemma tryAddAll_malformed objects : forall acc,
  Exists (fun obj => ~ wellFormed obj) objects ->
  tryAddAll objects acc = Failed (UsageError "Invalid LoadableObjectClass").
Proof.
  induction objects as [| obj rest IH]; intros acc Hex.
  - by apply Exists_nil in Hex.
  - cbn [tryAddAll].
    destruct (tryAddObject_cases obj acc)
      as [(Hd & _ & f & _ & Hadd) | [(Hs & _ & c & _ & Hadd) | [_ Hadd]]];
      rewrite Hadd; [| | done].
    + apply Exists_cons in Hex as [Hbad | Hex]; [| by apply IH].
      destruct Hbad. by left.
    + apply Exists_cons in Hex as [Hbad | Hex]; [| by apply IH].
      destruct Hbad. by right.
Qed.

Lemma dedupe_elem objects : forall seen o,
  sameReferenceSameObject objects ->
  o ∈ dedupe seen objects <-> o ∈ objects /\ objectRef o ∉ seen.
Proof.
  induction objects as [| obj rest IH]; intros seen o Hrefs.
  - simpl. split; [intros H; by apply elem_of_nil in H | intros [H _]; by apply elem_of_nil in H].
  - assert (sameReferenceSameObject rest) as Hrest.
    { intros o1 o2 H1 H2. apply Hrefs; by right. }
    cbn [dedupe]. case_bool_decide as Hseen.
    + rewrite IH by done. rewrite elem_of_cons. split.
      * intros [H1 H2]. split; [by right | done].
      * intros [[-> | H1] H2]; [done | by split].
    + rewrite elem_of_cons, IH by done. rewrite !elem_of_cons. split.
      * intros [-> | [H1 H2]]; [split; [by left | done] |].
        split; [by right |]. intros H. apply H2. by right.
      * intros [[-> | H1] H2]; [by left |].
        destruct (decide (objectRef o = objectRef obj)) as [Heq | Hne].
        -- left. apply Hrefs; [by right | by left | done].
        -- right. split; [done |]. intros [H | H]; [done | done].
Qed.

Lemma dedupe_nil objects seen :
  dedupe seen objects = [] -> Forall (fun obj => objectRef obj ∈ seen) objects.
Proof.
  revert seen. induction objects as [| obj rest IH]; intros seen H; [done |].
  cbn [dedupe] in H. case_bool_decide as Hseen; [| done].
  apply Forall_cons. split; [done | by apply IH].
Qed.

Lemma foldl_setAdd channels : forall set,
  NoDup set ->
  NoDup (foldl (fun set channel => setAdd channel set) set channels)
  /\ forall c, c ∈ foldl (fun set channel => setAdd channel set) set channels
               <-> c ∈ set \/ c ∈ channels.
Proof.
  induction channels as [| channel rest IH]; intros set Hset.
  - simpl. split; [done |]. intros c. split; [by left | intros [H | H]; [done | by apply elem_of_nil in H]].
  - cbn [foldl]. unfold setAdd at 2 4. case_bool_decide as Hin.
    + destruct (IH set Hset) as [Hnodup Helem]. split; [done |].
      intros c. rewrite Helem, elem_of_cons. split.
      * intros [H | H]; [by left | right; by right].
      * intros [H | [-> | H]]; [by left | by left | by right].
    + assert (NoDup (set ++ [channel])) as Hset'.
      { apply NoDup_app. split; [done |]. split; [| apply NoDup_singleton].
        intros x Hx Hx'. apply list_elem_of_singleton in Hx'. by subst x. }
      destruct (IH _ Hset') as [Hnodup Helem]. split; [done |].
      intros c. rewrite Helem, elem_of_app, list_elem_of_singleton, elem_of_cons. tauto.
Qed.

(** X20. [parseDataObjectsFromSharedObjects] on a schema whose classes are
    identified by their reference. When every class is a data object class or
    a shared object kind: an empty schema is refused with "Container cannot be
    initialized without any DataTypes", and a schema with at least one class
    is never refused; the registry then lists the factory types of the data
    object classes, once per distinct class and in the order of their first
    occurrence, and the shared objects are the channel factories of the shared
    object kinds, each once. When some class is neither, the call throws the
    UsageError "Invalid LoadableObjectClass". *)
Theorem parseDataObjectsFromSharedObjects_spec initialObjects dynamicObjectTypes :
  let objects := initialObjects ++ dynamicObjectTypes in
  sameReferenceSameObject objects ->
  (Forall wellFormed objects ->
     (objects = [] ->
        parseDataObjectsFromSharedObjects initialObjects dynamicObjectTypes
        = Failed (PlainError "Container cannot be initialized without any DataTypes"))
     /\ (objects <> [] ->
           exists parsed,
             parseDataObjectsFromSharedObjects initialObjects dynamicObjectTypes = Ok parsed
             /\ registryEntries parsed = dataObjectTypes (dedupe [] objects)
             /\ (forall t, t ∈ registryEntries parsed
                   <-> exists o f, o ∈ objects /\ isDataObject o
                                   /\ factory o = Some f /\ factoryType f = t)
             /\ NoDup (sharedObjects parsed)
             /\ (forall c, c ∈ sharedObjects parsed
                   <-> exists o, o ∈ objects /\ isSharedObject o /\ getFactory o = Some c)))
  /\ (Exists (fun obj => ~ wellFormed obj) objects ->
        parseDataObjectsFromSharedObjects initialObjects dynamicObjectTypes
        = Failed (UsageError "Invalid LoadableObjectClass")).
Proof.
  intros objects Hrefs. unfold parseDataObjectsFromSharedObjects. fold objects.
  assert (forall o, o ∈ dedupe [] objects <-> o ∈ objects) as Hdedupe.
  { intros o. rewrite dedupe_elem by done. split; [by intros [H _] |].
    intros H. split; [done |]. apply not_elem_of_nil. }
  split.
  - intros Hall. split.
    + intros ->. reflexivity.
    + intros Hne.
      assert (Forall wellFormed (dedupe [] objects)) as Hall'.
      { apply Forall_forall. intros o Ho. apply Hdedupe in Ho.
        by apply (proj1 (Forall_forall _ _) Hall). }
      rewrite tryAddAll_wellFormed by done. cbn [registryEntries sharedObjects app].
      destruct (foldl_setAdd (channelFactories (dedupe [] objects)) [] (NoDup_nil_2))
        as [Hnodup Helem].
      assert (forall t, t ∈ dataObjectTypes (dedupe [] objects)
                <-> exists o f, o ∈ objects /\ isDataObject o
                                /\ factory o = Some f /\ factoryType f = t) as Htypes.
      { intros t. unfold dataObjectTypes. rewrite list_elem_of_omap. split.
        - intros (o & Ho & Ht). apply Hdedupe in Ho.
          destruct (isDataObjectClass_cases o)
            as [(Hd & _ & Heq) | [(_ & _ & Heq) | (_ & _ & Heq)]];
            rewrite Heq in Ht; [| done | done].
          destruct (factory o) as [f |] eqn:Hf; [| done].
          inversion Ht; subst t. by exists o, f.
        - intros (o & f & Ho & Hd & Hf & Ht). exists o. split; [by apply Hdedupe |].
          destruct (isDataObjectClass_cases o)
            as [(_ & _ & Heq) | [(_ & Hnd & _) | (Hnd & _ & _)]];
            [| by destruct Hnd | by destruct Hnd].
          rewrite Heq, Hf. simpl. by rewrite Ht. }
      assert (forall c, c ∈ channelFactories (dedupe [] objects)
                <-> exists o, o ∈ objects /\ isSharedObject o /\ getFactory o = Some c)
        as Hchannels.
      { intros c. unfold channelFactories. rewrite list_elem_of_omap. split.
        - intros (o & Ho & Hc). apply Hdedupe in Ho.
          destruct (isDataObjectClass_cases o)
            as [(_ & _ & Heq) | [(Hs & _ & Heq) | (_ & _ & Heq)]];
            rewrite Heq in Hc; [done | | done].
          by exists o.
        - intros (o & Ho & Hs & Hc). exists o. split; [by apply Hdedupe |].
          destruct (isDataObjectClass_cases o)
            as [(_ & Hns & _) | [(_ & _ & Heq) | (_ & Hns & _)]];
            [by destruct Hns | | by destruct Hns].
          by rewrite Heq. }
      destruct objects as [| first rest] eqn:Hobjects; [done |].
      assert (first ∈ first :: rest) as Hfirst by by left.
      assert (wellFormed first) as Hwf
        by (apply (proj1 (Forall_forall _ _) Hall); done).
      match goal with
      | |- context [if ?b then _ else _] => assert (b = false) as ->
      end.
      { apply andb_false_iff. destruct Hwf as [Hd | Hs].
        - left. apply Nat.eqb_neq. intros Hlen.
          apply length_zero_iff_nil in Hlen.
          destruct Hd as [(f & Hf & Hp) Hg].
          assert (factoryType f ∈ dataObjectTypes (dedupe [] (first :: rest))) as Hin.
          { apply Htypes. exists first, f. split; [done |]. split; [| done].
            split; [by exists f | done]. }
          rewrite Hlen in Hin. by apply elem_of_nil in Hin.
        - right. apply Nat.eqb_neq. intros Hlen.
          apply length_zero_iff_nil in Hlen.
          pose proof Hs as [_ [c Hc]].
          assert (c ∈ foldl (fun set channel => setAdd channel set) []
                          (channelFactories (dedupe [] (first :: rest)))) as Hin.
          { apply Helem. right. apply Hchannels. by exists first. }
          rewrite Hlen in Hin. by apply elem_of_nil in Hin. }
      eexists. split; [reflexivity |]. cbn [registryEntries sharedObjects].
      split; [done |]. split; [exact Htypes |]. split; [exact Hnodup |].
      intros c. rewrite Helem, Hchannels. split; [intros [H | H]; [by apply elem_of_nil in H | done] | by right].
  - intros Hex.
    rewrite tryAddAll_malformed; [done |].
    apply Exists_exists in Hex as (o & Ho & Hbad).
    apply Exists_exists. exists o. split; [by apply Hdedupe | done].
Qed.

Lemma parseDataObjectsFromSharedObjects_spec_witness :
  parseDataObjectsFromSharedObjects [sampleDataObject; sampleSharedObject] [sampleSharedObject]
  = Ok {| registryEntries := ["todo-list"]; sharedObjects := [7%nat] |}
  /\ parseDataObjectsFromSharedObjects [sampleSharedObject] [sampleInvalidObject]
     = Failed (UsageError "Invalid LoadableObjectClass").
Proof.
  assert (isDataObject sampleDataObject) as Hd.
  { split; [| reflexivity]. eexists. split; reflexivity. }
  assert (isSharedObject sampleSharedObject) as Hs.
  { split; [intros f Hf; discriminate | by eexists]. }
  split.
  - assert (sameReferenceSameObject
              ([sampleDataObject; sampleSharedObject] ++ [sampleSharedObject])) as Hrefs.
    { intros o1 o2 H1 H2 Href. simpl in H1, H2.
      repeat (apply elem_of_cons in H1 as [-> | H1]);
        repeat (apply elem_of_cons in H2 as [-> | H2]);
        try reflexivity; try discriminate;
        try (by apply elem_of_nil in H1); by apply elem_of_nil in H2. }
    destruct (parseDataObjectsFromSharedObjects_spec
                [sampleDataObject; sampleSharedObject] [sampleSharedObject] Hrefs)
      as [Hgood _].
    destruct Hgood as [_ Hparsed].
    { simpl. repeat apply Forall_cons_2; [by left | by right | by right | apply Forall_nil_2]. }
    destruct Hparsed as (parsed & Hrun & _); [discriminate |].
    rewrite Hrun. vm_compute in Hrun. symmetry. exact Hrun.
  - assert (sameReferenceSameObject ([sampleSharedObject] ++ [sampleInvalidObject])) as Hrefs.
    { intros o1 o2 H1 H2 Href. simpl in H1, H2.
      repeat (apply elem_of_cons in H1 as [-> | H1]);
        repeat (apply elem_of_cons in H2 as [-> | H2]);
        try reflexivity; try discriminate;
        try (by apply elem_of_nil in H1); by apply elem_of_nil in H2. }
    destruct (parseDataObjectsFromSharedObjects_spec
                [sampleSharedObject] [sampleInvalidObject] Hrefs) as [_ Hbad].
    apply Hbad. simpl. apply Exists_cons_tl, Exists_cons_hd.
    intros [[(f & Hf & _) _] | [_ [c Hc]]]; discriminate.
Defined.
